(** * CppUnit: composite test tree, mock listener and plug-in tester

    A shallow embedding of three translation units and one header of the
    CppUnit trunk:

    - [src/cppunit/TestSuite.cpp]                    (module [Suite])
    - [include/cppunit/extensions/TestSuiteBuilder.h] (module [Builder])
    - [examples/cppunittest/MockTestListener.cpp]    (module [Mock])
    - [src/DllPlugInTester/DllPlugInTester.cpp]      (module [Tester])

    Part I holds the definitions, Part II the theorems about them. *)

From Stdlib Require Import ZArith String List Bool Arith Lia.
Import ListNotations.

Set Implicit Arguments.
Set Warnings "-register-all".

(* ===================================================================== *)
(** * Part I: definitions                                                *)
(* ===================================================================== *)

(** ** The C++ [int] *)

(** [int] is a 32-bit two's-complement integer.  The language leaves signed
    overflow undefined; the embedding takes the wrap-around every supported
    compiler produces, and the theorems that depend on a counter say how far
    it may go. *)
Module Int.

Definition min_signed : Z := -2147483648.
Definition max_signed : Z := 2147483647.
Definition modulus : Z := 4294967296.

Definition in_range (z : Z) : Prop := (min_signed <= z <= max_signed)%Z.

Definition wrap (z : Z) : Z := ((z - min_signed) mod modulus + min_signed)%Z.

(** [a + b] and [++a] on [int]. *)
Definition add (a b : Z) : Z := wrap (a + b).
Definition incr (a : Z) : Z := add a 1.

End Int.

(** ** Exceptions and mutable state *)

(** A member function either returns or throws, and what it assigned before
    it threw stays assigned: a computation takes the state and gives back an
    outcome together with the state it left. *)
Module Eff.

Inductive Outcome (E A : Type) : Type :=
| Returned (value : A)
| Thrown (exception : E).

Arguments Returned {E A} value.
Arguments Thrown {E A} exception.

Definition M (S E A : Type) : Type := S -> Outcome E A * S.

Section Operations.
Variables S E : Type.

Definition ret {A} (a : A) : M S E A := fun s => (Returned a, s).

Definition bind {A B} (c : M S E A) (k : A -> M S E B) : M S E B :=
  fun s =>
    match c s with
    | (Returned a, s') => k a s'
    | (Thrown e, s') => (Thrown e, s')
    end.

Definition throw {A} (e : E) : M S E A := fun s => (Thrown e, s).

Definition get : M S E S := fun s => (Returned s, s).

Definition modify (f : S -> S) : M S E unit := fun s => (Returned tt, f s).

(** [if (condition) body]. *)
Definition when (condition : bool) (body : M S E unit) : M S E unit :=
  if condition then body else ret tt.

(** [try body catch (...) handler]: [handler e] is [None] when no [catch]
    clause takes [e], which then propagates. *)
Definition try_catch {A} (body : M S E A) (handler : E -> option (M S E A))
  : M S E A :=
  fun s =>
    match body s with
    | (Returned a, s') => (Returned a, s')
    | (Thrown e, s') =>
        match handler e with
        | Some h => h s'
        | None => (Thrown e, s')
        end
    end.

Definition outcome {A} (c : M S E A) (s : S) : Outcome E A := fst (c s).
Definition state_after {A} (c : M S E A) (s : S) : S := snd (c s).

End Operations.

Arguments ret {S E A} a.
Arguments throw {S E A} e.
Arguments get {S E}.
Arguments modify {S E} f.

End Eff.

Import Eff.

Declare Scope eff_scope.
Delimit Scope eff_scope with eff.
Notation "x <- c ;; k" := (bind c (fun x => k))
  (at level 61, c at next level, right associativity) : eff_scope.
Notation "c ;; k" := (bind c (fun _ => k))
  (at level 61, right associativity) : eff_scope.

(* ===================================================================== *)
(** ** TestSuite.cpp                                                     *)
(* ===================================================================== *)

Module Suite.

Section Composite.

(** [TestResult] is declared in [cppunit/TestResult.h]; the suite only ever
    asks it [shouldStop()] and hands it on to its children. *)
Variable TestResult : Type.
Variable shouldStop : TestResult -> bool.

(** A [Test *] held in [m_tests].  [TestSuite] is the class of this file;
    [OtherTest] stands for any other implementation of the abstract [Test]
    (a [TestCase], a decorator, ...), known here only through its two
    virtual members: what [countTestCases()] returns and what [run(result)]
    does to the result. *)
Inductive Test : Type :=
| OtherTest (countTestCases_impl : Z) (run_impl : TestResult -> TestResult)
| TestSuite (m_name : string) (m_tests : list Test).

(** The calls a member function of [TestSuite] issues, in program order:
    the operations of [TestResult] ([shouldStop] with the answer it gave,
    and the five notifications) and the two virtual calls on a child, named
    by the child's position in [m_tests]. *)
Inductive Call : Type :=
| call_shouldStop (answer : bool)
| call_startSuite
| call_startTest
| call_addFailure
| call_endTest
| call_endSuite
| call_run (index : nat)
| call_countTestCases (index : nat).

(** The [for] loop of [TestSuite::run], from iterator [it] (the child at
    position [index]) to [m_tests.end()]; [run_child] is the virtual
    [test->run (result)]. *)
Section RunLoop.
Variable run_child : Test -> TestResult -> TestResult.

Fixpoint run_loop (it : list Test) (index : nat) (result : TestResult)
  : TestResult * list Call :=
  match it with
  | [] => (result, [])
  | test :: rest =>
      if shouldStop result then (result, [call_shouldStop true])
      else
        let result' := run_child test result in
        let (final, calls) := run_loop rest (S index) result' in
        (final, call_shouldStop false :: call_run index :: calls)
  end.
End RunLoop.

(** The [for] loop of [TestSuite::countTestCases], with the accumulator
    [count]; [count_child] is the virtual [( *it )->countTestCases ()]. *)
Section CountLoop.
Variable count_child : Test -> Z.

Fixpoint count_loop (it : list Test) (index : nat) (count : Z)
  : Z * list Call :=
  match it with
  | [] => (count, [])
  | test :: rest =>
      let (total, calls) :=
        count_loop rest (S index) (Int.add count (count_child test)) in
      (total, call_countTestCases index :: calls)
  end.
End CountLoop.

(** Virtual dispatch of [Test::run]. *)
Fixpoint run (t : Test) (result : TestResult) : TestResult :=
  match t with
  | OtherTest _ run_impl => run_impl result
  | TestSuite _ m_tests => fst (run_loop run m_tests 0 result)
  end.

(** Virtual dispatch of [Test::countTestCases]. *)
Fixpoint countTestCases (t : Test) : Z :=
  match t with
  | OtherTest n _ => n
  | TestSuite _ m_tests => fst (count_loop countTestCases m_tests 0 0%Z)
  end.

(** [TestSuite::run (TestResult *result)]: the result it leaves and the
    calls it made. *)
Definition TestSuite_run (m_tests : list Test) (result : TestResult)
  : TestResult * list Call :=
  run_loop run m_tests 0 result.

(** [TestSuite::countTestCases () const]: the value it returns and the
    calls it made. *)
Definition TestSuite_countTestCases (m_tests : list Test) : Z * list Call :=
  count_loop countTestCases m_tests 0 0%Z.

(** [TestSuite::addTest], [TestSuite::getName], [TestSuite::toString]. *)
Definition addTest (test : Test) (m_tests : list Test) : list Test :=
  m_tests ++ [test].

Definition getName (m_name : string) : string := m_name.

Definition toString (m_name : string) : string :=
  ("suite " ++ getName m_name)%string.

(** *** Vocabulary of the statements *)

(** What the loop of [run] logs while it starts [n] children one after the
    other from position [from]: a consultation answered [false], then the
    child's [run]. *)
Fixpoint started_calls (from n : nat) : list Call :=
  match n with
  | O => []
  | S n' => call_shouldStop false :: call_run from :: started_calls (S from) n'
  end.

(** What the loop logs when it leaves after [n] children of [size]: nothing
    if the iterator reached the end, the consultation answered [true] if it
    broke out. *)
Definition leaving_calls (n size : nat) : list Call :=
  if n <? size then [call_shouldStop true] else [].

(** The state of the result once the first [k] children have had their
    turn. *)
Definition result_after (k : nat) (m_tests : list Test) (result : TestResult)
  : TestResult :=
  fst (TestSuite_run (firstn k m_tests) result).

(** The mathematical sum of what the children answer. *)
Definition sum_of_children (m_tests : list Test) : Z :=
  fold_right Z.add 0%Z (map countTestCases m_tests).

Definition counting_calls (from n : nat) : list Call :=
  map call_countTestCases (seq from n).

(** The only two calls the body of [run] contains. *)
Definition is_stop_or_run (c : Call) : bool :=
  match c with
  | call_shouldStop _ | call_run _ => true
  | _ => false
  end.

(** A tree made of suites alone, down to suites without children. *)
Fixpoint only_suites (t : Test) : bool :=
  match t with
  | OtherTest _ _ => false
  | TestSuite _ m_tests => forallb only_suites m_tests
  end.

(** "The suite notifies the result of its start before it runs its children
    and of its end after". *)
Definition brackets_with_suite_events (calls : list Call) : Prop :=
  exists middle, calls = call_startSuite :: middle ++ [call_endSuite].

End Composite.

Arguments OtherTest {TestResult} countTestCases_impl run_impl.
Arguments TestSuite {TestResult} m_name m_tests.

(** *** A small tree to evaluate on *)

(** The result is reduced to its stop flag; [passing] leaves it alone and
    [stopping] raises it, as a test that calls [result->stop()] does. *)
Definition passing : Test bool := OtherTest 1 (fun result => result).
Definition stopping : Test bool := OtherTest 1 (fun _ => true).
Definition flag (result : bool) : bool := result.

Definition sample_tests : list (Test bool) :=
  [passing; stopping; passing; TestSuite "inner" [passing; passing]].

Definition sample_suites : list (Test bool) :=
  [TestSuite "empty" []; TestSuite "outer" [TestSuite "inner" []]].

(** *** Further vocabulary *)

Section Sequences.
Variable TestResult : Type.
Variable shouldStop : TestResult -> bool.

(** The children run one after the other, none left out. *)
Definition run_each (m_tests : list (Test TestResult)) (result : TestResult)
  : TestResult :=
  fold_left (fun result test => run shouldStop test result) m_tests result.

End Sequences.

(** A result that counts what was run on it and stops at a limit: [ticking]
    is a test that adds one to the count. *)
Definition limit_reached (limit count : nat) : bool := limit <=? count.
Definition ticking : Test nat := OtherTest 1 S.

Definition ticking_tests : list (Test nat) :=
  [ticking; TestSuite "inner" [ticking; ticking]; ticking].

(** *** Deleting *)

Section Deletion.
Variable TestResult : Type.

(** The objects a deletion reaches are named by the positions that lead to
    them from the suite it starts at: [[2; 0]] is the first child of the
    third child. *)
Definition Path : Type := list nat.

(** The [for] loop of [TestSuite::deleteContents], from iterator [it] (the
    child at position [index]) to [m_tests.end()]: what it deletes, in
    order.  [delete_child] is [delete *it]. *)
Section DeleteLoop.
Variable delete_child : Path -> Test TestResult -> list Path.

Fixpoint delete_loop (path : Path) (it : list (Test TestResult)) (index : nat)
  : list Path :=
  match it with
  | [] => []
  | test :: rest =>
      delete_child (path ++ [index]) test ++ delete_loop path rest (S index)
  end.
End DeleteLoop.

(** [delete test], for the object at [path]: its destructor runs, which for
    a [TestSuite] is [deleteContents ()], and then the object itself
    goes. *)
Fixpoint delete_ (path : Path) (test : Test TestResult) : list Path :=
  match test with
  | OtherTest _ _ => [path]
  | TestSuite _ m_tests => delete_loop delete_ path m_tests 0 ++ [path]
  end.

(** [TestSuite::deleteContents ()]: the [m_tests] it leaves, and what it
    deleted. *)
Definition deleteContents (m_tests : list (Test TestResult))
  : list (Test TestResult) * list Path :=
  ([], delete_loop delete_ [] m_tests 0).

(** [TestSuite::~TestSuite ()]. *)
Definition destroy (m_tests : list (Test TestResult))
  : list (Test TestResult) * list Path :=
  deleteContents m_tests.

(** The object a path leads to. *)
Fixpoint object_at (m_tests : list (Test TestResult)) (path : Path)
  : option (Test TestResult) :=
  match path with
  | [] => None
  | index :: deeper =>
      match nth_error m_tests index with
      | None => None
      | Some test =>
          match deeper, test with
          | [], _ => Some test
          | _ :: _, TestSuite _ inner => object_at inner deeper
          | _ :: _, OtherTest _ _ => None
          end
      end
  end.

(** [deeper] leads from [test] to [test] itself or to an object in it. *)
Definition reaches (test : Test TestResult) (deeper : Path) : Prop :=
  deeper = []
  \/ match test with
     | TestSuite _ inner => object_at inner deeper <> None
     | OtherTest _ _ => False
     end.

End Deletion.

End Suite.

(* ===================================================================== *)
(** ** TestSuiteBuilder.h                                                *)
(* ===================================================================== *)

Module Builder.
Import Suite.

Local Open Scope string_scope.

Section TestSuiteBuilder.

Variable TestResult : Type.

(** [typedef void (Fixture::*TestMethod)()], and [makeTestCaller] of
    [cppunit/TestCaller.h], which is not among the sources: the test object
    it makes of a name and a method. *)
Variable TestMethod : Type.
Variable makeTestCaller : string -> TestMethod -> Test TestResult.

(** A [TestSuite] object: its [m_name] and its [m_tests]. *)
Definition SuiteObject : Type := (string * list (Test TestResult))%type.

(** [std::auto_ptr<TestSuite> m_suite]: the suite the builder owns, or
    [None] once the pointer was released. *)
Record TestSuiteBuilder : Type := {
  m_suite : option SuiteObject
}.

(** [TestSuiteBuilder( TestSuite *suite )]. *)
Definition of_suite (suite : SuiteObject) : TestSuiteBuilder :=
  {| m_suite := Some suite |}.

(** [TestSuiteBuilder(std::string name)], with [new TestSuite(name)]. *)
Definition of_name (name : string) : TestSuiteBuilder :=
  {| m_suite := Some (name, []) |}.

(** [suite() const]: [m_suite.get()]. *)
Definition suite (b : TestSuiteBuilder) : option SuiteObject := m_suite b.

(** [takeSuite()]: [m_suite.release()], which hands the pointer over and
    leaves the builder with none. *)
Definition takeSuite (b : TestSuiteBuilder)
  : option SuiteObject * TestSuiteBuilder :=
  (m_suite b, {| m_suite := None |}).

(** [addTest( Test *test )]: [m_suite->addTest( test )].  Through a
    released pointer the call has no defined behaviour: [None]. *)
Definition addTest (test : Test TestResult) (b : TestSuiteBuilder)
  : option TestSuiteBuilder :=
  match m_suite b with
  | Some (m_name, m_tests) =>
      Some {| m_suite := Some (m_name, Suite.addTest test m_tests) |}
  | None => None
  end.

(** [addTestCaller( std::string name, TestMethod testMethod )]. *)
Definition addTestCaller (name : string) (testMethod : TestMethod)
  (b : TestSuiteBuilder) : option TestSuiteBuilder :=
  match m_suite b with
  | Some (m_name, _) =>
      let test := makeTestCaller (getName m_name ++ "." ++ name) testMethod in
      addTest test b
  | None => None
  end.

(** The destructor the compiler supplies: the [auto_ptr] deletes the suite
    it still owns, which deletes the contents of the suite. *)
Definition destroy (b : TestSuiteBuilder) : list Path :=
  match m_suite b with
  | Some (m_name, m_tests) => delete_ [] (TestSuite m_name m_tests)
  | None => []
  end.

(** Callers added one after the other. *)
Fixpoint addTestCallers (callers : list (string * TestMethod))
  (b : TestSuiteBuilder) : option TestSuiteBuilder :=
  match callers with
  | [] => Some b
  | (name, testMethod) :: rest =>
      match addTestCaller name testMethod b with
      | Some b' => addTestCallers rest b'
      | None => None
      end
  end.

End TestSuiteBuilder.

(** A fixture with three test methods, each a test that counts for one. *)
Definition sample_callers : list (string * nat) :=
  [("testAdd", 0); ("testRemove", 1); ("testClear", 2)].

Definition sample_makeTestCaller (name : string) (method : nat) : Test nat :=
  OtherTest 1 (fun result => result + method).

End Builder.

(* ===================================================================== *)
(** ** MockTestListener.cpp                                              *)
(* ===================================================================== *)

Module Mock.

Local Open Scope string_scope.
Local Open Scope eff_scope.

(** A [CppUnit::Test *] or [CppUnit::Exception *]: the listener only ever
    compares such pointers, so an address is all there is to them. *)
Definition pointer : Type := N.
Definition NULL : pointer := 0%N.

(** The three accessors of [CppUnit::TestFailure] that [addFailure] reads. *)
Record TestFailure : Type := {
  failedTest : pointer;
  thrownException : pointer;
  isError : bool
}.

(** The five members the class keeps for each of [startTest], [endTest],
    [startSuite] and [endSuite]; for [startTest] they are
    [m_hasExpectationForStartTest], [m_hasParametersExpectationForStartTest],
    [m_expectedStartTestCallCount], [m_startTestCall] and
    [m_expectedStartTest], and likewise for the other three.  The constructor
    leaves the expected pointer uninitialised: [None] until a setter assigns
    it. *)
Record CallExpectation : Type := {
  m_hasExpectation : bool;
  m_hasParametersExpectation : bool;
  m_expectedCallCount : Z;
  m_call : Z;
  m_expected : option pointer
}.

(** The members kept for [addFailure]. *)
Record FailureExpectation : Type := {
  m_hasExpectationForAddFailure : bool;
  m_hasExpectationForSomeFailure : bool;
  m_hasParametersExpectationForAddFailure : bool;
  m_expectedAddFailureCallCount : Z;
  m_addFailureCall : Z;
  m_expectedFailedTest : pointer;
  m_expectedException : pointer;
  m_expectedIsError : bool
}.

Record MockTestListener : Type := {
  m_name : string;
  forStartTest : CallExpectation;
  forEndTest : CallExpectation;
  forStartSuite : CallExpectation;
  forEndSuite : CallExpectation;
  forAddFailure : FailureExpectation
}.

(** The four notifications that carry a [Test *]. *)
Inductive TestEvent : Type := StartTest | EndTest | StartSuite | EndSuite.

Definition expectation (event : TestEvent) (m : MockTestListener)
  : CallExpectation :=
  match event with
  | StartTest => forStartTest m
  | EndTest => forEndTest m
  | StartSuite => forStartSuite m
  | EndSuite => forEndSuite m
  end.

Definition with_expectation (event : TestEvent) (e : CallExpectation)
  (m : MockTestListener) : MockTestListener :=
  {| m_name := m_name m;
     forStartTest := match event with StartTest => e | _ => forStartTest m end;
     forEndTest := match event with EndTest => e | _ => forEndTest m end;
     forStartSuite := match event with StartSuite => e | _ => forStartSuite m end;
     forEndSuite := match event with EndSuite => e | _ => forEndSuite m end;
     forAddFailure := forAddFailure m |}.

Definition with_failure (e : FailureExpectation) (m : MockTestListener)
  : MockTestListener :=
  {| m_name := m_name m;
     forStartTest := forStartTest m;
     forEndTest := forEndTest m;
     forStartSuite := forStartSuite m;
     forEndSuite := forEndSuite m;
     forAddFailure := e |}.

(** [MockTestListener::MockTestListener( std::string name )]. *)
Definition no_expectation : CallExpectation :=
  {| m_hasExpectation := false;
     m_hasParametersExpectation := false;
     m_expectedCallCount := 0;
     m_call := 0;
     m_expected := None |}.

Definition new (name : string) : MockTestListener :=
  {| m_name := name;
     forStartTest := no_expectation;
     forEndTest := no_expectation;
     forStartSuite := no_expectation;
     forEndSuite := no_expectation;
     forAddFailure :=
       {| m_hasExpectationForAddFailure := false;
          m_hasExpectationForSomeFailure := false;
          m_hasParametersExpectationForAddFailure := false;
          m_expectedAddFailureCallCount := 0;
          m_addFailureCall := 0;
          m_expectedFailedTest := NULL;
          m_expectedException := NULL;
          m_expectedIsError := false |} |}.

(** *** The setters *)

(** [setExpectFailure( failedTest, thrownException, isError )]. *)
Definition setExpectFailure (failedTest thrownException : pointer)
  (isError : bool) (m : MockTestListener) : MockTestListener :=
  let e := forAddFailure m in
  with_failure
    {| m_hasExpectationForAddFailure := true;
       m_hasExpectationForSomeFailure := m_hasExpectationForSomeFailure e;
       m_hasParametersExpectationForAddFailure := true;
       m_expectedAddFailureCallCount := 1;
       m_addFailureCall := m_addFailureCall e;
       m_expectedFailedTest := failedTest;
       m_expectedException := thrownException;
       m_expectedIsError := isError |} m.

(** [setExpectNoFailure()]. *)
Definition setExpectNoFailure (m : MockTestListener) : MockTestListener :=
  let e := forAddFailure m in
  with_failure
    {| m_hasExpectationForAddFailure := true;
       m_hasExpectationForSomeFailure := m_hasExpectationForSomeFailure e;
       m_hasParametersExpectationForAddFailure :=
         m_hasParametersExpectationForAddFailure e;
       m_expectedAddFailureCallCount := 0;
       m_addFailureCall := m_addFailureCall e;
       m_expectedFailedTest := m_expectedFailedTest e;
       m_expectedException := m_expectedException e;
       m_expectedIsError := m_expectedIsError e |} m.

(** [setExpectFailure()], the overload without arguments. *)
Definition setExpectSomeFailure (m : MockTestListener) : MockTestListener :=
  let e := forAddFailure m in
  with_failure
    {| m_hasExpectationForAddFailure := m_hasExpectationForAddFailure e;
       m_hasExpectationForSomeFailure := true;
       m_hasParametersExpectationForAddFailure :=
         m_hasParametersExpectationForAddFailure e;
       m_expectedAddFailureCallCount := m_expectedAddFailureCallCount e;
       m_addFailureCall := m_addFailureCall e;
       m_expectedFailedTest := m_expectedFailedTest e;
       m_expectedException := m_expectedException e;
       m_expectedIsError := m_expectedIsError e |} m.

(** [setExpectedAddFailureCall( int callCount )]. *)
Definition setExpectedAddFailureCall (callCount : Z) (m : MockTestListener)
  : MockTestListener :=
  let e := forAddFailure m in
  with_failure
    {| m_hasExpectationForAddFailure := true;
       m_hasExpectationForSomeFailure := m_hasExpectationForSomeFailure e;
       m_hasParametersExpectationForAddFailure :=
         m_hasParametersExpectationForAddFailure e;
       m_expectedAddFailureCallCount := callCount;
       m_addFailureCall := m_addFailureCall e;
       m_expectedFailedTest := m_expectedFailedTest e;
       m_expectedException := m_expectedException e;
       m_expectedIsError := m_expectedIsError e |} m.

(** [setExpectStartTest], [setExpectEndTest], [setExpectStartSuite] and
    [setExpectEndSuite] ( [CppUnit::Test *test] ): the same four assignments
    on the members of their event. *)
Definition setExpect (event : TestEvent) (test : pointer)
  (m : MockTestListener) : MockTestListener :=
  with_expectation event
    {| m_hasExpectation := true;
       m_hasParametersExpectation := true;
       m_expectedCallCount := 1;
       m_call := m_call (expectation event m);
       m_expected := Some test |} m.

(** [setExpectedStartTestCall], [setExpectedEndTestCall],
    [setExpectedStartSuiteCall] and [setExpectedEndSuiteCall]
    ( [int callCount] ). *)
Definition setExpectedCall (event : TestEvent) (callCount : Z)
  (m : MockTestListener) : MockTestListener :=
  let e := expectation event m in
  with_expectation event
    {| m_hasExpectation := true;
       m_hasParametersExpectation := m_hasParametersExpectation e;
       m_expectedCallCount := callCount;
       m_call := m_call e;
       m_expected := m_expected e |} m.

Definition setExpectStartTest := setExpect StartTest.
Definition setExpectedStartTestCall := setExpectedCall StartTest.
Definition setExpectEndTest := setExpect EndTest.
Definition setExpectedEndTestCall := setExpectedCall EndTest.
Definition setExpectStartSuite := setExpect StartSuite.
Definition setExpectedStartSuiteCall := setExpectedCall StartSuite.
Definition setExpectEndSuite := setExpect EndSuite.
Definition setExpectedEndSuiteCall := setExpectedCall EndSuite.

(** *** The notifications *)

(** A member function of the listener: it may assign members and may throw
    the exception of a failed assertion, here the message it was given. *)
Definition Method (A : Type) : Type := M MockTestListener string A.

(** [CPPUNIT_ASSERT_MESSAGE( message, condition )]. *)
Definition CPPUNIT_ASSERT_MESSAGE (message : string) (condition : bool)
  : Method unit :=
  if condition then ret tt else throw message.

(** [CPPUNIT_ASSERT_EQUAL_MESSAGE( message, expected, actual )]. *)
Definition CPPUNIT_ASSERT_EQUAL_MESSAGE (message : string) (expected actual : Z)
  : Method unit :=
  if (expected =? actual)%Z then ret tt else throw message.

(** [m_addFailureCall = count], and [++m_addFailureCall]. *)
Definition with_addFailureCall (count : Z) (m : MockTestListener)
  : MockTestListener :=
  let e := forAddFailure m in
  with_failure
    {| m_hasExpectationForAddFailure := m_hasExpectationForAddFailure e;
       m_hasExpectationForSomeFailure := m_hasExpectationForSomeFailure e;
       m_hasParametersExpectationForAddFailure :=
         m_hasParametersExpectationForAddFailure e;
       m_expectedAddFailureCallCount := m_expectedAddFailureCallCount e;
       m_addFailureCall := count;
       m_expectedFailedTest := m_expectedFailedTest e;
       m_expectedException := m_expectedException e;
       m_expectedIsError := m_expectedIsError e |} m.

Definition count_addFailure (m : MockTestListener) : MockTestListener :=
  with_addFailureCall (Int.incr (m_addFailureCall (forAddFailure m))) m.

(** [++m_startTestCall] and its three siblings. *)
Definition count_call (event : TestEvent) (m : MockTestListener)
  : MockTestListener :=
  let e := expectation event m in
  with_expectation event
    {| m_hasExpectation := m_hasExpectation e;
       m_hasParametersExpectation := m_hasParametersExpectation e;
       m_expectedCallCount := m_expectedCallCount e;
       m_call := Int.incr (m_call e);
       m_expected := m_expected e |} m.

(** [m_expectedStartTest == test] and its three siblings. *)
Definition points_to (expected : option pointer) (test : pointer) : bool :=
  match expected with
  | Some p => (p =? test)%N
  | None => false
  end.

(** [addFailure( const CppUnit::TestFailure &failure )]. *)
Definition addFailure (failure : TestFailure) : Method unit :=
  m <- get ;;
  when (m_hasExpectationForAddFailure (forAddFailure m)
        || m_hasExpectationForSomeFailure (forAddFailure m))
    (modify count_addFailure) ;;
  m <- get ;;
  when (m_hasExpectationForAddFailure (forAddFailure m))
    (CPPUNIT_ASSERT_MESSAGE (m_name m ++ ": unexpected call")
       (m_addFailureCall (forAddFailure m)
        <=? m_expectedAddFailureCallCount (forAddFailure m))%Z) ;;
  when (m_hasParametersExpectationForAddFailure (forAddFailure m))
    (CPPUNIT_ASSERT_MESSAGE (m_name m ++ ": bad test")
       (m_expectedFailedTest (forAddFailure m) =? failedTest failure)%N ;;
     CPPUNIT_ASSERT_MESSAGE (m_name m ++ ": bad thrownException")
       (m_expectedException (forAddFailure m) =? thrownException failure)%N ;;
     CPPUNIT_ASSERT_MESSAGE (m_name m ++ ": bad isError")
       (Bool.eqb (m_expectedIsError (forAddFailure m)) (isError failure))).

(** [startTest], [endTest], [startSuite] and [endSuite]
    ( [CppUnit::Test *test] ): the same body on the members of their
    event. *)
Definition notified (event : TestEvent) (test : pointer) : Method unit :=
  m <- get ;;
  when (m_hasExpectation (expectation event m))
    (modify (count_call event) ;;
     m <- get ;;
     CPPUNIT_ASSERT_MESSAGE (m_name m ++ ": unexpected call")
       (m_call (expectation event m)
        <=? m_expectedCallCount (expectation event m))%Z) ;;
  m <- get ;;
  when (m_hasParametersExpectation (expectation event m))
    (CPPUNIT_ASSERT_MESSAGE (m_name m ++ ": bad test")
       (points_to (m_expected (expectation event m)) test)).

Definition startTest := notified StartTest.
Definition endTest := notified EndTest.
Definition startSuite := notified StartSuite.
Definition endSuite := notified EndSuite.

(** One block of [verify()] for an event that carries a [Test *]. *)
Definition verify_calls (event : TestEvent) (missing : string) : Method unit :=
  m <- get ;;
  when (m_hasExpectation (expectation event m))
    (CPPUNIT_ASSERT_EQUAL_MESSAGE (m_name m ++ missing)
       (m_expectedCallCount (expectation event m))
       (m_call (expectation event m))).

(** [verify()]. *)
Definition verify : Method unit :=
  verify_calls StartTest ": missing startTest calls" ;;
  verify_calls EndTest ": missing endTest calls" ;;
  verify_calls StartSuite ": missing startSuite calls" ;;
  verify_calls EndSuite ": missing endSuite calls" ;;
  m <- get ;;
  when (m_hasExpectationForAddFailure (forAddFailure m))
    (CPPUNIT_ASSERT_EQUAL_MESSAGE (m_name m ++ ": missing addFailure calls")
       (m_expectedAddFailureCallCount (forAddFailure m))
       (m_addFailureCall (forAddFailure m))) ;;
  when (m_hasExpectationForSomeFailure (forAddFailure m))
    (CPPUNIT_ASSERT_MESSAGE
       (m_name m ++ ": there was no call to MockTestListener::addFailure()")
       (0 <? m_addFailureCall (forAddFailure m))%Z).

(** *** Runs *)

(** What a run sends a listener, one notification after the other. *)
Inductive Notification : Type :=
| on_startSuite (test : pointer)
| on_startTest (test : pointer)
| on_addFailure (failure : TestFailure)
| on_endTest (test : pointer)
| on_endSuite (test : pointer).

Definition notify (n : Notification) : Method unit :=
  match n with
  | on_startSuite test => startSuite test
  | on_startTest test => startTest test
  | on_addFailure failure => addFailure failure
  | on_endTest test => endTest test
  | on_endSuite test => endSuite test
  end.

(** The notifications of a run in order; the first that throws ends it. *)
Fixpoint play (run : list Notification) : Method unit :=
  match run with
  | [] => ret tt
  | n :: rest => notify n ;; play rest
  end.

(** How many times a run calls [addFailure]. *)
Fixpoint addFailure_calls (run : list Notification) : nat :=
  match run with
  | [] => 0
  | on_addFailure _ :: rest => S (addFailure_calls rest)
  | _ :: rest => addFailure_calls rest
  end.

(** A failure carries what [setExpectFailure( test, exception, isError )]
    announced. *)
Definition as_expected (test exception : pointer) (isErr : bool)
  (failure : TestFailure) : Prop :=
  failedTest failure = test
  /\ thrownException failure = exception
  /\ isError failure = isErr.

(** The message of the first of the three parameter assertions of
    [addFailure] that a failure violates. *)
Definition bad_parameter (test exception : pointer) (isErr : bool)
  (failure : TestFailure) : string :=
  if negb (test =? failedTest failure)%N then ": bad test"
  else if negb (exception =? thrownException failure)%N
       then ": bad thrownException"
       else ": bad isError".

(** [m'] expects of [addFailure] what [m] does: the same name and the same
    members for [addFailure], the counter [m_addFailureCall] apart. *)
Definition same_expectations (m m' : MockTestListener) : Prop :=
  m_name m' = m_name m
  /\ exists count, forAddFailure m' = forAddFailure (with_addFailureCall count m).

(** No expectation was set for any of the four notifications that carry a
    [Test *]. *)
Definition expects_no_test_event (m : MockTestListener) : Prop :=
  forall event,
    m_hasExpectation (expectation event m) = false
    /\ m_hasParametersExpectation (expectation event m) = false.

(** *** Samples to evaluate on *)

Definition assertion_failure : TestFailure :=
  {| failedTest := 7%N; thrownException := 9%N; isError := false |}.

Definition unexpected_fault : TestFailure :=
  {| failedTest := 7%N; thrownException := 9%N; isError := true |}.

Definition sample_run (failures : list TestFailure) : list Notification :=
  on_startSuite 3%N :: on_startTest 7%N
    :: map on_addFailure failures ++ [on_endTest 7%N; on_endSuite 3%N].

(** *** Further vocabulary *)

(** The four notifications that carry a [Test *], as [Notification]s. *)
Definition on_event (event : TestEvent) (test : pointer) : Notification :=
  match event with
  | StartTest => on_startTest test
  | EndTest => on_endTest test
  | StartSuite => on_startSuite test
  | EndSuite => on_endSuite test
  end.

Definition TestEvent_eqb (a b : TestEvent) : bool :=
  match a, b with
  | StartTest, StartTest | EndTest, EndTest
  | StartSuite, StartSuite | EndSuite, EndSuite => true
  | _, _ => false
  end.

(** Whether a notification is the call of the member function of [event]. *)
Definition is_event (event : TestEvent) (n : Notification) : bool :=
  match n with
  | on_startSuite _ => TestEvent_eqb event StartSuite
  | on_startTest _ => TestEvent_eqb event StartTest
  | on_endTest _ => TestEvent_eqb event EndTest
  | on_endSuite _ => TestEvent_eqb event EndSuite
  | on_addFailure _ => false
  end.

(** How many times a run calls the member function of [event]. *)
Definition event_calls (event : TestEvent) (run : list Notification) : nat :=
  List.length (filter (is_event event) run).

(** The message with which [verify()] reports a count it finds unmet. *)
Definition missing_calls (event : TestEvent) : string :=
  match event with
  | StartTest => ": missing startTest calls"
  | EndTest => ": missing endTest calls"
  | StartSuite => ": missing startSuite calls"
  | EndSuite => ": missing endSuite calls"
  end.

(** [m_startTestCall = count] and its three siblings. *)
Definition with_call (event : TestEvent) (count : Z) (m : MockTestListener)
  : MockTestListener :=
  let e := expectation event m in
  with_expectation event
    {| m_hasExpectation := m_hasExpectation e;
       m_hasParametersExpectation := m_hasParametersExpectation e;
       m_expectedCallCount := m_expectedCallCount e;
       m_call := count;
       m_expected := m_expected e |} m.

(** The listener with its five counters of observed calls back at 0: what
    the setters made of it. *)
Definition without_calls (m : MockTestListener) : MockTestListener :=
  with_call StartTest 0
    (with_call EndTest 0
       (with_call StartSuite 0
          (with_call EndSuite 0 (with_addFailureCall 0 m)))).

(** The listener expects nothing of [addFailure]. *)
Definition expects_no_failure_call (m : MockTestListener) : Prop :=
  m_hasExpectationForAddFailure (forAddFailure m) = false
  /\ m_hasExpectationForSomeFailure (forAddFailure m) = false
  /\ m_hasParametersExpectationForAddFailure (forAddFailure m) = false.

(** A run with a few calls of each kind. *)
Definition mixed_run : list Notification :=
  [on_startSuite 3%N; on_startTest 7%N; on_addFailure assertion_failure;
   on_endTest 7%N; on_startTest 8%N; on_endTest 8%N; on_endSuite 3%N].

End Mock.

(* ===================================================================== *)
(** ** DllPlugInTester.cpp                                               *)
(* ===================================================================== *)

Module Tester.

Local Open Scope string_scope.
Local Open Scope eff_scope.

(** *** What the file receives from its collaborators *)

(** [CommandLinePlugInInfo], as [runTests] reads it. *)
Record CommandLinePlugInInfo : Type := {
  m_fileName : string;
  m_parameters : string
}.

(** What a [CommandLineParser] answers once [parse()] has returned
    ([CommandLineParser.h] is not among the sources); [plugIns] is what
    [getPlugInCount()] and [getPlugInAt( index )] enumerate. *)
Record CommandLineParser : Type := {
  useCompilerOutputter : bool;
  useXmlOutputter : bool;
  getXmlFileName : string;
  getXmlStyleSheet : string;
  getEncoding : string;
  useBriefTestProgress : bool;
  noTestProgress : bool;
  useTextOutputter : bool;
  useCoutStream : bool;
  waitBeforeExit : bool;
  getTestPath : string;
  plugIns : list CommandLinePlugInInfo
}.

(** Modelled from the spec: the exceptions this file catches.
    [DynamicLibraryManagerException] is declared in
    [cppunit/plugin/DynamicLibraryManagerException.h], which is not among the
    sources; it is the "plug-in load" condition "carrying the file name and
    underlying cause".  [std::invalid_argument] is what [runner.run] throws
    for a test path it cannot resolve, [CommandLineParserException] what
    [parser.parse()] throws. *)
Inductive Exception : Type :=
| DynamicLibraryManagerException (fileName cause : string)
| invalid_argument
| CommandLineParserException (what : string).

(** *** Objects, and what happens to them *)

(** The objects [runTests] declares; [xmlStream] is the [std::ofstream] it
    allocates with [new] when an XML file name was given, [plugIn] the copy
    made in each turn of the loading loop. *)
Inductive Object : Type :=
| plugInManager
| controller
| result
| xmlStream
| xmlOutputter
| textOutputter
| compilerOutputter
| briefListener
| dotListener
| plugIn
| runner.

(** [std::cout], [std::cerr], or the file opened for the XML output. *)
Inductive Stream : Type := cout | cerr | ofstream (fileName : string).

(** What is inserted into a stream with [<<]. *)
Inductive Printed : Type :=
| text (s : string)
| what_of (e : Exception)
| endl.

(** What the program does, as an observer would log it. *)
Inductive Event : Type :=
| Construct (o : Object)
| Destroy (o : Object)
| controller_addListener (listener : Object)
| xmlOutputter_setStyleSheet (styleSheet : string)
| plugInManager_load (fileName parameters : string)
| plugInManager_addListener
| plugInManager_removeListener
| plugInManager_addXmlOutputterHooks
| plugInManager_removeXmlOutputterHooks
| runner_addTest
| runner_run (testPath : string)
| write (outputter : Object) (to : Stream)
| print (to : Stream) (items : list Printed)
| printUsage (applicationName : string)
| printShortUsage (applicationName : string)
| cin_get.

(** The automatic objects of the innermost open block, latest first, and
    the log so far, latest last. *)
Record Frame : Type := {
  automatic : list Object;
  events : list Event
}.

Definition Code (A : Type) : Type := M Frame Exception A.

Definition emit (e : Event) : Code unit :=
  modify (fun f => {| automatic := automatic f; events := events f ++ [e] |}).

(** The declaration of an automatic object: it is constructed, and the
    block it stands in will destroy it. *)
Definition declare (o : Object) : Code unit :=
  modify (fun f => {| automatic := o :: automatic f;
                      events := events f ++ [Construct o] |}).

(** [{ body }]: however control leaves the block, by its end, by a [return]
    or by an exception, the objects it declared are destroyed in the reverse
    order of their construction. *)
Definition block {A} (body : Code A) : Code A :=
  fun f =>
    let (r, f') := body {| automatic := []; events := events f |} in
    (r, {| automatic := automatic f;
           events := events f' ++ map Destroy (automatic f') |}).

(** [new] and [delete] of the object [o]. *)
Definition new_ (o : Object) : Code unit := emit (Construct o).
Definition delete (o : Object) : Code unit := emit (Destroy o).

Definition empty (s : string) : bool :=
  match s with
  | EmptyString => true
  | String _ _ => false
  end.

Definition start : Frame := {| automatic := []; events := [] |}.

(** The log of a computation run from scratch. *)
Definition trace_of {A} (c : Code A) : list Event := events (state_after c start).

Section Environment.

(** What the functions defined elsewhere do when they are called.
    [load_failure fileName parameters] is the cause with which
    [PlugInManager::load] fails for this file, [None] when it succeeds.
    [test_run loaded testPath] is [None] when [runner.run] throws
    [std::invalid_argument] for this path, and otherwise what
    [result.wasSuccessful()] answers after the run.  [parse] is [inl] of the
    message when [parser.parse()] throws. *)
Variable load_failure : string -> string -> option string.
Variable test_run : list CommandLinePlugInInfo -> string -> option bool.
Variable parse : string -> list string -> string + CommandLineParser.

(** Modelled from the spec: [PlugInManager::load( fileName, parameters )]
    ([PlugInManager.cpp] is not among the sources), which "fails with a
    library not found / symbol not found / incompatible interface
    condition". *)
Definition load (fileName parameters : string) : Code unit :=
  emit (plugInManager_load fileName parameters) ;;
  match load_failure fileName parameters with
  | Some cause => throw (DynamicLibraryManagerException fileName cause)
  | None => ret tt
  end.

(** [runner.run( controller, parser.getTestPath() )] followed by
    [result.wasSuccessful()]. *)
Definition run (parser : CommandLineParser) : Code bool :=
  emit (runner_run (getTestPath parser)) ;;
  match test_run (plugIns parser) (getTestPath parser) with
  | Some wasSuccessful => ret wasSuccessful
  | None => throw invalid_argument
  end.

(** *** [runTests] *)

(** From the opening of the inner block to "Set up test listeners"; it
    leaves [stream] and [xmlStream] to what follows. *)
Definition set_up (parser : CommandLineParser) : Code (Stream * Stream) :=
  declare controller ;;
  declare result ;;
  emit (controller_addListener result) ;;
  let stream := if useCoutStream parser then cout else cerr in
  when (negb (empty (getXmlFileName parser))) (new_ xmlStream) ;;
  let xmlStream :=
    if negb (empty (getXmlFileName parser))
    then ofstream (getXmlFileName parser) else stream in
  declare xmlOutputter ;;
  emit (xmlOutputter_setStyleSheet (getXmlStyleSheet parser)) ;;
  declare textOutputter ;;
  declare compilerOutputter ;;
  declare briefListener ;;
  declare dotListener ;;
  (if useBriefTestProgress parser
   then emit (controller_addListener briefListener)
   else when (negb (noTestProgress parser))
          (emit (controller_addListener dotListener))) ;;
  ret (stream, xmlStream).

(** "Set up plug-ins": the [for] loop over [parser.getPlugInAt( index )],
    [index] from 0 to [parser.getPlugInCount()]. *)
Fixpoint load_plugIns (remaining : list CommandLinePlugInInfo) : Code unit :=
  match remaining with
  | [] => ret tt
  | info :: rest =>
      block (declare plugIn ;; load (m_fileName info) (m_parameters info)) ;;
      load_plugIns rest
  end.

(** From "Registers plug-in specific TestListener" to the end of the inner
    block; [wasSuccessful] is the variable of the outer block, still
    [false]. *)
Definition run_and_report (parser : CommandLineParser)
  (stream xmlStream : Stream) (wasSuccessful : bool) : Code bool :=
  emit plugInManager_addListener ;;
  declare runner ;;
  emit runner_addTest ;;
  wasSuccessful <-
    try_catch (run parser)
      (fun e =>
         match e with
         | invalid_argument =>
             Some (emit (print cerr [text "Failed to resolve test path: ";
                                     text (getTestPath parser); endl]) ;;
                   ret wasSuccessful)
         | _ => None
         end) ;;
  emit plugInManager_removeListener ;;
  when (useCompilerOutputter parser) (emit (write compilerOutputter stream)) ;;
  when (useTextOutputter parser) (emit (write textOutputter stream)) ;;
  when (useXmlOutputter parser)
    (emit plugInManager_addXmlOutputterHooks ;;
     emit (write xmlOutputter xmlStream) ;;
     emit plugInManager_removeXmlOutputterHooks) ;;
  when (negb (empty (getXmlFileName parser))) (delete Tester.xmlStream) ;;
  ret wasSuccessful.

(** The inner block of [runTests]. *)
Definition inner_block (parser : CommandLineParser) (wasSuccessful : bool)
  : Code bool :=
  block (streams <- set_up parser ;;
         load_plugIns (plugIns parser) ;;
         run_and_report parser (fst streams) (snd streams) wasSuccessful).

(** [bool runTests( const CommandLineParser &parser )]. *)
Definition runTests (parser : CommandLineParser) : Code bool :=
  block (let wasSuccessful := false in
         declare plugInManager ;;
         wasSuccessful <- inner_block parser wasSuccessful ;;
         ret wasSuccessful).

(** *** [main] *)

Definition successReturnCode : Z := 0.
Definition failureReturnCode : Z := 1.
Definition badCommadLineReturnCode : Z := 2.

(** [int main( int argc, char *argv[] )], with [argv[0]] as
    [applicationName] and the rest of [argv] as [arguments]. *)
Definition main (applicationName : string) (arguments : list string)
  : Code Z :=
  let argc := S (length arguments) in
  if (argc <? 2)%nat then
    emit (printUsage applicationName) ;;
    ret badCommadLineReturnCode
  else
    match parse applicationName arguments with
    | inl what =>
        emit (print cerr [text "Error while parsing command line: ";
                          text what; endl; endl]) ;;
        emit (printShortUsage applicationName) ;;
        ret badCommadLineReturnCode
    | inr parser =>
        let wasSuccessful := false in
        wasSuccessful <-
          try_catch (runTests parser)
            (fun e =>
               match e with
               | DynamicLibraryManagerException _ _ =>
                   Some (emit (print cerr [text "Failed to load test plug-in:";
                                           endl; what_of e; endl]) ;;
                         ret wasSuccessful)
               | _ => None
               end) ;;
        when (waitBeforeExit parser)
          (emit (print cout [text "Please press <RETURN> to exit"; endl]) ;;
           emit cin_get) ;;
        ret (if wasSuccessful then successReturnCode else failureReturnCode)
    end.

(** *** Vocabulary of the statements *)

(** Every plug-in of the list loads. *)
Definition all_load (l : list CommandLinePlugInInfo) : Prop :=
  forall info, In info l -> load_failure (m_fileName info) (m_parameters info) = None.

(** What [result.wasSuccessful()] answered if the run took place, [false]
    as the variable was initialised if the path did not resolve. *)
Definition passed (parser : CommandLineParser) : bool :=
  match test_run (plugIns parser) (getTestPath parser) with
  | Some wasSuccessful => wasSuccessful
  | None => false
  end.

End Environment.

Definition Object_eqb (a b : Object) : bool :=
  match a, b with
  | plugInManager, plugInManager | controller, controller | result, result
  | xmlStream, xmlStream | xmlOutputter, xmlOutputter
  | textOutputter, textOutputter | compilerOutputter, compilerOutputter
  | briefListener, briefListener | dotListener, dotListener
  | plugIn, plugIn | runner, runner => true
  | _, _ => false
  end.

(** How many events of a log satisfy [p]. *)
Definition count (p : Event -> bool) (log : list Event) : nat :=
  List.length (filter p log).

Definition is_Construct (o : Object) (e : Event) : bool :=
  match e with Construct o' => Object_eqb o o' | _ => false end.

Definition is_Destroy (o : Object) (e : Event) : bool :=
  match e with Destroy o' => Object_eqb o o' | _ => false end.

Definition constructed (o : Object) := count (is_Construct o).
Definition destroyed (o : Object) := count (is_Destroy o).

(** The listeners and hooks of the plug-ins: registered, unregistered. *)
Definition is_registration (e : Event) : bool :=
  match e with
  | plugInManager_addListener | plugInManager_addXmlOutputterHooks => true
  | _ => false
  end.

Definition is_unregistration (e : Event) : bool :=
  match e with
  | plugInManager_removeListener | plugInManager_removeXmlOutputterHooks => true
  | _ => false
  end.

(** The plug-in files the log shows being loaded, in order. *)
Fixpoint loads (log : list Event) : list CommandLinePlugInInfo :=
  match log with
  | [] => []
  | plugInManager_load fileName parameters :: rest =>
      {| m_fileName := fileName; m_parameters := parameters |} :: loads rest
  | _ :: rest => loads rest
  end.

(** The test paths the log shows being run. *)
Fixpoint runs (log : list Event) : list string :=
  match log with
  | [] => []
  | runner_run testPath :: rest => testPath :: runs rest
  | _ :: rest => runs rest
  end.

(** What the loading loop logs for the plug-ins it gets to. *)
Definition loading (l : list CommandLinePlugInInfo) : list Event :=
  flat_map (fun info =>
              [Construct plugIn;
               plugInManager_load (m_fileName info) (m_parameters info);
               Destroy plugIn]) l.

(** How many times [o] stands in a list of declared objects. *)
Definition held (o : Object) (declared : list Object) : nat :=
  List.length (filter (Object_eqb o) declared).

(** A stretch of the inner block that declared [declared] and logged [log]:
    every automatic object it constructed is destroyed or still declared,
    it destroyed nothing but copies of plug-in records (and the stream it
    allocated), and it left no listener or hook of a plug-in registered. *)
Definition scoped (declared : list Object) (log : list Event) : Prop :=
  (forall o, o <> xmlStream ->
             constructed o log = destroyed o log + held o declared)
  /\ (forall o, o <> plugIn -> o <> xmlStream -> destroyed o log = 0)
  /\ count is_registration log = count is_unregistration log.

(** The objects of the inner block that exist whatever the command line:
    the [TestResult], the collector, the three outputters and the two
    progress listeners. *)
Definition result_objects : list Object :=
  [controller; result; xmlOutputter; textOutputter; compilerOutputter;
   briefListener; dotListener].

(** What happens between the construction of the [PlugInManager] and its
    destruction leaves nothing behind: the manager itself is neither
    constructed nor destroyed there, each object of [result_objects] is
    constructed once and destroyed once, every automatic object constructed
    is destroyed, and what the plug-ins registered is unregistered. *)
Definition tidy (inner : list Event) : Prop :=
  constructed plugInManager inner = 0
  /\ destroyed plugInManager inner = 0
  /\ (forall o, In o result_objects ->
                constructed o inner = 1 /\ destroyed o inner = 1)
  /\ (forall o, o <> xmlStream -> constructed o inner = destroyed o inner)
  /\ count is_registration inner = count is_unregistration inner.

(** A computation that, from any frame, ends with outcome [r], has declared
    the objects [declared] (latest first) in the open block and has logged
    [log]. *)
Definition steps {A} (c : Code A) (r : Outcome Exception A)
  (declared : list Object) (log : list Event) : Prop :=
  forall f, c f = (r, {| automatic := declared ++ automatic f;
                         events := events f ++ log |}).

(** *** A command line to evaluate on *)

Definition sample_parser : CommandLineParser :=
  {| useCompilerOutputter := true;
     useXmlOutputter := true;
     getXmlFileName := "tests.xml";
     getXmlStyleSheet := "";
     getEncoding := "";
     useBriefTestProgress := true;
     noTestProgress := false;
     useTextOutputter := false;
     useCoutStream := false;
     waitBeforeExit := false;
     getTestPath := "";
     plugIns := [ {| m_fileName := "simple_plugin.so"; m_parameters := "" |};
                  {| m_fileName := "missing.so"; m_parameters := "flat" |};
                  {| m_fileName := "clocker.so"; m_parameters := "" |} ] |}.

(** Every file loads but ["missing.so"]. *)
Definition sample_load_failure (fileName parameters : string) : option string :=
  if (fileName =? "missing.so")%string then Some "cannot open shared object file"
  else None.

Definition sample_test_run (loaded : list CommandLinePlugInInfo)
  (testPath : string) : option bool :=
  if empty testPath then Some true else None.

Definition sample_parse (applicationName : string) (arguments : list string)
  : string + CommandLineParser :=
  match arguments with
  | ["-c"; "-b"; "-x"; "tests.xml"; "simple_plugin.so"; "missing.so=flat";
     "clocker.so"] => inr sample_parser
  | _ => inl "unknown option"
  end.

Definition sample_arguments : list string :=
  ["-c"; "-b"; "-x"; "tests.xml"; "simple_plugin.so"; "missing.so=flat";
   "clocker.so"].

(** *** Further vocabulary *)

(** The listeners the log shows being added to the controller, in order. *)
Definition listeners (log : list Event) : list Object :=
  flat_map (fun e => match e with
                     | controller_addListener listener => [listener]
                     | _ => []
                     end) log.

(** The reports the log shows being written, in order, with the stream each
    went to. *)
Definition writes (log : list Event) : list (Object * Stream) :=
  flat_map (fun e => match e with
                     | write outputter to => [(outputter, to)]
                     | _ => []
                     end) log.

(** What the log shows being printed by this file itself. *)
Definition prints (log : list Event) : list (Stream * list Printed) :=
  flat_map (fun e => match e with
                     | print to items => [(to, items)]
                     | _ => []
                     end) log.

(** What the log shows of the dealings with the plug-ins: their loading,
    the registration and removal of their listeners and hooks, and between
    them the run and the writing of the XML report. *)
Definition plugIn_dealings (log : list Event) : list Event :=
  filter (fun e => match e with
                   | plugInManager_load _ _
                   | plugInManager_addListener
                   | plugInManager_removeListener
                   | plugInManager_addXmlOutputterHooks
                   | plugInManager_removeXmlOutputterHooks
                   | runner_run _
                   | write xmlOutputter _ => true
                   | _ => false
                   end) log.

Definition is_cin_get (e : Event) : bool :=
  match e with cin_get => true | _ => false end.

Section Decisions.
Variable load_failure : string -> string -> option string.
Variable test_run : list CommandLinePlugInInfo -> string -> option bool.

(** [all_load], decided. *)
Definition all_loadb (l : list CommandLinePlugInInfo) : bool :=
  forallb (fun info =>
             match load_failure (m_fileName info) (m_parameters info) with
             | None => true
             | Some _ => false
             end) l.

(** The two streams [set_up] leaves to what follows: [stream] and
    [xmlStream]. *)
Definition streams_of (parser : CommandLineParser) : Stream * Stream :=
  match outcome (set_up parser) start with
  | Returned streams => streams
  | Thrown _ => (cerr, cerr)
  end.

End Decisions.

(** A command line whose plug-ins all load under [sample_load_failure]. *)
Definition loading_parser : CommandLineParser :=
  {| useCompilerOutputter := false;
     useXmlOutputter := true;
     getXmlFileName := "";
     getXmlStyleSheet := "report.xsl";
     getEncoding := "";
     useBriefTestProgress := true;
     noTestProgress := true;
     useTextOutputter := true;
     useCoutStream := true;
     waitBeforeExit := true;
     getTestPath := "/All Tests/Missing";
     plugIns := [ {| m_fileName := "simple_plugin.so"; m_parameters := "" |};
                  {| m_fileName := "clocker.so"; m_parameters := "flat" |} ] |}.

Section Attempts.
Variable load_failure : string -> string -> option string.

(** The plug-ins of a list up to and with the first that does not load: all
    of them when they all load. *)
Fixpoint attempted (l : list CommandLinePlugInInfo)
  : list CommandLinePlugInInfo :=
  match l with
  | [] => []
  | info :: rest =>
      info :: match load_failure (m_fileName info) (m_parameters info) with
              | None => attempted rest
              | Some _ => []
              end
  end.

End Attempts.

Definition load_of (info : CommandLinePlugInInfo) : Event :=
  plugInManager_load (m_fileName info) (m_parameters info).

(** The prompt of [main] before it exits, and the reading that follows. *)
Definition waiting : list Event :=
  [print cout [text "Please press <RETURN> to exit"; endl]; cin_get].

(** *** Lifetimes *)

(** What comes to life and ends while [runTests] runs: the objects it
    constructs, and what the plug-ins put on two of them.  Modelled from the
    spec: [plugInManager.addListener( &controller )] has "every loaded
    plug-in ... register ... whatever TestListener(s) it wants on the given
    TestResult" and [removeListener( &controller )] has it unregister them;
    [addXmlOutputterHooks( &xmlOutputter )] "lets plug-ins contribute extra
    elements to a structured report" and [removeXmlOutputterHooks()] takes
    their hooks back ([PlugInManager.cpp] is not among the sources).  These
    listeners and hooks are code and data of the plug-ins' libraries, which
    the manager unloads when it is destroyed. *)
Inductive Resource : Type :=
| object (o : Object)
| plugIn_listeners
| plugIn_hooks.

Definition Resource_eqb (a b : Resource) : bool :=
  match a, b with
  | object o, object o' => Object_eqb o o'
  | plugIn_listeners, plugIn_listeners | plugIn_hooks, plugIn_hooks => true
  | _, _ => false
  end.

(** What has to be there for as long as [r] is.  The listeners of the
    plug-ins sit on the [TestResult] they were registered on, their hooks on
    the outputter, and both are gone with the libraries.  The objects of
    the inner block hold what the plug-ins allocated (the [TestResult] their
    listeners, the collector the failures of their tests, the outputters
    their hooks, the runner their tests), so that the manager has to
    outlive them; the stream allocated with [new] is the executable's
    own. *)
Definition needs (r : Resource) : list Resource :=
  match r with
  | plugIn_listeners => [object plugInManager; object controller]
  | plugIn_hooks => [object plugInManager; object xmlOutputter]
  | object plugInManager | object xmlStream => []
  | object _ => [object plugInManager]
  end.

(** What an event does to the lifetimes: it begins one, it ends one, or it
    works on what has to be there. *)
Inductive Effect : Type :=
| begins (r : Resource)
| ends (r : Resource)
| works_on (l : list Resource).

Definition effect (e : Event) : Effect :=
  match e with
  | Construct o => begins (object o)
  | Destroy o => ends (object o)
  | plugInManager_addListener => begins plugIn_listeners
  | plugInManager_removeListener => ends plugIn_listeners
  | plugInManager_addXmlOutputterHooks => begins plugIn_hooks
  | plugInManager_removeXmlOutputterHooks => ends plugIn_hooks
  | controller_addListener listener => works_on [object controller; object listener]
  | xmlOutputter_setStyleSheet _ => works_on [object xmlOutputter]
  | plugInManager_load _ _ => works_on [object plugInManager]
  | runner_addTest => works_on [object runner]
  | runner_run _ => works_on [object runner; object controller; plugIn_listeners]
  | write xmlOutputter _ => works_on [object xmlOutputter; plugIn_hooks]
  | write outputter _ => works_on [object outputter]
  | print _ _ | printUsage _ | printShortUsage _ | cin_get => works_on []
  end.

Definition lives (r : Resource) (live : list Resource) : bool :=
  existsb (Resource_eqb r) live.

Definition all_live (l live : list Resource) : bool :=
  forallb (fun r => lives r live) l.

(** One event, with [live] what lives when it happens.  Nothing begins
    twice, or without what it needs; nothing ends that does not live, or
    that something live still needs; nothing is worked on that does not
    live. *)
Definition lifetime_step (live : list Resource) (e : Event)
  : option (list Resource) :=
  match effect e with
  | begins r =>
      if negb (lives r live) && all_live (needs r) live
      then Some (live ++ [r])%list else None
  | ends r =>
      if lives r live && negb (existsb (fun l => lives r (needs l)) live)
      then Some (filter (fun l => negb (Resource_eqb r l)) live) else None
  | works_on l =>
      if all_live l live then Some live else None
  end.

(** What lives after a log, from what lived before it, in the order in
    which it began; [None] as soon as an event comes out of turn. *)
Fixpoint lifetimes (live : list Resource) (log : list Event)
  : option (list Resource) :=
  match log with
  | [] => Some live
  | e :: rest =>
      match lifetime_step live e with
      | Some live' => lifetimes live' rest
      | None => None
      end
  end.

(** What lives in the inner block of [runTests] once it is set up, with or
    without the stream of the XML file. *)
Definition set_up_lives (withStream : bool) : list Resource :=
  ([object plugInManager; object controller; object result]
   ++ (if withStream then [object xmlStream] else [])
   ++ [object xmlOutputter; object textOutputter; object compilerOutputter;
       object briefListener; object dotListener])%list.

Section Leaks.
Variable load_failure : string -> string -> option string.

(** What [runTests] leaves live: the stream of the XML file when a plug-in
    did not load, and nothing otherwise. *)
Definition leaked (parser : CommandLineParser) : list Resource :=
  if negb (empty (getXmlFileName parser))
     && negb (all_loadb load_failure (plugIns parser))
  then [object xmlStream] else [].

End Leaks.

End Tester.

(* ===================================================================== *)
(** * Part II: theorems                                                  *)
(* ===================================================================== *)

(** ** The C++ [int] *)

Module IntFacts.

Lemma wrap_in_range (z : Z) : Int.in_range z -> Int.wrap z = z.
Proof.
  unfold Int.in_range, Int.wrap, Int.min_signed, Int.max_signed, Int.modulus.
  intros H. rewrite Z.mod_small; lia.
Qed.

Lemma wrap_range (z : Z) : Int.in_range (Int.wrap z).
Proof.
  unfold Int.in_range, Int.wrap, Int.min_signed, Int.max_signed, Int.modulus.
  pose proof (Z.mod_pos_bound (z - -2147483648) 4294967296 eq_refl); lia.
Qed.

Lemma wrap_add_l (a b : Z) : Int.wrap (Int.wrap a + b) = Int.wrap (a + b).
Proof.
  unfold Int.wrap.
  replace ((a - Int.min_signed) mod Int.modulus + Int.min_signed + b
           - Int.min_signed)%Z
    with ((a - Int.min_signed) mod Int.modulus + b)%Z by lia.
  rewrite Zplus_mod_idemp_l.
  do 2 f_equal. lia.
Qed.

Lemma incr_small (a : Z) :
  (0 <= a < Int.max_signed)%Z -> Int.incr a = (a + 1)%Z.
Proof.
  intros H. unfold Int.incr, Int.add. apply wrap_in_range.
  unfold Int.in_range, Int.min_signed, Int.max_signed in *. lia.
Qed.

End IntFacts.

(** ** TestSuite.cpp *)

Module SuiteFacts.
Import Suite.

Section Composite.
Variable TestResult : Type.
Variable shouldStop : TestResult -> bool.

Local Abbreviation Test := (Suite.Test TestResult).
Local Abbreviation run := (Suite.run shouldStop).
Local Abbreviation run_loop := (Suite.run_loop shouldStop run).
Local Abbreviation TestSuite_run := (Suite.TestSuite_run shouldStop).
Local Abbreviation result_after := (Suite.result_after shouldStop).
Local Abbreviation run_each := (Suite.run_each shouldStop).

(** *** The loop of [run] *)

Lemma run_loop_stop (test : Test) rest index result :
  shouldStop result = true ->
  run_loop (test :: rest) index result = (result, [call_shouldStop true]).
Proof. intros H. simpl. now rewrite H. Qed.

Lemma run_loop_go (test : Test) rest index result :
  shouldStop result = false ->
  run_loop (test :: rest) index result
  = (fst (run_loop rest (S index) (run test result)),
     call_shouldStop false :: call_run index
       :: snd (run_loop rest (S index) (run test result))).
Proof.
  intros H. cbn [Suite.run_loop]. rewrite H.
  now destruct (run_loop rest (S index) (run test result)).
Qed.

Lemma started_calls_run from n j :
  In (call_run j) (started_calls from n) -> from <= j < from + n.
Proof.
  revert from. induction n as [|n IH]; intros from; simpl.
  - tauto.
  - intros [H | [H | H]]; try discriminate.
    + injection H as ->. lia.
    + apply IH in H. lia.
Qed.

Lemma leaving_calls_run n size j : ~ In (call_run j) (leaving_calls n size).
Proof.
  unfold leaving_calls. destruct (n <? size); simpl; intuition discriminate.
Qed.

(** The loop starts some number [n] of children: it logs a consultation
    answered [false] and the child's [run] for positions [0 .. n-1] in this
    order, leaves with the result those [n] children produced, found the flag
    down before each of them, and found it up if it left before the end. *)
Lemma run_loop_shape (it : list Test) : forall index result,
  exists n,
    n <= length it
    /\ run_loop it index result
       = (fst (run_loop (firstn n it) index result),
          started_calls index n ++ leaving_calls n (length it))
    /\ (n < length it ->
        shouldStop (fst (run_loop (firstn n it) index result)) = true)
    /\ (forall j, j < n ->
        shouldStop (fst (run_loop (firstn j it) index result)) = false).
Proof.
  induction it as [|test rest IH]; intros index result.
  - exists 0. simpl. repeat split; auto; lia.
  - destruct (shouldStop result) eqn:Hstop.
    + exists 0. rewrite (run_loop_stop _ _ _ Hstop). simpl.
      repeat split; auto; lia.
    + destruct (IH (S index) (run test result)) as (n & Hn & Hrun & Hup & Hdown).
      exists (S n).
      assert (Hfirst : forall j, fst (run_loop (firstn (S j) (test :: rest)) index result)
                       = fst (run_loop (firstn j rest) (S index) (run test result))).
      { intros j. rewrite firstn_cons, (run_loop_go _ _ _ Hstop). reflexivity. }
      repeat split.
      * simpl. lia.
      * rewrite (run_loop_go _ _ _ Hstop), Hrun, Hfirst. simpl.
        unfold leaving_calls. simpl length.
        replace (S n <? S (length rest)) with (n <? length rest) by reflexivity.
        reflexivity.
      * intros Hlt. rewrite Hfirst. apply Hup. simpl in Hlt. lia.
      * intros [|j] Hj.
        -- simpl. exact Hstop.
        -- rewrite Hfirst. apply Hdown. lia.
Qed.

(** Once the flag is up when a prefix of the children is through, whatever
    follows the prefix changes nothing. *)
Lemma run_loop_stopped (pre post : list Test) : forall index result,
  shouldStop (fst (run_loop pre index result)) = true ->
  fst (run_loop (pre ++ post) index result) = fst (run_loop pre index result).
Proof.
  induction pre as [|test pre IH]; intros index result H.
  - simpl in *. destruct post as [|p post]; [reflexivity|].
    now rewrite (run_loop_stop _ _ _ H).
  - destruct (shouldStop result) eqn:Hstop.
    + simpl app. now rewrite !(run_loop_stop _ _ _ Hstop).
    + simpl app. rewrite !(run_loop_go _ _ _ Hstop) in *. simpl in *.
      now apply IH.
Qed.

(** C1.  [TestSuite::run] consults [result->shouldStop()] before it starts
    each child, in insertion order: the calls it makes are, for some [n], a
    consultation answered [false] followed by the [run] of child [i], for
    [i = 0 .. n-1], and then one consultation answered [true] if it broke out
    of the loop.  If the flag is up once child [k] has had its turn, then
    [n <= k+1]: no child at a position after [k] is ever run, and the suite
    leaves the result as it was at that moment. *)
Theorem run_stops_when_shouldStop (m_tests : list Test) result k :
  k < length m_tests ->
  shouldStop (result_after (S k) m_tests result) = true ->
  exists n,
    n <= S k
    /\ snd (TestSuite_run m_tests result)
       = started_calls 0 n ++ leaving_calls n (length m_tests)
    /\ (forall j, k < j -> ~ In (call_run j) (snd (TestSuite_run m_tests result)))
    /\ fst (TestSuite_run m_tests result) = result_after (S k) m_tests result.
Proof.
  intros Hk Hup. unfold Suite.result_after, Suite.TestSuite_run in *.
  destruct (run_loop_shape m_tests 0 result) as (n & Hn & Hrun & Hstop & Hdown).
  assert (Hle : n <= S k).
  { destruct (le_lt_dec n (S k)) as [|Hgt]; [assumption|].
    specialize (Hdown (S k) Hgt). congruence. }
  exists n. rewrite Hrun. cbn [fst snd]. repeat split.
  - exact Hle.
  - intros j Hj Hin. apply in_app_or in Hin as [Hin | Hin].
    + apply started_calls_run in Hin. lia.
    + exact (leaving_calls_run _ _ _ Hin).
  - destruct (Nat.eq_dec n (S k)) as [-> | Hne]; [reflexivity|].
    assert (Hlt : n < length m_tests) by lia.
    specialize (Hstop Hlt).
    rewrite <- (firstn_skipn n (firstn (S k) m_tests)).
    rewrite firstn_firstn, Nat.min_l by lia.
    symmetry. now apply run_loop_stopped.
Qed.

(** *** The loop of [countTestCases] *)

Local Abbreviation countTestCases := (@Suite.countTestCases TestResult).
Local Abbreviation count_loop := (Suite.count_loop countTestCases).
Local Abbreviation sum_of_children := (@Suite.sum_of_children TestResult).

Lemma count_loop_total (it : list Test) : forall index count,
  Int.in_range count ->
  fst (count_loop it index count) = Int.wrap (count + sum_of_children it).
Proof.
  induction it as [|test rest IH]; intros index count Hcount.
  - simpl. rewrite Z.add_0_r. symmetry. now apply IntFacts.wrap_in_range.
  - cbn [Suite.count_loop].
    specialize (IH (S index) (Int.add count (countTestCases test))
                  (IntFacts.wrap_range _)).
    destruct (count_loop rest (S index) (Int.add count (countTestCases test)))
      as [total calls].
    cbn [fst] in *. rewrite IH. unfold Int.add.
    rewrite IntFacts.wrap_add_l. f_equal.
    unfold Suite.sum_of_children. simpl. lia.
Qed.

Lemma count_loop_calls (it : list Test) : forall index count,
  snd (count_loop it index count) = counting_calls index (length it).
Proof.
  induction it as [|test rest IH]; intros index count.
  - reflexivity.
  - cbn [Suite.count_loop].
    specialize (IH (S index) (Int.add count (countTestCases test))).
    destruct (count_loop rest (S index) (Int.add count (countTestCases test))).
    cbn [snd] in *. rewrite IH. reflexivity.
Qed.

(** Whatever the children answer, the suite answers their sum reduced to an
    [int]. *)
Lemma countTestCases_wrap m_name (m_tests : list Test) :
  countTestCases (TestSuite m_name m_tests)
  = Int.wrap (sum_of_children m_tests).
Proof.
  cbn [Suite.countTestCases]. rewrite count_loop_total.
  - reflexivity.
  - unfold Int.in_range, Int.min_signed, Int.max_signed. lia.
Qed.

(** C2.  A suite counts the sum of what its children count (0 when it has
    none), as long as that sum is an [int].  Counting runs nothing: the
    function receives no [TestResult], returns the count alone, and the only
    calls it makes are one [countTestCases()] on each child, in order. *)
Theorem countTestCases_is_sum m_name (m_tests : list Test) :
  Int.in_range (sum_of_children m_tests) ->
  countTestCases (TestSuite m_name m_tests) = sum_of_children m_tests
  /\ Suite.TestSuite_countTestCases m_tests
     = (sum_of_children m_tests, counting_calls 0 (length m_tests))
  /\ (forall i, ~ In (call_run i) (snd (Suite.TestSuite_countTestCases m_tests))).
Proof.
  intros Hsum.
  assert (Hval : countTestCases (TestSuite m_name m_tests)
                 = sum_of_children m_tests).
  { rewrite countTestCases_wrap. now apply IntFacts.wrap_in_range. }
  assert (Hcalls : snd (Suite.TestSuite_countTestCases m_tests)
                   = counting_calls 0 (length m_tests))
    by apply count_loop_calls.
  repeat split.
  - exact Hval.
  - rewrite (surjective_pairing (Suite.TestSuite_countTestCases m_tests)).
    f_equal; [exact Hval | exact Hcalls].
  - intros i Hin. rewrite Hcalls in Hin. unfold counting_calls in Hin.
    apply in_map_iff in Hin as (j & Hj & _). discriminate.
Qed.

(** *** What [run] says to the result *)

Lemma started_calls_stop_or_run from n :
  forallb is_stop_or_run (started_calls from n) = true.
Proof. revert from. induction n as [|n IH]; intros from; simpl; auto. Qed.

(** Suites add nothing of their own to a run: a tree in which there are
    only suites leaves the result as it found it. *)
Lemma run_only_suites : forall (t : Test) result,
  only_suites t = true -> run t result = result.
Proof.
  fix IH 1. intros [n body | m_name m_tests] result Honly.
  - discriminate Honly.
  - cbn [Suite.run Suite.only_suites] in *.
    generalize 0 as index. revert result.
    induction m_tests as [|test rest IHrest]; intros result index.
    + reflexivity.
    + cbn [forallb] in Honly. apply andb_prop in Honly as [Htest Hrest].
      destruct (shouldStop result) eqn:Hstop.
      * now rewrite run_loop_stop.
      * rewrite run_loop_go by exact Hstop. cbn [fst].
        rewrite (IH test result Htest). now apply IHrest.
Qed.

(** The loop of [run], told without the loop: it starts the children in
    the order of [m_tests] for as long as the flag is down, so that the
    [n] children it starts are the first [n], each run on what its
    predecessors left, and [n] is the first position at which the flag is
    found up, or the number of children. *)
Lemma run_loop_runs_each (it : list Test) : forall index result,
  exists n,
    n <= length it
    /\ run_loop it index result
       = (run_each (firstn n it) result,
          started_calls index n ++ leaving_calls n (length it))
    /\ (forall j, j < n ->
        shouldStop (run_each (firstn j it) result) = false)
    /\ (n < length it ->
        shouldStop (run_each (firstn n it) result) = true).
Proof.
  induction it as [|test rest IH]; intros index result.
  - exists 0. repeat split; auto; simpl; lia.
  - destruct (shouldStop result) eqn:Hstop.
    + exists 0. rewrite (run_loop_stop _ _ _ Hstop).
      repeat split; auto; simpl; lia.
    + destruct (IH (S index) (run test result)) as (n & Hn & Hrun & Hdown & Hup).
      exists (S n).
      assert (Hfirst : forall j, run_each (firstn (S j) (test :: rest)) result
                       = run_each (firstn j rest) (run test result))
        by reflexivity.
      repeat split.
      * simpl. lia.
      * rewrite (run_loop_go _ _ _ Hstop), Hrun, Hfirst. simpl.
        unfold leaving_calls. simpl length.
        replace (S n <? S (length rest)) with (n <? length rest) by reflexivity.
        reflexivity.
      * intros [|j] Hj.
        -- exact Hstop.
        -- rewrite Hfirst. apply Hdown. lia.
      * intros Hlt. rewrite Hfirst. apply Hup. simpl in Hlt. lia.
Qed.

(** C8, as the code has it.  [TestSuite::run] sends the result no
    [startSuite] and no [endSuite], for any suite and any result, hence at
    every level of a tree: the [run] of a child that is a suite is this
    same function.  What it does is this and nothing else: it asks
    [result->shouldStop()] before each child, in the order of [m_tests],
    and on the answer [false] calls [run( result )] on that child; on the
    first answer [true] it leaves the loop.  So the calls are, for some
    [n], the consultation answered [false] and the [run] of child [i] for
    [i = 0 .. n-1] in this order, then one consultation answered [true] if
    children are left; the [n] children are run one after the other, each
    on the result its predecessors left; the flag was down before each of
    them and is up after them if children are left.  A suite without
    children makes no call at all and leaves the result untouched; a tree
    made of suites alone leaves the result as it found it. *)
Theorem run_sends_no_suite_event (m_tests : list Test) result :
  (exists n,
     n <= length m_tests
     /\ TestSuite_run m_tests result
        = (run_each (firstn n m_tests) result,
           started_calls 0 n ++ leaving_calls n (length m_tests))
     /\ (forall j, j < n ->
         shouldStop (run_each (firstn j m_tests) result) = false)
     /\ (n < length m_tests ->
         shouldStop (run_each (firstn n m_tests) result) = true))
  /\ forallb is_stop_or_run (snd (TestSuite_run m_tests result)) = true
  /\ ~ In call_startSuite (snd (TestSuite_run m_tests result))
  /\ ~ In call_endSuite (snd (TestSuite_run m_tests result))
  /\ (forall m_name result',
        run (TestSuite m_name m_tests) result'
        = fst (TestSuite_run m_tests result'))
  /\ TestSuite_run [] result = (result, [])
  /\ (forallb (@only_suites TestResult) m_tests = true ->
      fst (TestSuite_run m_tests result) = result).
Proof.
  assert (Hsuites : forallb (@only_suites TestResult) m_tests = true ->
                    fst (TestSuite_run m_tests result) = result).
  { intros Honly.
    exact (run_only_suites (TestSuite EmptyString m_tests) result Honly). }
  assert (Hshape := run_loop_runs_each m_tests 0 result).
  assert (Hall : forallb is_stop_or_run (snd (TestSuite_run m_tests result)) = true).
  { unfold Suite.TestSuite_run.
    destruct Hshape as (n & _ & Hrun & _).
    rewrite Hrun. cbn [snd]. rewrite forallb_app, started_calls_stop_or_run.
    unfold leaving_calls. now destruct (n <? length m_tests). }
  split; [exact Hshape|].
  split; [exact Hall|].
  split; [|split; [|split; [|split]]].
  - intros Hin. rewrite forallb_forall in Hall. now apply Hall in Hin.
  - intros Hin. rewrite forallb_forall in Hall. now apply Hall in Hin.
  - reflexivity.
  - reflexivity.
  - exact Hsuites.
Qed.

End Composite.

(** The theorem at work on [sample_tests], whose second child raises the
    flag: the last two children are never run. *)
Lemma run_stops_when_shouldStop_witness :
  exists n,
    n <= 2
    /\ snd (Suite.TestSuite_run flag sample_tests false)
       = started_calls 0 n ++ leaving_calls n 4
    /\ (forall j, 1 < j ->
        ~ In (call_run j) (snd (Suite.TestSuite_run flag sample_tests false)))
    /\ fst (Suite.TestSuite_run flag sample_tests false)
       = Suite.result_after flag 2 sample_tests false.
Proof.
  apply (@run_stops_when_shouldStop bool flag sample_tests false 1).
  - simpl. lia.
  - reflexivity.
Defined.

(** The theorem at work on a suite of four children, one of them a suite of
    two. *)
Lemma countTestCases_is_sum_witness :
  Suite.countTestCases (TestSuite "outer" sample_tests) = 5%Z
  /\ Suite.TestSuite_countTestCases sample_tests
     = (5%Z, counting_calls 0 4)
  /\ (forall i,
      ~ In (call_run i) (snd (Suite.TestSuite_countTestCases sample_tests))).
Proof.
  apply (@countTestCases_is_sum bool "outer" sample_tests).
  vm_compute. split; discriminate.
Defined.

(** The theorem at work on two suites in which there is no test to run:
    both are started, with four calls made, and the result is as it was. *)
Lemma run_sends_no_suite_event_witness :
  (exists n,
     n <= 2
     /\ Suite.TestSuite_run flag sample_suites false
        = (Suite.run_each flag (firstn n sample_suites) false,
           started_calls 0 n ++ leaving_calls n 2)
     /\ (forall j, j < n ->
         flag (Suite.run_each flag (firstn j sample_suites) false) = false)
     /\ (n < 2 ->
         flag (Suite.run_each flag (firstn n sample_suites) false) = true))
  /\ snd (Suite.TestSuite_run flag sample_suites false)
     = [call_shouldStop false; call_run 0; call_shouldStop false; call_run 1]
  /\ forallb is_stop_or_run (snd (Suite.TestSuite_run flag sample_suites false))
     = true
  /\ fst (Suite.TestSuite_run flag sample_suites false) = false.
Proof.
  destruct (@run_sends_no_suite_event bool flag sample_suites false)
    as (Hshape & Hcalls & _ & _ & _ & _ & Hresult).
  split; [exact Hshape|].
  split; [reflexivity | split; [exact Hcalls | apply Hresult; reflexivity]].
Defined.

(** C8, as the claim has it, fails: running [sample_tests] against a result
    whose flag is down makes five calls, the first of which is a consultation
    of [shouldStop()], not [startSuite]. *)
Lemma run_does_not_bracket_with_suite_events :
  ~ brackets_with_suite_events (snd (Suite.TestSuite_run flag sample_tests false)).
Proof.
  intros [middle H]. vm_compute in H. discriminate H.
Qed.

(** *** How the operations of a suite compose *)

Section Sequences.
Variable TestResult : Type.
Variable shouldStop : TestResult -> bool.

Local Abbreviation Test := (Suite.Test TestResult).
Local Abbreviation run := (Suite.run shouldStop).
Local Abbreviation run_loop := (Suite.run_loop shouldStop run).
Local Abbreviation TestSuite_run := (Suite.TestSuite_run shouldStop).
Local Abbreviation run_each := (Suite.run_each shouldStop).
Local Abbreviation countTestCases := (@Suite.countTestCases TestResult).
Local Abbreviation sum_of_children := (@Suite.sum_of_children TestResult).

Lemma run_loop_entered_stopped (it : list Test) index result :
  shouldStop result = true ->
  run_loop it index result = (result, leaving_calls 0 (length it)).
Proof.
  intros Hstop. destruct it as [|test rest]; [reflexivity|].
  now rewrite (run_loop_stop shouldStop _ _ _ _ Hstop).
Qed.

(** The position a loop starts from shows in the calls, not in the
    result. *)
Lemma run_loop_result_index (it : list Test) : forall index index' result,
  fst (run_loop it index result) = fst (run_loop it index' result).
Proof.
  induction it as [|test rest IH]; intros index index' result; [reflexivity|].
  destruct (shouldStop result) eqn:Hstop.
  - now rewrite !(run_loop_stop shouldStop _ _ _ _ Hstop).
  - rewrite !(run_loop_go shouldStop _ _ _ _ Hstop). cbn [fst]. apply IH.
Qed.

(** Running a list of children is running a first part of it, then the
    rest on what the first part left. *)
Lemma run_loop_app (pre post : list Test) : forall index index' result,
  fst (run_loop (pre ++ post) index result)
  = fst (run_loop post index' (fst (run_loop pre index result))).
Proof.
  induction pre as [|test pre IH]; intros index index' result.
  - apply run_loop_result_index.
  - cbn [app]. destruct (shouldStop result) eqn:Hstop.
    + rewrite !(run_loop_stop shouldStop _ _ _ _ Hstop). cbn [fst].
      now rewrite run_loop_entered_stopped.
    + rewrite !(run_loop_go shouldStop _ _ _ _ Hstop). cbn [fst]. apply IH.
Qed.

(** X9.  A suite run against a result that already asks to stop runs no
    child and leaves the result as it is; the only call it makes is the one
    consultation of [shouldStop()] that makes it break, before its first
    child. *)
Theorem stopped_result_runs_nothing m_name (m_tests : list Test) result :
  shouldStop result = true ->
  run (TestSuite m_name m_tests) result = result
  /\ snd (TestSuite_run m_tests result)
     = match m_tests with
       | [] => []
       | _ :: _ => [call_shouldStop true]
       end
  /\ (forall i, ~ In (call_run i) (snd (TestSuite_run m_tests result))).
Proof.
  intros Hstop. cbn [Suite.run]. unfold Suite.TestSuite_run.
  rewrite (run_loop_entered_stopped _ _ Hstop). cbn [fst snd].
  repeat split.
  - now destruct m_tests.
  - intros i. apply leaving_calls_run.
Qed.

(** X10.  When the result asks to stop after none of the children but
    possibly the last, the suite runs them all, each once, in the order in
    which they were added: it leaves the result that running them one after
    the other leaves, and its calls are a consultation of [shouldStop()] and
    a [run] for each position in turn, with nothing after. *)
Theorem unstopped_suite_runs_every_child (m_tests : list Test) result :
  (forall k, k < length m_tests ->
             shouldStop (run_each (firstn k m_tests) result) = false) ->
  TestSuite_run m_tests result
  = (run_each m_tests result, started_calls 0 (length m_tests)).
Proof.
  unfold Suite.TestSuite_run. generalize 0 as index. revert result.
  induction m_tests as [|test rest IH]; intros result index Hgo.
  - reflexivity.
  - assert (Hstop : shouldStop result = false)
      by (apply (Hgo 0); cbn; lia).
    rewrite (run_loop_go shouldStop _ _ _ _ Hstop).
    rewrite (IH (run test result) (S index)).
    + reflexivity.
    + intros k Hk. apply (Hgo (S k)). cbn. lia.
Qed.

(** X11.  [addTest] puts the test at the end of the run: the suite with
    the added test leaves the result that the suite without it leaves, if
    that result asks to stop, and otherwise what the added test makes of
    that result. *)
Theorem addTest_runs_last test (m_tests : list Test) result :
  fst (TestSuite_run (addTest test m_tests) result)
  = let before := fst (TestSuite_run m_tests result) in
    if shouldStop before then before else run test before.
Proof.
  unfold Suite.TestSuite_run, addTest. cbn zeta.
  rewrite (run_loop_app m_tests [test] 0 (length m_tests) result).
  destruct (shouldStop (fst (run_loop m_tests 0 result))) eqn:Hstop.
  - now rewrite (run_loop_stop shouldStop _ _ _ _ Hstop).
  - now rewrite (run_loop_go shouldStop _ _ _ _ Hstop).
Qed.

Lemma sum_of_children_app (a b : list Test) :
  sum_of_children (a ++ b) = (sum_of_children a + sum_of_children b)%Z.
Proof.
  unfold Suite.sum_of_children.
  induction a as [|t a IH]; cbn; [reflexivity|]. rewrite IH. lia.
Qed.

(** X12.  [addTest] raises what the suite counts by what the added test
    counts, in [int] arithmetic, and leaves the tests that were there in
    their places, the new one after them. *)
Theorem addTest_adds_to_count m_name test (m_tests : list Test) :
  countTestCases (TestSuite m_name (addTest test m_tests))
  = Int.add (countTestCases (TestSuite m_name m_tests)) (countTestCases test)
  /\ firstn (length m_tests) (addTest test m_tests) = m_tests
  /\ nth_error (addTest test m_tests) (length m_tests) = Some test.
Proof.
  repeat split.
  - rewrite !countTestCases_wrap. unfold addTest, Int.add.
    rewrite sum_of_children_app, IntFacts.wrap_add_l.
    unfold Suite.sum_of_children at 2. cbn. now rewrite Z.add_0_r.
  - unfold addTest. rewrite firstn_app, Nat.sub_diag, firstn_all. cbn.
    now rewrite app_nil_r.
  - unfold addTest. rewrite nth_error_app2, Nat.sub_diag by lia. reflexivity.
Qed.

Lemma wrap_add_r (a b : Z) : Int.wrap (a + Int.wrap b) = Int.wrap (a + b).
Proof. rewrite (Z.add_comm a), IntFacts.wrap_add_l. f_equal. lia. Qed.

(** X13.  A suite inside a suite changes nothing for the result nor for the
    count: the outer suite leaves the same result and counts the same number
    of test cases as if the children of the inner suite stood in its
    place. *)
Theorem nested_suite_is_transparent m_name inner_name (pre inner post : list Test)
  result :
  run (TestSuite m_name (pre ++ TestSuite inner_name inner :: post)) result
  = run (TestSuite m_name (pre ++ inner ++ post)) result
  /\ countTestCases (TestSuite m_name (pre ++ TestSuite inner_name inner :: post))
     = countTestCases (TestSuite m_name (pre ++ inner ++ post)).
Proof.
  split.
  - cbn [Suite.run].
    rewrite (run_loop_app pre _ 0 0 result), (run_loop_app pre _ 0 0 result).
    set (middle := fst (run_loop pre 0 result)).
    destruct (shouldStop middle) eqn:Hstop.
    + rewrite (run_loop_stop shouldStop _ _ _ _ Hstop).
      now rewrite (run_loop_entered_stopped _ _ Hstop).
    + rewrite (run_loop_go shouldStop _ _ _ _ Hstop). cbn [fst Suite.run].
      now rewrite (run_loop_app inner post 0 1 middle).
  - rewrite !countTestCases_wrap, !sum_of_children_app.
    unfold Suite.sum_of_children at 2. cbn [map fold_right].
    fold (sum_of_children post). rewrite countTestCases_wrap.
    replace (sum_of_children pre
             + (Int.wrap (sum_of_children inner) + sum_of_children post))%Z
      with ((sum_of_children pre + sum_of_children post)
            + Int.wrap (sum_of_children inner))%Z by lia.
    rewrite wrap_add_r. f_equal. lia.
Qed.

End Sequences.

(** The theorems at work on a result that stops at a limit. *)
Lemma stopped_result_runs_nothing_witness :
  Suite.run (limit_reached 0) (TestSuite "outer" ticking_tests) 0 = 0
  /\ snd (Suite.TestSuite_run (limit_reached 0) ticking_tests 0)
     = [call_shouldStop true]
  /\ (forall i,
      ~ In (call_run i) (snd (Suite.TestSuite_run (limit_reached 0) ticking_tests 0))).
Proof.
  apply (@stopped_result_runs_nothing nat (limit_reached 0) "outer"
           ticking_tests 0).
  reflexivity.
Defined.

Lemma unstopped_suite_runs_every_child_witness :
  Suite.TestSuite_run (limit_reached 4) ticking_tests 0
  = (4, started_calls 0 3).
Proof.
  apply (@unstopped_suite_runs_every_child nat (limit_reached 4) ticking_tests 0).
  intros [|[|[|k]]] Hk; try reflexivity. cbn in Hk. lia.
Defined.

(** *** Deleting *)

Section Deletion.
Variable TestResult : Type.

Local Abbreviation Test := (Suite.Test TestResult).
Local Abbreviation delete_ := (@Suite.delete_ TestResult).
Local Abbreviation delete_loop := (Suite.delete_loop delete_).
Local Abbreviation object_at := (@Suite.object_at TestResult).
Local Abbreviation reaches := (@Suite.reaches TestResult).
Local Abbreviation deleteContents := (@Suite.deleteContents TestResult).

(** Induction on a tree of tests, with the hypothesis for every child of a
    suite. *)
Lemma Test_nested_ind (P : Test -> Prop) :
  (forall n body, P (OtherTest n body)) ->
  (forall m_name m_tests, Forall P m_tests -> P (TestSuite m_name m_tests)) ->
  forall t, P t.
Proof.
  intros Hother Hsuite. fix IH 1. intros [n body | m_name m_tests].
  - apply Hother.
  - apply Hsuite. induction m_tests as [|test rest IHrest]; constructor.
    + apply IH.
    + exact IHrest.
Qed.

Lemma object_at_cons (m_tests : list Test) index deeper :
  object_at m_tests (index :: deeper) <> None
  <-> exists test, nth_error m_tests index = Some test /\ reaches test deeper.
Proof.
  cbn [Suite.object_at]. unfold Suite.reaches.
  destruct (nth_error m_tests index) as [test|].
  - destruct deeper as [|d deeper].
    + split.
      * intros _. exists test. split; [reflexivity | now left].
      * intros _. destruct test; discriminate.
    + destruct test as [n body | m_name inner]; split.
      * intros H. now elim H.
      * intros (t & Ht & [Hd | Hd]); [discriminate Hd|].
        injection Ht as <-. contradiction.
      * intros H. exists (TestSuite m_name inner). split; [reflexivity|].
        now right.
      * intros (t & Ht & [Hd | Hd]); [discriminate Hd|].
        injection Ht as <-. exact Hd.
  - split; [intros H; now elim H|]. intros (t & Ht & _). discriminate Ht.
Qed.

(** What a deletion reaches, given what the deletion of each child
    reaches. *)
Lemma delete_loop_reaches (it : list Test) :
  Forall (fun test => forall path q,
            In q (delete_ path test)
            <-> exists deeper, q = path ++ deeper /\ reaches test deeper) it ->
  forall path index q,
    In q (delete_loop path it index)
    <-> exists j deeper test,
          q = path ++ (index + j) :: deeper
          /\ nth_error it j = Some test /\ reaches test deeper.
Proof.
  induction 1 as [|test rest Htest _ IH]; intros path index q.
  - cbn. split; [tauto|]. intros ([|j] & deeper & t & _ & Ht & _); discriminate Ht.
  - cbn [Suite.delete_loop]. rewrite in_app_iff, Htest, IH. split.
    + intros [(deeper & -> & Hreach) | (j & deeper & t & -> & Ht & Hreach)].
      * exists 0, deeper, test. rewrite Nat.add_0_r, <- app_assoc. now repeat split.
      * exists (S j), deeper, t. rewrite Nat.add_succ_r. now repeat split.
    + intros ([|j] & deeper & t & -> & Ht & Hreach).
      * left. cbn in Ht. injection Ht as <-. exists deeper.
        rewrite Nat.add_0_r, <- app_assoc. now split.
      * right. exists j, deeper, t. rewrite Nat.add_succ_r. now repeat split.
Qed.

(** Deleting the object at [path] deletes it and what is in it, nothing
    else. *)
Lemma delete_reaches (test : Test) : forall path q,
  In q (delete_ path test)
  <-> exists deeper, q = path ++ deeper /\ reaches test deeper.
Proof.
  induction test as [n body | m_name m_tests IH] using Test_nested_ind;
    intros path q.
  - cbn. split.
    + intros [<- | []]. exists []. rewrite app_nil_r. split; [reflexivity | now left].
    + intros (deeper & -> & [-> | []]). left. now rewrite app_nil_r.
  - cbn [Suite.delete_]. rewrite in_app_iff, (delete_loop_reaches IH). split.
    + intros [(j & deeper & t & -> & Ht & Hreach) | [<- | []]].
      * exists (j :: deeper). split; [reflexivity|]. right.
        apply object_at_cons. now exists t.
      * exists []. rewrite app_nil_r. split; [reflexivity | now left].
    + intros (deeper & -> & [-> | Hin]).
      * right. left. now rewrite app_nil_r.
      * left. destruct deeper as [|j deeper]; [now elim Hin|].
        apply object_at_cons in Hin as (t & Ht & Hreach).
        now exists j, deeper, t.
Qed.

Lemma delete_loop_In (it : list Test) path index q :
  In q (delete_loop path it index)
  <-> exists j deeper test,
        q = path ++ (index + j) :: deeper
        /\ nth_error it j = Some test /\ reaches test deeper.
Proof.
  apply delete_loop_reaches. apply Forall_forall. intros test _.
  apply delete_reaches.
Qed.

Lemma delete_loop_NoDup (it : list Test) :
  Forall (fun test => forall path, NoDup (delete_ path test)) it ->
  forall path index, NoDup (delete_loop path it index).
Proof.
  induction 1 as [|test rest Htest _ IH]; intros path index.
  - constructor.
  - cbn [Suite.delete_loop]. apply NoDup_app; [apply Htest | apply IH|].
    intros q Hq Hq'. apply delete_reaches in Hq as (deeper & -> & _).
    apply delete_loop_In in Hq' as (j & deeper' & _ & Heq & _).
    rewrite <- app_assoc in Heq. apply app_inv_head in Heq.
    cbn in Heq. injection Heq as Heq _. lia.
Qed.

(** No object is deleted twice. *)
Lemma delete_NoDup (test : Test) : forall path, NoDup (delete_ path test).
Proof.
  induction test as [n body | m_name m_tests IH] using Test_nested_ind;
    intros path.
  - cbn. constructor; [tauto | constructor].
  - cbn [Suite.delete_]. apply NoDup_app.
    + now apply delete_loop_NoDup.
    + constructor; [tauto | constructor].
    + intros q Hq [Hq' | []]. subst q.
      apply delete_loop_In in Hq as (j & deeper & _ & Heq & _).
      rewrite <- (app_nil_r path) in Heq at 1. apply app_inv_head in Heq.
      discriminate Heq.
Qed.

(** The deletion of a child is one stretch of what the loop deletes. *)
Lemma delete_loop_nth (it : list Test) : forall path index j test,
  nth_error it j = Some test ->
  exists before after,
    delete_loop path it index
    = before ++ delete_ (path ++ [index + j]) test ++ after.
Proof.
  induction it as [|first rest IH]; intros path index [|j] test Hnth;
    try discriminate Hnth.
  - injection Hnth as <-. exists [], (delete_loop path rest (S index)).
    now rewrite Nat.add_0_r.
  - destruct (IH path (S index) j test Hnth) as (before & after & Heq).
    exists (delete_ (path ++ [index]) first ++ before), after.
    cbn [Suite.delete_loop]. rewrite Heq, Nat.add_succ_r.
    now rewrite <- app_assoc.
Qed.

(** So is the deletion of any object below. *)
Lemma delete_loop_object : forall deeper (it : list Test) path j test,
  object_at it (j :: deeper) = Some test ->
  exists before after,
    delete_loop path it 0
    = before ++ delete_ (path ++ j :: deeper) test ++ after.
Proof.
  induction deeper as [|d deeper IH]; intros it path j test Hat;
    cbn [Suite.object_at] in Hat;
    destruct (nth_error it j) as [child|] eqn:Hnth; try discriminate Hat.
  - assert (child = test) as -> by (destruct child; now injection Hat).
    exact (delete_loop_nth it path 0 j Hnth).
  - destruct child as [n body | m_name inner]; [discriminate Hat|].
    destruct (delete_loop_nth it path 0 j Hnth) as (before & after & Heq).
    destruct (IH inner (path ++ [j]) d test Hat) as (before' & after' & Heq').
    exists (before ++ before'), (after' ++ [path ++ [j]] ++ after).
    rewrite Heq. cbn [Suite.delete_ Nat.add]. rewrite Heq'.
    rewrite <- !app_assoc. cbn [app]. reflexivity.
Qed.

(** Deleting an object deletes what is in it first, the object itself
    last. *)
Lemma delete_ends (test : Test) path :
  exists below,
    delete_ path test = below ++ [path]
    /\ forall q, In q below
                 <-> exists deeper,
                       deeper <> [] /\ q = path ++ deeper /\ reaches test deeper.
Proof.
  destruct test as [n body | m_name m_tests].
  - exists []. split; [reflexivity|]. split; [intros []|].
    intros (deeper & Hne & _ & [-> | []]). now elim Hne.
  - exists (delete_loop path m_tests 0). split; [reflexivity|].
    intros q. rewrite delete_loop_In. split.
    + intros (j & deeper & t & -> & Ht & Hreach).
      exists (j :: deeper). split; [discriminate|]. split; [reflexivity|].
      right. apply object_at_cons. now exists t.
    + intros ([|j deeper] & Hne & -> & [Hnil | Hin]);
        try (now elim Hne); try discriminate Hnil.
      apply object_at_cons in Hin as (t & Ht & Hreach).
      now exists j, deeper, t.
Qed.

(** X21.  [deleteContents] leaves the suite without children and deletes
    every object below it exactly once: what it deletes are the objects a
    path leads to, none twice; and the objects in a suite are deleted in one
    stretch that ends with the suite itself, each suite after everything in
    it. *)
Theorem deleteContents_deletes_each_object_once (m_tests : list Test) :
  fst (deleteContents m_tests) = []
  /\ NoDup (snd (deleteContents m_tests))
  /\ (forall path,
        In path (snd (deleteContents m_tests))
        <-> object_at m_tests path <> None)
  /\ (forall path test,
        object_at m_tests path = Some test ->
        exists before below after,
          snd (deleteContents m_tests) = before ++ below ++ path :: after
          /\ forall q, In q below
                       <-> exists deeper,
                             deeper <> [] /\ q = path ++ deeper
                             /\ reaches test deeper).
Proof.
  unfold Suite.deleteContents. cbn [fst snd]. repeat split.
  - apply delete_loop_NoDup, Forall_forall. intros test _. apply delete_NoDup.
  - intros Hin. apply delete_loop_In in Hin as (j & deeper & t & -> & Ht & Hreach).
    apply object_at_cons. now exists t.
  - intros Hat. destruct path as [|j deeper]; [now elim Hat|].
    apply object_at_cons in Hat as (t & Ht & Hreach).
    apply delete_loop_In. now exists j, deeper, t.
  - intros path test Hat. destruct path as [|j deeper]; [discriminate Hat|].
    destruct (delete_loop_object deeper m_tests [] j Hat)
      as (before & after & Heq).
    destruct (delete_ends test (j :: deeper)) as (below & Hends & Hbelow).
    exists before, below, after. split; [|exact Hbelow].
    rewrite Heq. cbn [app]. rewrite Hends, <- app_assoc. reflexivity.
Qed.

End Deletion.

(** The theorem at work on [sample_tests]: the two tests of the inner suite
    are deleted right before it. *)
Lemma deleteContents_deletes_each_object_once_witness :
  snd (Suite.deleteContents sample_tests)
  = [[0]; [1]; [2]; [3; 0]; [3; 1]; [3]]
  /\ exists before below after,
       snd (Suite.deleteContents sample_tests) = before ++ below ++ [3] :: after
       /\ forall q, In q below
                    <-> exists deeper,
                          deeper <> [] /\ q = [3] ++ deeper
                          /\ Suite.reaches (TestSuite "inner" [passing; passing])
                               deeper.
Proof.
  split; [reflexivity|].
  destruct (@deleteContents_deletes_each_object_once bool sample_tests)
    as (_ & _ & _ & Hstretch).
  apply (Hstretch [3] (TestSuite "inner" [passing; passing])). reflexivity.
Defined.

End SuiteFacts.

(** ** TestSuiteBuilder.h *)

Module BuilderFacts.
Import Suite Builder.

Local Open Scope string_scope.
Local Open Scope list_scope.

Section TestSuiteBuilder.
Variable TestResult : Type.
Variable TestMethod : Type.
Variable makeTestCaller : string -> TestMethod -> Test TestResult.

Local Abbreviation TestSuiteBuilder := (Builder.TestSuiteBuilder TestResult).
Local Abbreviation addTestCaller := (Builder.addTestCaller makeTestCaller).
Local Abbreviation addTestCallers := (Builder.addTestCallers makeTestCaller).

(** The test objects that adding [callers] to a suite called [name]
    makes. *)
Local Abbreviation made name callers :=
  (map (fun caller : string * TestMethod =>
          makeTestCaller (name ++ "." ++ fst caller) (snd caller)) callers).

Lemma addTestCallers_owned callers : forall m_name m_tests,
  addTestCallers callers {| m_suite := Some (m_name, m_tests) |}
  = Some {| m_suite := Some (m_name, m_tests ++ made m_name callers) |}.
Proof.
  induction callers as [|[name testMethod] rest IH]; intros m_name m_tests.
  - cbn. now rewrite app_nil_r.
  - cbn [Builder.addTestCallers]. unfold Builder.addTestCaller, Builder.addTest.
    cbn [m_suite]. rewrite IH. unfold Suite.addTest, getName.
    now rewrite <- app_assoc.
Qed.

(** X22.  A builder made for a name, to which test callers are added, owns
    a suite of that name that holds one test for each caller, in the order of
    the additions, each made with the name of the suite, a dot and the name
    given.  [takeSuite()] hands that suite over and leaves the builder with
    nothing: [suite()] is then null, a second [takeSuite()] gives null, the
    destructor deletes nothing, and there is no suite to add a test to.  A
    builder whose suite was not taken deletes it when it is destroyed, with
    every test that was added. *)
Theorem built_suite_holds_the_callers_in_order name callers :
  exists built : TestSuiteBuilder,
    addTestCallers callers (of_name TestResult name) = Some built
    /\ suite built = Some (name, made name callers)
    /\ takeSuite built
       = (Some (name, made name callers), {| m_suite := None |})
    /\ (let released := snd (takeSuite built) in
        suite released = None
        /\ fst (takeSuite released) = None
        /\ destroy released = []
        /\ (forall test, addTest test released = None)
        /\ (forall n testMethod, addTestCaller n testMethod released = None))
    /\ In [] (destroy built)
    /\ (forall i, i < length callers -> In [i] (destroy built)).
Proof.
  exists {| m_suite := Some (name, made name callers) |}.
  unfold of_name. rewrite addTestCallers_owned. cbn [app].
  repeat split.
  - unfold destroy. cbn [m_suite]. apply SuiteFacts.delete_reaches.
    exists []. split; [reflexivity | now left].
  - intros i Hi. unfold destroy. cbn [m_suite].
    apply SuiteFacts.delete_reaches. exists [i]. split; [reflexivity|].
    right. apply SuiteFacts.object_at_cons.
    destruct (nth_error (made name callers) i) as [test|] eqn:Hnth.
    + exists test. split; [reflexivity | now left].
    + apply nth_error_None in Hnth. rewrite length_map in Hnth. lia.
Qed.

(** X23.  When the tests that [makeTestCaller] makes count for one test
    case each, the suite a builder builds from [callers] counts as many test
    cases as callers were added, as long as an [int] holds that number. *)
Theorem built_suite_counts_its_callers name callers built :
  (forall n testMethod, countTestCases (makeTestCaller n testMethod) = 1%Z) ->
  (Z.of_nat (length callers) <= Int.max_signed)%Z ->
  addTestCallers callers (of_name TestResult name) = Some built ->
  exists m_tests,
    suite built = Some (name, m_tests)
    /\ length m_tests = length callers
    /\ countTestCases (TestSuite name m_tests) = Z.of_nat (length callers).
Proof.
  intros Hone Hmax Hbuilt. unfold of_name in Hbuilt.
  rewrite addTestCallers_owned in Hbuilt. injection Hbuilt as <-.
  exists (made name callers). cbn [app]. repeat split.
  - now rewrite length_map.
  - assert (Hsum : sum_of_children (made name callers)
                   = Z.of_nat (length callers)).
    { unfold sum_of_children. clear Hmax.
      induction callers as [|[n testMethod] rest IH]; [reflexivity|].
      cbn [map fold_right length]. rewrite Hone, IH. lia. }
    rewrite SuiteFacts.countTestCases_wrap, Hsum.
    apply IntFacts.wrap_in_range.
    unfold Int.in_range, Int.min_signed, Int.max_signed in *. lia.
Qed.

End TestSuiteBuilder.

Lemma built_suite_holds_the_callers_in_order_witness :
  exists built,
    Builder.addTestCallers sample_makeTestCaller sample_callers (of_name nat "Fixture")
    = Some built
    /\ suite built
       = Some ("Fixture",
               [sample_makeTestCaller "Fixture.testAdd" 0;
                sample_makeTestCaller "Fixture.testRemove" 1;
                sample_makeTestCaller "Fixture.testClear" 2])
    /\ destroy (snd (takeSuite built)) = []
    /\ In [2] (destroy built).
Proof.
  destruct (@built_suite_holds_the_callers_in_order nat nat sample_makeTestCaller
              "Fixture" sample_callers)
    as (built & Hbuilt & Hsuite & _ & (_ & _ & Hreleased & _) & _ & Hdeleted).
  exists built. repeat split; try assumption.
  apply Hdeleted. cbn. lia.
Defined.

Lemma built_suite_counts_its_callers_witness :
  exists m_tests,
    suite {| m_suite :=
               Some ("Fixture",
                     [sample_makeTestCaller "Fixture.testAdd" 0;
                      sample_makeTestCaller "Fixture.testRemove" 1;
                      sample_makeTestCaller "Fixture.testClear" 2]) |}
    = Some ("Fixture", m_tests)
    /\ length m_tests = 3
    /\ countTestCases (TestSuite "Fixture" m_tests) = 3%Z.
Proof.
  apply (@built_suite_counts_its_callers nat nat sample_makeTestCaller
           "Fixture" sample_callers).
  - reflexivity.
  - vm_compute. discriminate.
  - reflexivity.
Defined.

End BuilderFacts.

(** ** MockTestListener.cpp *)

Module MockFacts.
Import Mock.

Local Open Scope string_scope.
Local Open Scope eff_scope.

(** *** Sequencing *)

Lemma bind_returned {S E A B} (c : M S E A) (k : A -> M S E B) s a s' :
  c s = (Returned a, s') -> bind c k s = k a s'.
Proof. intros H. unfold bind. now rewrite H. Qed.

Lemma bind_thrown {S E A B} (c : M S E A) (k : A -> M S E B) s e s' :
  c s = (Thrown e, s') -> bind c k s = (Thrown e, s').
Proof. intros H. unfold bind. now rewrite H. Qed.

Lemma play_app (pre post : list Notification) m :
  play (pre ++ post) m = (play pre ;; play post) m.
Proof.
  revert m. induction pre as [|n pre IH]; intros m; simpl.
  - reflexivity.
  - unfold bind in *. destruct (notify n m) as [[[]|e] m']; [|reflexivity].
    apply IH.
Qed.

(** *** Notifications the mock has no expectation for *)

Lemma notified_ignored event test m :
  m_hasExpectation (expectation event m) = false ->
  m_hasParametersExpectation (expectation event m) = false ->
  notified event test m = (Returned tt, m).
Proof.
  intros H1 H2. unfold notified, bind, get, when. cbn. rewrite H1. cbn.
  now rewrite H2.
Qed.

Lemma with_addFailureCall_expectation count event m :
  expectation event (with_addFailureCall count m) = expectation event m.
Proof. now destruct event. Qed.

Lemma with_addFailureCall_quiet count m :
  expects_no_test_event m -> expects_no_test_event (with_addFailureCall count m).
Proof.
  intros H event. rewrite with_addFailureCall_expectation. apply H.
Qed.

Lemma with_addFailureCall_twice c c' m :
  with_addFailureCall c' (with_addFailureCall c m) = with_addFailureCall c' m.
Proof. reflexivity. Qed.

Lemma with_addFailureCall_same m :
  with_addFailureCall (m_addFailureCall (forAddFailure m)) m = m.
Proof. now destruct m as [? ? ? ? ? []]. Qed.

Lemma notify_ignored n m :
  expects_no_test_event m ->
  (forall failure, n <> on_addFailure failure) ->
  notify n m = (Returned tt, m).
Proof.
  intros Hquiet Hn.
  destruct n as [t|t|failure|t|t]; try (apply notified_ignored; apply Hquiet).
  now elim (Hn failure).
Qed.

(** Steps over a notification at the head of a run that the mock ignores. *)
Ltac skip_ignored Hquiet :=
  match goal with
  | |- bind (notify ?n) _ ?m = _ =>
      let H := fresh in
      assert (H : notify n m = (Returned tt, m))
        by (apply notify_ignored; [exact Hquiet | discriminate]);
      rewrite (bind_returned _ _ _ H); clear H
  end.

Lemma play_without_addFailure (run : list Notification) m :
  expects_no_test_event m ->
  addFailure_calls run = 0 ->
  play run m = (Returned tt, m).
Proof.
  intros Hquiet. induction run as [|n run IH]; intros Hcalls.
  - reflexivity.
  - cbn [play].
    assert (Hn : notify n m = (Returned tt, m) /\ addFailure_calls run = 0).
    { destruct n; simpl in Hcalls; try discriminate;
        (split; [now apply notify_ignored | exact Hcalls]). }
    destruct Hn as [Hn Hrest]. rewrite (bind_returned _ _ _ Hn). now apply IH.
Qed.

(** *** [addFailure] while only calls are counted *)

(** With no parameter expectation, a call that stays within the expected
    count (if there is one) returns and leaves the counter one higher. *)
Lemma addFailure_counts failure m :
  m_hasParametersExpectationForAddFailure (forAddFailure m) = false ->
  m_hasExpectationForAddFailure (forAddFailure m)
  || m_hasExpectationForSomeFailure (forAddFailure m) = true ->
  (0 <= m_addFailureCall (forAddFailure m) < Int.max_signed)%Z ->
  (m_hasExpectationForAddFailure (forAddFailure m) = true ->
   (m_addFailureCall (forAddFailure m)
    < m_expectedAddFailureCallCount (forAddFailure m))%Z) ->
  addFailure failure m
  = (Returned tt,
     with_addFailureCall (m_addFailureCall (forAddFailure m) + 1) m).
Proof.
  intros Hparams Hcounted Hrange Hbelow.
  unfold addFailure, bind, get. cbn. rewrite Hcounted. cbn.
  unfold count_addFailure. rewrite IntFacts.incr_small by exact Hrange.
  rewrite Hparams.
  destruct (m_hasExpectationForAddFailure (forAddFailure m)); cbn.
  - specialize (Hbelow eq_refl).
    replace (_ <=? _)%Z with true by (symmetry; apply Z.leb_le; lia).
    reflexivity.
  - reflexivity.
Qed.

(** A call beyond the expected count throws on the spot, the counter already
    one higher. *)
Lemma addFailure_unexpected failure m :
  m_hasExpectationForAddFailure (forAddFailure m) = true ->
  (0 <= m_addFailureCall (forAddFailure m) < Int.max_signed)%Z ->
  (m_expectedAddFailureCallCount (forAddFailure m)
   <= m_addFailureCall (forAddFailure m))%Z ->
  addFailure failure m
  = (Thrown (m_name m ++ ": unexpected call"),
     with_addFailureCall (m_addFailureCall (forAddFailure m) + 1) m).
Proof.
  intros Hcount Hrange Hfull.
  unfold addFailure, bind, get. cbn. rewrite Hcount. cbn.
  unfold count_addFailure. rewrite IntFacts.incr_small by exact Hrange.
  replace (_ <=? _)%Z with false by (symmetry; apply Z.leb_gt; lia).
  rewrite Hcount. reflexivity.
Qed.

(** A whole run that stays within the expected count returns, and the
    counter has advanced by the number of [addFailure] calls. *)
Lemma play_counts (run : list Notification) : forall m,
  expects_no_test_event m ->
  m_hasParametersExpectationForAddFailure (forAddFailure m) = false ->
  m_hasExpectationForAddFailure (forAddFailure m)
  || m_hasExpectationForSomeFailure (forAddFailure m) = true ->
  (0 <= m_addFailureCall (forAddFailure m))%Z ->
  (m_addFailureCall (forAddFailure m) + Z.of_nat (addFailure_calls run)
   <= Int.max_signed)%Z ->
  (m_hasExpectationForAddFailure (forAddFailure m) = true ->
   (m_addFailureCall (forAddFailure m) + Z.of_nat (addFailure_calls run)
    <= m_expectedAddFailureCallCount (forAddFailure m))%Z) ->
  play run m
  = (Returned tt,
     with_addFailureCall
       (m_addFailureCall (forAddFailure m) + Z.of_nat (addFailure_calls run)) m).
Proof.
  induction run as [|n run IH]; intros m Hquiet Hparams Hcounted Hpos Hmax Hbelow.
  - cbn. now rewrite Z.add_0_r, with_addFailureCall_same.
  - cbn [play].
    destruct n as [t|t|failure|t|t];
      cbn [addFailure_calls] in Hmax, Hbelow |- *;
      try (skip_ignored Hquiet; now apply IH).
    rewrite Nat2Z.inj_succ in *.
    cbn [notify].
    rewrite (bind_returned _ _ _
               (@addFailure_counts failure m Hparams Hcounted ltac:(lia)
                  ltac:(intros H; specialize (Hbelow H); lia))).
    rewrite IH; cbn -[Z.add Z.of_nat]; auto using with_addFailureCall_quiet; try lia.
    + rewrite with_addFailureCall_twice. do 2 f_equal. lia.
    + intros H. specialize (Hbelow H). lia.
Qed.

(** *** [verify] *)

Lemma verify_calls_ignored event missing m :
  m_hasExpectation (expectation event m) = false ->
  verify_calls event missing m = (Returned tt, m).
Proof. intros H. unfold verify_calls, bind, get. cbn. now rewrite H. Qed.

(** When no expectation was set for the notifications that carry a
    [Test *], [verify] comes down to its last two blocks. *)
Lemma verify_addFailure m :
  expects_no_test_event m ->
  outcome verify m
  = if m_hasExpectationForAddFailure (forAddFailure m)
       && negb (m_expectedAddFailureCallCount (forAddFailure m)
                =? m_addFailureCall (forAddFailure m))%Z
    then Thrown (m_name m ++ ": missing addFailure calls")
    else if m_hasExpectationForSomeFailure (forAddFailure m)
            && negb (0 <? m_addFailureCall (forAddFailure m))%Z
         then Thrown (m_name m
                      ++ ": there was no call to MockTestListener::addFailure()")
         else Returned tt.
Proof.
  intros Hquiet. unfold outcome, verify.
  rewrite !(bind_returned _ _ _ (verify_calls_ignored _ _ _ (proj1 (Hquiet _)))).
  unfold bind, get, when, CPPUNIT_ASSERT_EQUAL_MESSAGE, CPPUNIT_ASSERT_MESSAGE.
  cbn.
  destruct (m_hasExpectationForAddFailure (forAddFailure m)),
    (m_hasExpectationForSomeFailure (forAddFailure m)),
    (m_expectedAddFailureCallCount (forAddFailure m)
     =? m_addFailureCall (forAddFailure m))%Z,
    (0 <? m_addFailureCall (forAddFailure m))%Z; reflexivity.
Qed.

Lemma new_expects_no_test_event name : expects_no_test_event (new name).
Proof. intros []; split; reflexivity. Qed.

Lemma with_failure_expects_no_test_event e m :
  expects_no_test_event m -> expects_no_test_event (with_failure e m).
Proof. intros H event. specialize (H event). now destruct event. Qed.

Create HintDb mock.
#[local] Hint Resolve new_expects_no_test_event
  with_failure_expects_no_test_event with_addFailureCall_quiet : mock.

(** *** Count expectations *)

(** C4.  A listener set up with [setExpectedAddFailureCall( 2 )] alone:
    after a run with exactly two calls of [addFailure], [verify()] returns;
    after a run with exactly one, the run returns and [verify()] throws
    "missing addFailure calls"; and a third call of [addFailure] throws
    "unexpected call" from inside [addFailure], the two before it having
    returned. *)
Theorem expected_two_addFailure_calls name run2 run1 run3 third :
  addFailure_calls run2 = 2 ->
  addFailure_calls run1 = 1 ->
  addFailure_calls run3 = 2 ->
  let mock := setExpectedAddFailureCall 2 (new name) in
  outcome (play run2 ;; verify) mock = Returned tt
  /\ outcome (play run1) mock = Returned tt
  /\ outcome (play run1 ;; verify) mock
     = Thrown (name ++ ": missing addFailure calls")
  /\ outcome (play run3) mock = Returned tt
  /\ outcome (play run3 ;; addFailure third) mock
     = Thrown (name ++ ": unexpected call").
Proof.
  intros H2 H1 H3 mock.
  assert (Hquiet : expects_no_test_event mock) by (intros []; split; reflexivity).
  assert (Hplay : forall run, addFailure_calls run <= 2 ->
            play run mock
            = (Returned tt,
               with_addFailureCall (0 + Z.of_nat (addFailure_calls run)) mock)).
  { intros run Hrun. apply (play_counts run Hquiet); cbn; try reflexivity;
      unfold Int.max_signed; try lia. }
  unfold outcome.
  rewrite !(bind_returned _ _ _ (Hplay run2 ltac:(lia))).
  rewrite !(bind_returned _ _ _ (Hplay run1 ltac:(lia))).
  rewrite !(bind_returned _ _ _ (Hplay run3 ltac:(lia))).
  rewrite (Hplay run1), (Hplay run3) by lia.
  rewrite H1, H2, H3.
  (* Every counter is now a numeral: the comparisons of [verify] and of
     [addFailure] evaluate. *)
  repeat apply conj; reflexivity.
Qed.

Lemma expected_two_addFailure_calls_witness :
  let mock := setExpectedAddFailureCall 2 (new "listener") in
  outcome (play (sample_run [assertion_failure; unexpected_fault]) ;; verify) mock
  = Returned tt
  /\ outcome (play (sample_run [assertion_failure])) mock = Returned tt
  /\ outcome (play (sample_run [assertion_failure]) ;; verify) mock
     = Thrown "listener: missing addFailure calls"
  /\ outcome (play [on_addFailure assertion_failure;
                    on_addFailure assertion_failure]) mock = Returned tt
  /\ outcome (play [on_addFailure assertion_failure;
                    on_addFailure assertion_failure]
              ;; addFailure assertion_failure) mock
     = Thrown "listener: unexpected call".
Proof.
  apply (@expected_two_addFailure_calls "listener"
           (sample_run [assertion_failure; unexpected_fault])
           (sample_run [assertion_failure])
           [on_addFailure assertion_failure; on_addFailure assertion_failure]
           assertion_failure); reflexivity.
Defined.

(** C9.  A listener set up with the overload [setExpectFailure()] alone:
    a run returns whatever failures it reports and however many (as long as
    the counter stays an [int]); [verify()] then returns if and only if
    [addFailure] was called at least once, and throws "there was no call to
    MockTestListener::addFailure()" otherwise. *)
Theorem some_failure_expected name run :
  (Z.of_nat (addFailure_calls run) <= Int.max_signed)%Z ->
  let mock := setExpectSomeFailure (new name) in
  outcome (play run) mock = Returned tt
  /\ (outcome (play run ;; verify) mock = Returned tt
      <-> 1 <= addFailure_calls run)
  /\ (addFailure_calls run = 0 ->
      outcome (play run ;; verify) mock
      = Thrown (name ++ ": there was no call to MockTestListener::addFailure()")).
Proof.
  intros Hmax mock.
  assert (Hquiet : expects_no_test_event mock) by (intros []; split; reflexivity).
  assert (Hplay : play run mock
            = (Returned tt,
               with_addFailureCall (0 + Z.of_nat (addFailure_calls run)) mock)).
  { apply (play_counts run Hquiet); cbn; try reflexivity; try lia. }
  assert (Hverify : outcome (play run ;; verify) mock
            = if (0 <? Z.of_nat (addFailure_calls run))%Z then Returned tt
              else Thrown (name
                     ++ ": there was no call to MockTestListener::addFailure()")).
  { unfold outcome. rewrite (bind_returned _ _ _ Hplay).
    fold (outcome verify
            (with_addFailureCall (0 + Z.of_nat (addFailure_calls run)) mock)).
    rewrite verify_addFailure by auto with mock. cbn -[Z.of_nat Z.ltb].
    now destruct (0 <? Z.of_nat (addFailure_calls run))%Z. }
  repeat split.
  - unfold outcome. now rewrite Hplay.
  - rewrite Hverify. destruct (Z.ltb_spec 0 (Z.of_nat (addFailure_calls run)));
      [lia | discriminate].
  - intros Hcalls. rewrite Hverify.
    destruct (Z.ltb_spec 0 (Z.of_nat (addFailure_calls run)));
      [reflexivity | lia].
  - intros Hnone. rewrite Hverify, Hnone. reflexivity.
Qed.

Lemma some_failure_expected_witness :
  let run := sample_run [assertion_failure; unexpected_fault; assertion_failure] in
  let mock := setExpectSomeFailure (new "listener") in
  outcome (play run) mock = Returned tt
  /\ (outcome (play run ;; verify) mock = Returned tt
      <-> 1 <= addFailure_calls run)
  /\ (addFailure_calls run = 0 ->
      outcome (play run ;; verify) mock
      = Thrown "listener: there was no call to MockTestListener::addFailure()").
Proof.
  apply (@some_failure_expected "listener"
           (sample_run [assertion_failure; unexpected_fault; assertion_failure])).
  vm_compute. discriminate.
Defined.

(** *** Parameter expectations *)

(** Evaluates a member function on a state whose flags are known. *)
Ltac run_method :=
  unfold outcome, addFailure, bind, get, when, modify, count_addFailure,
    CPPUNIT_ASSERT_MESSAGE; cbn.

(** With the parameter expectation set, a call within the expected count
    that carries the expected failure returns. *)
Lemma addFailure_as_expected failure m :
  m_hasExpectationForAddFailure (forAddFailure m) = true ->
  m_hasParametersExpectationForAddFailure (forAddFailure m) = true ->
  as_expected (m_expectedFailedTest (forAddFailure m))
    (m_expectedException (forAddFailure m))
    (m_expectedIsError (forAddFailure m)) failure ->
  (0 <= m_addFailureCall (forAddFailure m) < Int.max_signed)%Z ->
  (m_addFailureCall (forAddFailure m)
   < m_expectedAddFailureCallCount (forAddFailure m))%Z ->
  addFailure failure m
  = (Returned tt,
     with_addFailureCall (m_addFailureCall (forAddFailure m) + 1) m).
Proof.
  intros Hcount Hparams (Htest & Hexception & HisError) Hrange Hbelow.
  run_method. rewrite Hcount. cbn.
  rewrite IntFacts.incr_small by exact Hrange. rewrite Hcount, Hparams. cbn.
  replace (_ <=? _)%Z with true by (symmetry; apply Z.leb_le; lia).
  rewrite Htest, Hexception, HisError, !N.eqb_refl, eqb_reflx. reflexivity.
Qed.

(** With the parameter expectation set, a call that carries anything else
    throws, whatever the counters. *)
Lemma addFailure_checks_parameters failure m :
  m_hasParametersExpectationForAddFailure (forAddFailure m) = true ->
  ~ as_expected (m_expectedFailedTest (forAddFailure m))
      (m_expectedException (forAddFailure m))
      (m_expectedIsError (forAddFailure m)) failure ->
  exists message, outcome (addFailure failure) m = Thrown message.
Proof.
  intros Hparams Hbad. run_method.
  destruct (m_hasExpectationForAddFailure (forAddFailure m)
            || m_hasExpectationForSomeFailure (forAddFailure m)); cbn;
    rewrite Hparams;
    (destruct (m_hasExpectationForAddFailure (forAddFailure m)); cbn;
     [ match goal with |- context [(?a <=? ?b)%Z] => destruct (a <=? b)%Z end;
       cbn; [|eexists; reflexivity] | ]);
    destruct (N.eqb_spec (m_expectedFailedTest (forAddFailure m))
                (failedTest failure)); cbn; try (eexists; reflexivity);
    destruct (N.eqb_spec (m_expectedException (forAddFailure m))
                (thrownException failure)); cbn; try (eexists; reflexivity);
    destruct (eqb_spec (m_expectedIsError (forAddFailure m))
                (isError failure)); cbn; try (eexists; reflexivity);
    elim Hbad; repeat split; congruence.
Qed.

(** Notifications move counters and nothing else. *)
Lemma same_expectations_refl m : same_expectations m m.
Proof.
  split; [reflexivity|]. exists (m_addFailureCall (forAddFailure m)).
  now rewrite with_addFailureCall_same.
Qed.

Lemma same_expectations_trans m1 m2 m3 :
  same_expectations m1 m2 -> same_expectations m2 m3 -> same_expectations m1 m3.
Proof.
  intros (Hname & c & H) (Hname' & c' & H'). split; [congruence|].
  exists c'. rewrite H'. unfold with_addFailureCall. cbn. now rewrite H.
Qed.

Lemma same_expectations_count c m : same_expectations m (with_addFailureCall c m).
Proof. split; [reflexivity|]. now exists c. Qed.

Lemma same_expectations_event event e m :
  same_expectations m (with_expectation event e m).
Proof.
  split; [reflexivity|]. exists (m_addFailureCall (forAddFailure m)).
  now destruct m as [? ? ? ? ? []].
Qed.

Lemma notified_same_expectations event test m :
  same_expectations m (state_after (notified event test) m).
Proof.
  unfold state_after, notified, bind, get, when, modify, count_call,
    CPPUNIT_ASSERT_MESSAGE. cbn.
  repeat match goal with
         | |- context [if ?b then _ else _] => destruct b; cbn
         end;
    first [apply same_expectations_refl | apply same_expectations_event].
Qed.

Lemma addFailure_same_expectations failure m :
  same_expectations m (state_after (addFailure failure) m).
Proof.
  unfold state_after. run_method.
  repeat match goal with
         | |- context [if ?b then _ else _] => destruct b; cbn
         end;
    (apply same_expectations_refl || apply same_expectations_count).
Qed.

Lemma play_same_expectations (run : list Notification) : forall m,
  same_expectations m (state_after (play run) m).
Proof.
  induction run as [|n run IH]; intros m.
  - apply same_expectations_refl.
  - assert (Hn : same_expectations m (state_after (notify n) m)).
    { destruct n; first [apply notified_same_expectations
                        | apply addFailure_same_expectations]. }
    unfold state_after in *. cbn [play]. unfold bind.
    destruct (notify n m) as [[[]|e] m']; cbn [snd] in *.
    + exact (same_expectations_trans Hn (IH m')).
    + exact Hn.
Qed.

(** C5.  A listener set up with
    [setExpectFailure( test, exception, isError )] alone, [isError] being
    [true] in the claim: wherever the run stands, a call of [addFailure]
    whose failure differs in the test, in the exception or in the error flag
    throws from inside [addFailure]; when it is the first call of
    [addFailure] of the run, the message is that of the first parameter that
    differs. *)
Theorem parameter_mismatch_throws_in_addFailure
  name test exception isErr run failure :
  ~ as_expected test exception isErr failure ->
  let mock := setExpectFailure test exception isErr (new name) in
  (exists message,
     outcome (addFailure failure) (state_after (play run) mock) = Thrown message)
  /\ (addFailure_calls run = 0 ->
      outcome (play run ;; addFailure failure) mock
      = Thrown (name ++ bad_parameter test exception isErr failure)).
Proof.
  intros Hbad mock. split.
  - destruct (play_same_expectations run mock) as (_ & c & Hsame).
    apply addFailure_checks_parameters; rewrite Hsame; [reflexivity | exact Hbad].
  - intros Hcalls. unfold outcome.
    rewrite (bind_returned _ _ _
               (@play_without_addFailure run mock
                  ltac:(intros []; split; reflexivity) Hcalls)).
    unfold bad_parameter. run_method.
    destruct (N.eqb_spec test (failedTest failure)); cbn; [|reflexivity].
    destruct (N.eqb_spec exception (thrownException failure)); cbn; [|reflexivity].
    destruct (eqb_spec isErr (isError failure)); cbn; [|reflexivity].
    elim Hbad. repeat split; congruence.
Qed.

Lemma parameter_mismatch_throws_in_addFailure_witness :
  let mock := setExpectFailure 7%N 9%N true (new "listener") in
  (exists message,
     outcome (addFailure assertion_failure)
       (state_after (play [on_startSuite 3%N; on_startTest 7%N]) mock)
     = Thrown message)
  /\ (addFailure_calls [on_startSuite 3%N; on_startTest 7%N] = 0 ->
      outcome (play [on_startSuite 3%N; on_startTest 7%N]
               ;; addFailure assertion_failure) mock
      = Thrown "listener: bad isError").
Proof.
  apply (@parameter_mismatch_throws_in_addFailure "listener" 7%N 9%N true
           [on_startSuite 3%N; on_startTest 7%N] assertion_failure).
  intros (_ & _ & H). discriminate H.
Defined.

(** C10.  A listener set up with
    [setExpectFailure( failedTest, thrownException, isError )] alone expects
    exactly one call of [addFailure]: the expected count is 1, a run with
    one call that carries the expected failure returns and passes
    [verify()], and a second call throws "unexpected call" from inside
    [addFailure] whatever failure it carries, the expected one included. *)
Theorem setExpectFailure_expects_one_call
  name test exception isErr before first between second :
  addFailure_calls before = 0 ->
  addFailure_calls between = 0 ->
  as_expected test exception isErr first ->
  let mock := setExpectFailure test exception isErr (new name) in
  let run := (before ++ on_addFailure first :: between)%list in
  m_expectedAddFailureCallCount (forAddFailure mock) = 1%Z
  /\ outcome (play run) mock = Returned tt
  /\ outcome (play run ;; verify) mock = Returned tt
  /\ outcome (play run ;; addFailure second) mock
     = Thrown (name ++ ": unexpected call").
Proof.
  intros Hbefore Hbetween Hfirst mock run.
  assert (Hquiet : expects_no_test_event mock) by (intros []; split; reflexivity).
  assert (Hplay : play run mock = (Returned tt, with_addFailureCall 1 mock)).
  { unfold run. rewrite play_app.
    rewrite (bind_returned _ _ _ (play_without_addFailure before Hquiet Hbefore)).
    cbn [play notify].
    rewrite (bind_returned _ _ _
               (@addFailure_as_expected first mock eq_refl eq_refl Hfirst
                  ltac:(cbn; unfold Int.max_signed; lia) ltac:(cbn; lia))).
    apply play_without_addFailure; auto with mock. }
  unfold outcome. rewrite !(bind_returned _ _ _ Hplay), Hplay.
  (* The counter is the numeral 1: [verify] finds it equal to the expected
     count, [addFailure] finds 2 above it. *)
  repeat apply conj; reflexivity.
Qed.

Lemma setExpectFailure_expects_one_call_witness :
  let mock := setExpectFailure 7%N 9%N true (new "listener") in
  let run :=
    ([on_startTest 7%N] ++ on_addFailure unexpected_fault :: [on_endTest 7%N])%list in
  m_expectedAddFailureCallCount (forAddFailure mock) = 1%Z
  /\ outcome (play run) mock = Returned tt
  /\ outcome (play run ;; verify) mock = Returned tt
  /\ outcome (play run ;; addFailure unexpected_fault) mock
     = Thrown "listener: unexpected call".
Proof.
  apply (@setExpectFailure_expects_one_call "listener" 7%N 9%N true
           [on_startTest 7%N] unexpected_fault [on_endTest 7%N] unexpected_fault);
    repeat split; reflexivity.
Defined.

(** *** A listener nothing was asked of *)

Lemma addFailure_ignored failure m :
  expects_no_failure_call m -> addFailure failure m = (Returned tt, m).
Proof.
  intros (Hcount & Hsome & Hparams).
  unfold addFailure, bind, get, when. cbn. rewrite Hcount, Hsome. cbn.
  now rewrite Hcount, Hparams.
Qed.

Lemma play_ignored (run : list Notification) m :
  expects_no_test_event m -> expects_no_failure_call m ->
  play run m = (Returned tt, m).
Proof.
  intros Hquiet Hfailure. induction run as [|n run IH]; [reflexivity|].
  cbn [play].
  assert (Hn : notify n m = (Returned tt, m)).
  { destruct n; try (apply notified_ignored; apply Hquiet).
    now apply addFailure_ignored. }
  now rewrite (bind_returned _ _ _ Hn).
Qed.

(** X1.  A listener on which no setter was called takes any run without
    throwing and without changing, and passes [verify()] after it. *)
Theorem unconfigured_listener_ignores_every_run name run :
  play run (new name) = (Returned tt, new name)
  /\ outcome (play run ;; verify) (new name) = Returned tt.
Proof.
  assert (Hplay : play run (new name) = (Returned tt, new name)).
  { apply play_ignored; [apply new_expects_no_test_event|].
    repeat split. }
  split; [exact Hplay|].
  unfold outcome. rewrite (bind_returned _ _ _ Hplay). reflexivity.
Qed.

(** *** [verify] reads, and reads counters only *)

(** Evaluates [verify] on a state whose flags are case-analysed. *)
Ltac run_verify :=
  unfold outcome, state_after, verify, verify_calls, bind, get, when,
    CPPUNIT_ASSERT_EQUAL_MESSAGE, CPPUNIT_ASSERT_MESSAGE; cbn;
  repeat match goal with
         | |- context [if ?b then _ else _] => destruct b; cbn
         end.

(** X2.  [verify()] assigns no member, whatever it finds: the listener is
    the same after it, so that asking twice gives the answer of asking
    once. *)
Theorem verify_changes_nothing m :
  state_after verify m = m
  /\ outcome (verify ;; verify) m = outcome verify m.
Proof.
  assert (Hstate : state_after verify m = m) by (run_verify; reflexivity).
  split; [exact Hstate|].
  unfold outcome, state_after in *. unfold bind at 1.
  destruct (verify m) as [[[]|message] m'] eqn:Hverify; cbn in *.
  - subst m'. now rewrite Hverify.
  - reflexivity.
Qed.

(** *** Notifications move counters and nothing else *)

Lemma without_calls_notified event test m :
  without_calls (state_after (notified event test) m) = without_calls m.
Proof.
  unfold state_after, notified, bind, get, when, modify, count_call,
    CPPUNIT_ASSERT_MESSAGE. cbn.
  repeat match goal with
         | |- context [if ?b then _ else _] => destruct b; cbn
         end;
    destruct event; reflexivity.
Qed.

Lemma without_calls_addFailure failure m :
  without_calls (state_after (addFailure failure) m) = without_calls m.
Proof.
  unfold state_after. run_method.
  repeat match goal with
         | |- context [if ?b then _ else _] => destruct b; cbn
         end;
    reflexivity.
Qed.

(** X3.  A run, whether it ends or throws, changes nothing of a listener
    but its counters of observed calls: the name, the flags, the expected
    counts and the expected parameters are those the setters left. *)
Theorem run_changes_counters_only (run : list Notification) : forall m,
  without_calls (state_after (play run) m) = without_calls m.
Proof.
  induction run as [|n run IH]; intros m; [reflexivity|].
  assert (Hn : without_calls (state_after (notify n) m) = without_calls m).
  { destruct n; first [apply without_calls_notified
                      | apply without_calls_addFailure]. }
  unfold state_after in *. cbn [play]. unfold bind.
  destruct (notify n m) as [[[]|message] m']; cbn [snd] in *.
  - now rewrite IH.
  - exact Hn.
Qed.

(** *** Count expectations, for any count *)

(** X4.  A listener set up with [setExpectedAddFailureCall( n )] alone, for
    any [n] from 0 that an [int] can exceed: a run with exactly [n] calls of
    [addFailure] passes [verify()]; every run with fewer returns and fails
    [verify()] with "missing addFailure calls" (there is none for [n = 0]);
    one call more throws "unexpected call" from inside [addFailure], and
    since that call was counted too, [verify()] fails after it with the
    same "missing addFailure calls".  With [n = 0] the listener must not be
    called: a run without [addFailure] passes, the first [addFailure]
    throws. *)
Theorem expected_addFailure_calls name n exactly failure :
  (0 <= n < Int.max_signed)%Z ->
  Z.of_nat (addFailure_calls exactly) = n ->
  let mock := setExpectedAddFailureCall n (new name) in
  outcome (play exactly ;; verify) mock = Returned tt
  /\ (forall fewer,
        (Z.of_nat (addFailure_calls fewer) < n)%Z ->
        outcome (play fewer) mock = Returned tt
        /\ outcome (play fewer ;; verify) mock
           = Thrown (name ++ ": missing addFailure calls"))
  /\ outcome (play exactly ;; addFailure failure) mock
     = Thrown (name ++ ": unexpected call")
  /\ outcome verify (state_after (play exactly ;; addFailure failure) mock)
     = Thrown (name ++ ": missing addFailure calls").
Proof.
  intros Hn Hexactly mock.
  assert (Hquiet : expects_no_test_event mock) by (intros []; split; reflexivity).
  assert (Hplay : forall run, (Z.of_nat (addFailure_calls run) <= n)%Z ->
            play run mock
            = (Returned tt,
               with_addFailureCall (0 + Z.of_nat (addFailure_calls run)) mock)).
  { intros run Hrun. apply (play_counts run Hquiet); cbn -[Z.of_nat];
      try reflexivity; unfold Int.max_signed in *; lia. }
  assert (Hone : addFailure failure (with_addFailureCall n mock)
            = (Thrown (name ++ ": unexpected call"),
               with_addFailureCall (n + 1) mock)).
  { rewrite addFailure_unexpected; cbn; try reflexivity; lia. }
  assert (Hverify : forall c,
            outcome verify (with_addFailureCall c mock)
            = if (n =? c)%Z then Returned tt
              else Thrown (name ++ ": missing addFailure calls")).
  { intros c. rewrite verify_addFailure by auto with mock.
    cbn -[Z.eqb]. now destruct (n =? c)%Z. }
  split; [|split; [|split]].
  - unfold outcome. rewrite (bind_returned _ _ _ (Hplay exactly ltac:(lia))).
    rewrite Hexactly. cbn [Z.add].
    fold (outcome verify (with_addFailureCall n mock)).
    now rewrite Hverify, Z.eqb_refl.
  - intros fewer Hfewer. split.
    + unfold outcome. now rewrite (Hplay fewer) by lia.
    + unfold outcome. rewrite (bind_returned _ _ _ (Hplay fewer ltac:(lia))).
      cbn [Z.add].
      fold (outcome verify
              (with_addFailureCall (Z.of_nat (addFailure_calls fewer)) mock)).
      rewrite Hverify.
      now replace (n =? Z.of_nat (addFailure_calls fewer))%Z with false
        by (symmetry; apply Z.eqb_neq; lia).
  - unfold outcome. rewrite (bind_returned _ _ _ (Hplay exactly ltac:(lia))).
    rewrite Hexactly. cbn [Z.add]. now rewrite Hone.
  - unfold state_after. rewrite (bind_returned _ _ _ (Hplay exactly ltac:(lia))).
    rewrite Hexactly. cbn [Z.add]. rewrite Hone. cbn [snd].
    rewrite Hverify.
    now replace (n =? n + 1)%Z with false by (symmetry; apply Z.eqb_neq; lia).
Qed.

(** The theorem at work on a listener that expects three calls, and on one
    that expects none. *)
Lemma expected_addFailure_calls_witness :
  (let mock := setExpectedAddFailureCall 3 (new "listener") in
   let exactly :=
     sample_run [assertion_failure; unexpected_fault; assertion_failure] in
   let fewer := sample_run [assertion_failure] in
   outcome (play exactly ;; verify) mock = Returned tt
   /\ outcome (play fewer) mock = Returned tt
   /\ outcome (play fewer ;; verify) mock
      = Thrown "listener: missing addFailure calls"
   /\ outcome (play exactly ;; addFailure unexpected_fault) mock
      = Thrown "listener: unexpected call"
   /\ outcome verify
        (state_after (play exactly ;; addFailure unexpected_fault) mock)
      = Thrown "listener: missing addFailure calls")
  /\ (let mock := setExpectedAddFailureCall 0 (new "listener") in
      outcome (play (sample_run []) ;; verify) mock = Returned tt
      /\ outcome (play (sample_run []) ;; addFailure assertion_failure) mock
         = Thrown "listener: unexpected call"
      /\ outcome verify
           (state_after (play (sample_run []) ;; addFailure assertion_failure)
              mock)
         = Thrown "listener: missing addFailure calls").
Proof.
  split.
  - destruct (@expected_addFailure_calls "listener" 3
                (sample_run [assertion_failure; unexpected_fault;
                             assertion_failure])
                unexpected_fault)
      as (Hexactly & Hfewer & Hmore & Hafter).
    + unfold Int.max_signed. lia.
    + reflexivity.
    + destruct (Hfewer (sample_run [assertion_failure])) as (Hreturns & Hfails).
      * vm_compute. reflexivity.
      * repeat apply conj; assumption.
  - destruct (@expected_addFailure_calls "listener" 0 (sample_run [])
                assertion_failure)
      as (Hexactly & _ & Hmore & Hafter).
    + unfold Int.max_signed. lia.
    + reflexivity.
    + repeat apply conj; assumption.
Defined.

(** X5.  A listener set up with [setExpectNoFailure()] alone passes
    [verify()] after a run without failure, and throws "unexpected call"
    from inside the first [addFailure] of a run. *)
Theorem no_failure_expected name run failure :
  addFailure_calls run = 0 ->
  let mock := setExpectNoFailure (new name) in
  outcome (play run ;; verify) mock = Returned tt
  /\ outcome (play run ;; addFailure failure) mock
     = Thrown (name ++ ": unexpected call").
Proof.
  intros Hrun mock.
  assert (Hplay : play run mock = (Returned tt, mock)).
  { apply play_without_addFailure; [|exact Hrun]. intros []; split; reflexivity. }
  unfold outcome. rewrite !(bind_returned _ _ _ Hplay).
  split; reflexivity.
Qed.

Lemma no_failure_expected_witness :
  let mock := setExpectNoFailure (new "listener") in
  outcome (play (sample_run []) ;; verify) mock = Returned tt
  /\ outcome (play (sample_run []) ;; addFailure assertion_failure) mock
     = Thrown "listener: unexpected call".
Proof.
  apply (@no_failure_expected "listener" (sample_run []) assertion_failure).
  reflexivity.
Defined.

(** X6.  [verify()] does not look at parameters.  After
    [setExpectFailure( test, exception, isError )], the first [addFailure]
    of a run throws if it carries another failure, but it was counted: the
    [verify()] that follows returns. *)
Theorem verify_does_not_check_parameters
  name test exception isErr run failure :
  addFailure_calls run = 0 ->
  ~ as_expected test exception isErr failure ->
  let mock := setExpectFailure test exception isErr (new name) in
  outcome (play run ;; addFailure failure) mock
  = Thrown (name ++ bad_parameter test exception isErr failure)
  /\ outcome verify (state_after (play run ;; addFailure failure) mock)
     = Returned tt.
Proof.
  intros Hrun Hbad mock.
  assert (Hplay : play run mock = (Returned tt, mock)).
  { apply play_without_addFailure; [|exact Hrun]. intros []; split; reflexivity. }
  unfold outcome, state_after. rewrite !(bind_returned _ _ _ Hplay).
  unfold bad_parameter. run_method.
  destruct (N.eqb_spec test (failedTest failure)); cbn; [|split; reflexivity].
  destruct (N.eqb_spec exception (thrownException failure)); cbn;
    [|split; reflexivity].
  destruct (eqb_spec isErr (isError failure)); cbn; [|split; reflexivity].
  elim Hbad. repeat split; congruence.
Qed.

Lemma verify_does_not_check_parameters_witness :
  let mock := setExpectFailure 7%N 9%N true (new "listener") in
  outcome (play [on_startTest 7%N] ;; addFailure assertion_failure) mock
  = Thrown "listener: bad isError"
  /\ outcome verify
       (state_after (play [on_startTest 7%N] ;; addFailure assertion_failure) mock)
     = Returned tt.
Proof.
  apply (@verify_does_not_check_parameters "listener" 7%N 9%N true
           [on_startTest 7%N] assertion_failure).
  - reflexivity.
  - intros (_ & _ & H). discriminate H.
Defined.

(** *** The four notifications that carry a test *)

Lemma TestEvent_eqb_eq a b : TestEvent_eqb a b = true <-> a = b.
Proof. destruct a, b; cbn; split; congruence. Qed.

Lemma expectation_with_expectation event e m :
  expectation event (with_expectation event e m) = e.
Proof. now destruct event. Qed.

Lemma expectation_with_expectation_other event other e m :
  other <> event ->
  expectation other (with_expectation event e m) = expectation other m.
Proof. destruct event, other; cbn; congruence. Qed.

Lemma with_call_twice event c c' m :
  with_call event c' (with_call event c m) = with_call event c' m.
Proof. now destruct event. Qed.

Lemma with_call_same event m :
  with_call event (m_call (expectation event m)) m = m.
Proof. now destruct event, m as [? [] [] [] [] ?]. Qed.

(** Within the expected count and with no parameter expectation, a call
    returns and leaves the counter of its event one higher. *)
Lemma notified_counts event test m :
  m_hasExpectation (expectation event m) = true ->
  m_hasParametersExpectation (expectation event m) = false ->
  (0 <= m_call (expectation event m) < Int.max_signed)%Z ->
  (m_call (expectation event m) < m_expectedCallCount (expectation event m))%Z ->
  notified event test m
  = (Returned tt, with_call event (m_call (expectation event m) + 1) m).
Proof.
  intros Hcount Hparams Hrange Hbelow.
  unfold notified, bind, get, when, modify, count_call, CPPUNIT_ASSERT_MESSAGE.
  cbn. rewrite Hcount. cbn. rewrite !expectation_with_expectation. cbn.
  rewrite IntFacts.incr_small by exact Hrange.
  replace (_ <=? _)%Z with true by (symmetry; apply Z.leb_le; lia).
  cbn. rewrite expectation_with_expectation. cbn. rewrite Hparams.
  unfold with_call. now rewrite Hparams.
Qed.

(** Beyond the expected count, a call throws, its counter already one
    higher. *)
Lemma notified_unexpected event test m :
  m_hasExpectation (expectation event m) = true ->
  (0 <= m_call (expectation event m) < Int.max_signed)%Z ->
  (m_expectedCallCount (expectation event m) <= m_call (expectation event m))%Z ->
  notified event test m
  = (Thrown (m_name m ++ ": unexpected call"),
     with_call event (m_call (expectation event m) + 1) m).
Proof.
  intros Hcount Hrange Hfull.
  unfold notified, bind, get, when, modify, count_call, CPPUNIT_ASSERT_MESSAGE.
  cbn. rewrite Hcount. cbn. rewrite !expectation_with_expectation. cbn.
  rewrite IntFacts.incr_small by exact Hrange.
  replace (_ <=? _)%Z with false by (symmetry; apply Z.leb_gt; lia).
  reflexivity.
Qed.

(** A notification is either the call of the member function of [event],
    or one that a listener expecting calls of [event] alone ignores. *)
Lemma notify_event_or_ignored event n :
  (is_event event n = true /\ exists test, notify n = notified event test)
  \/ (is_event event n = false
      /\ forall m,
           expects_no_failure_call m ->
           (forall other, other <> event ->
              m_hasExpectation (expectation other m) = false
              /\ m_hasParametersExpectation (expectation other m) = false) ->
           notify n m = (Returned tt, m)).
Proof.
  destruct n as [t|t|failure|t|t], event;
    cbn [is_event TestEvent_eqb notify];
    unfold startSuite, startTest, endTest, endSuite;
    try (left; split; [reflexivity | now exists t]);
    right; (split; [reflexivity|]); intros m Hfailure Hothers;
    try (now apply addFailure_ignored);
    apply notified_ignored; apply Hothers; discriminate.
Qed.

(** A run within the expected count of [event] returns, and the counter of
    [event] has advanced by the number of its calls. *)
Lemma play_event_counts event (run : list Notification) : forall m,
  expects_no_failure_call m ->
  (forall other, other <> event ->
     m_hasExpectation (expectation other m) = false
     /\ m_hasParametersExpectation (expectation other m) = false) ->
  m_hasExpectation (expectation event m) = true ->
  m_hasParametersExpectation (expectation event m) = false ->
  (0 <= m_call (expectation event m))%Z ->
  (m_call (expectation event m) + Z.of_nat (event_calls event run)
   <= Int.max_signed)%Z ->
  (m_call (expectation event m) + Z.of_nat (event_calls event run)
   <= m_expectedCallCount (expectation event m))%Z ->
  play run m
  = (Returned tt,
     with_call event
       (m_call (expectation event m) + Z.of_nat (event_calls event run)) m).
Proof.
  induction run as [|n run IH];
    intros m Hfailure Hothers Hcount Hparams Hpos Hmax Hbelow.
  - cbn. now rewrite Z.add_0_r, with_call_same.
  - cbn [play]. unfold event_calls in *. cbn [filter] in *.
    destruct (notify_event_or_ignored event n) as [(Hn & test & Hnotify)
                                                   | (Hn & Hignored)];
      rewrite Hn in *.
    + cbn [List.length] in *. rewrite Nat2Z.inj_succ in *.
      rewrite Hnotify.
      rewrite (bind_returned _ _ _
                 (@notified_counts event test m Hcount Hparams
                    ltac:(lia) ltac:(lia))).
      rewrite IH.
      * rewrite with_call_twice. unfold with_call at 2.
        rewrite expectation_with_expectation. cbn [m_call].
        do 2 f_equal. lia.
      * exact Hfailure.
      * intros other Hother. unfold with_call.
        rewrite expectation_with_expectation_other by exact Hother.
        now apply Hothers.
      * unfold with_call. now rewrite expectation_with_expectation.
      * unfold with_call. now rewrite expectation_with_expectation.
      * unfold with_call. rewrite expectation_with_expectation. cbn. lia.
      * unfold with_call. rewrite expectation_with_expectation. cbn. lia.
      * unfold with_call. rewrite expectation_with_expectation. cbn. lia.
    + rewrite (bind_returned _ _ _ (Hignored m Hfailure Hothers)).
      now apply IH.
Qed.

Lemma verify_calls_met event missing m :
  m_hasExpectation (expectation event m) = true ->
  m_expectedCallCount (expectation event m) = m_call (expectation event m) ->
  verify_calls event missing m = (Returned tt, m).
Proof.
  intros H Hmet.
  unfold verify_calls, bind, get, when, CPPUNIT_ASSERT_EQUAL_MESSAGE. cbn.
  now rewrite H, Hmet, Z.eqb_refl.
Qed.

Lemma verify_calls_unmet event missing m :
  m_hasExpectation (expectation event m) = true ->
  m_expectedCallCount (expectation event m) <> m_call (expectation event m) ->
  verify_calls event missing m = (Thrown (m_name m ++ missing), m).
Proof.
  intros H Hunmet.
  unfold verify_calls, bind, get, when, CPPUNIT_ASSERT_EQUAL_MESSAGE. cbn.
  rewrite H. now apply Z.eqb_neq in Hunmet as ->.
Qed.

(** Steps over the block of [verify] that stands first. *)
Ltac verify_block Hothers Hevent Hcalls :=
  first
    [ rewrite (bind_returned _ _ _
                 (verify_calls_ignored _ _ _ (Hothers StartTest ltac:(discriminate))))
    | rewrite (bind_returned _ _ _
                 (verify_calls_ignored _ _ _ (Hothers EndTest ltac:(discriminate))))
    | rewrite (bind_returned _ _ _
                 (verify_calls_ignored _ _ _ (Hothers StartSuite ltac:(discriminate))))
    | rewrite (bind_returned _ _ _
                 (verify_calls_ignored _ _ _ (Hothers EndSuite ltac:(discriminate))))
    | rewrite (bind_returned _ _ _ (verify_calls_met _ _ _ Hevent Hcalls))
    | rewrite (bind_thrown _ _ _ (verify_calls_unmet _ _ _ Hevent Hcalls)) ].

(** When calls of [event] alone are expected, [verify] comes down to the
    block of [event]. *)
Lemma verify_event event m :
  expects_no_failure_call m ->
  (forall other, other <> event ->
     m_hasExpectation (expectation other m) = false) ->
  m_hasExpectation (expectation event m) = true ->
  outcome verify m
  = if (m_expectedCallCount (expectation event m)
        =? m_call (expectation event m))%Z
    then Returned tt
    else Thrown (m_name m ++ missing_calls event).
Proof.
  intros (Hcount & Hsome & _) Hothers Hevent.
  unfold outcome, verify.
  destruct (Z.eqb_spec (m_expectedCallCount (expectation event m))
              (m_call (expectation event m))) as [Hcalls | Hcalls];
    destruct event; repeat verify_block Hothers Hevent Hcalls;
    try reflexivity;
    unfold bind, get, when; cbn; now rewrite Hcount, Hsome.
Qed.

(** X7.  A listener set up with [setExpectedStartTestCall( n )] alone, or
    with the setter of [endTest], [startSuite] or [endSuite], for any [n]
    from 0 that an [int] can exceed: a run with exactly [n] calls of that
    member function passes [verify()], whatever else the run holds; every
    run with fewer returns and fails [verify()] with the "missing ... calls"
    message of that member function (there is none for [n = 0]); one call
    more throws "unexpected call" from inside it.  With [n = 0] the member
    function must not be called: a run without it passes, its first call
    throws. *)
Theorem expected_calls_of_a_test_event name event n exactly test :
  (0 <= n < Int.max_signed)%Z ->
  Z.of_nat (event_calls event exactly) = n ->
  let mock := setExpectedCall event n (new name) in
  outcome (play exactly ;; verify) mock = Returned tt
  /\ (forall fewer,
        (Z.of_nat (event_calls event fewer) < n)%Z ->
        outcome (play fewer) mock = Returned tt
        /\ outcome (play fewer ;; verify) mock
           = Thrown (name ++ missing_calls event))
  /\ outcome (play exactly ;; notified event test) mock
     = Thrown (name ++ ": unexpected call").
Proof.
  intros Hn Hexactly mock.
  assert (Hfailure : expects_no_failure_call mock)
    by (destruct event; repeat split).
  assert (Hothers : forall other, other <> event ->
            m_hasExpectation (expectation other mock) = false
            /\ m_hasParametersExpectation (expectation other mock) = false).
  { intros other Hother. destruct event, other; try (now elim Hother);
      split; reflexivity. }
  assert (Hevent : expectation event mock
            = {| m_hasExpectation := true;
                 m_hasParametersExpectation := false;
                 m_expectedCallCount := n;
                 m_call := 0;
                 m_expected := None |}) by now destruct event.
  assert (Hplay : forall run, (Z.of_nat (event_calls event run) <= n)%Z ->
            play run mock
            = (Returned tt,
               with_call event (Z.of_nat (event_calls event run)) mock)).
  { intros run Hrun.
    rewrite (@play_event_counts event run mock Hfailure Hothers);
      rewrite ?Hevent; cbn -[Z.of_nat]; try reflexivity;
      unfold Int.max_signed in *; lia. }
  assert (Hverify : forall c,
            outcome verify (with_call event c mock)
            = if (n =? c)%Z then Returned tt
              else Thrown (name ++ missing_calls event)).
  { intros c. rewrite (@verify_event event).
    - unfold with_call. rewrite expectation_with_expectation, Hevent.
      cbn. now destruct event.
    - destruct event; repeat split.
    - intros other Hother. unfold with_call.
      rewrite expectation_with_expectation_other by exact Hother.
      now apply Hothers.
    - unfold with_call. now rewrite expectation_with_expectation, Hevent. }
  split; [|split].
  - unfold outcome. rewrite (bind_returned _ _ _ (Hplay exactly ltac:(lia))).
    rewrite Hexactly.
    fold (outcome verify (with_call event n mock)).
    now rewrite Hverify, Z.eqb_refl.
  - intros fewer Hfewer. split.
    + unfold outcome. now rewrite (Hplay fewer) by lia.
    + unfold outcome. rewrite (bind_returned _ _ _ (Hplay fewer ltac:(lia))).
      fold (outcome verify
              (with_call event (Z.of_nat (event_calls event fewer)) mock)).
      rewrite Hverify.
      now replace (n =? Z.of_nat (event_calls event fewer))%Z with false
        by (symmetry; apply Z.eqb_neq; lia).
  - unfold outcome. rewrite (bind_returned _ _ _ (Hplay exactly ltac:(lia))).
    rewrite Hexactly.
    rewrite notified_unexpected; unfold with_call;
      rewrite ?expectation_with_expectation, ?Hevent; cbn;
      try reflexivity; try lia.
Qed.

(** The theorem at work on a listener that expects two calls of
    [startTest], and on one that expects no call of [endSuite], with a run
    cut short before the suite ends. *)
Lemma expected_calls_of_a_test_event_witness :
  (let mock := setExpectedCall StartTest 2 (new "listener") in
   outcome (play mixed_run ;; verify) mock = Returned tt
   /\ outcome (play (sample_run [assertion_failure])) mock = Returned tt
   /\ outcome (play (sample_run [assertion_failure]) ;; verify) mock
      = Thrown "listener: missing startTest calls"
   /\ outcome (play mixed_run ;; notified StartTest 9%N) mock
      = Thrown "listener: unexpected call")
  /\ (let mock := setExpectedCall EndSuite 0 (new "listener") in
      let run := [on_startSuite 3%N; on_startTest 7%N; on_endTest 7%N] in
      outcome (play run ;; verify) mock = Returned tt
      /\ outcome (play run ;; notified EndSuite 3%N) mock
         = Thrown "listener: unexpected call").
Proof.
  split.
  - destruct (@expected_calls_of_a_test_event "listener" StartTest 2 mixed_run
                9%N)
      as (Hexactly & Hfewer & Hmore).
    + unfold Int.max_signed. lia.
    + reflexivity.
    + destruct (Hfewer (sample_run [assertion_failure])) as (Hreturns & Hfails).
      * vm_compute. reflexivity.
      * repeat apply conj; assumption.
  - destruct (@expected_calls_of_a_test_event "listener" EndSuite 0
                [on_startSuite 3%N; on_startTest 7%N; on_endTest 7%N] 3%N)
      as (Hexactly & _ & Hmore).
    + unfold Int.max_signed. lia.
    + reflexivity.
    + split; assumption.
Defined.

(** X8.  A listener set up with [setExpectStartTest( test )] alone, or with
    the setter of [endTest], [startSuite] or [endSuite]: a call of that
    member function with another test throws "bad test" from inside it; a
    call with [test] returns and passes [verify()]; a second call throws
    "unexpected call" although it carries [test] too; and the call with
    another test was counted, so that [verify()] returns after it. *)
Theorem expected_test_is_checked_at_call name event test other :
  other <> test ->
  let mock := setExpect event test (new name) in
  outcome (notified event other) mock = Thrown (name ++ ": bad test")
  /\ outcome (notified event test) mock = Returned tt
  /\ outcome (notified event test ;; verify) mock = Returned tt
  /\ outcome (notified event test ;; notified event test) mock
     = Thrown (name ++ ": unexpected call")
  /\ outcome verify (state_after (notified event other) mock) = Returned tt.
Proof.
  intros Hother mock.
  assert (Hne : (test =? other)%N = false)
    by (apply N.eqb_neq; congruence).
  unfold outcome, state_after, bind.
  destruct event; cbn; rewrite ?Hne, ?N.eqb_refl; cbn;
    repeat apply conj; reflexivity.
Qed.

Lemma expected_test_is_checked_at_call_witness :
  let mock := setExpect EndSuite 3%N (new "listener") in
  outcome (notified EndSuite 4%N) mock = Thrown "listener: bad test"
  /\ outcome (notified EndSuite 3%N) mock = Returned tt
  /\ outcome (notified EndSuite 3%N ;; verify) mock = Returned tt
  /\ outcome (notified EndSuite 3%N ;; notified EndSuite 3%N) mock
     = Thrown "listener: unexpected call"
  /\ outcome verify (state_after (notified EndSuite 4%N) mock) = Returned tt.
Proof.
  apply (@expected_test_is_checked_at_call "listener" EndSuite 3%N 4%N).
  discriminate.
Defined.

End MockFacts.

(** ** DllPlugInTester.cpp *)

Module TesterFacts.
Import Tester.

Local Open Scope string_scope.
Local Open Scope list_scope.
Local Open Scope eff_scope.

(** *** Counting in a log *)

Lemma count_app p (a b : list Event) : count p (a ++ b) = count p a + count p b.
Proof. unfold count. now rewrite filter_app, length_app. Qed.

Lemma held_app o (a b : list Object) : held o (a ++ b) = held o a + held o b.
Proof. unfold held. now rewrite filter_app, length_app. Qed.

Lemma loads_app (a b : list Event) : loads (a ++ b) = loads a ++ loads b.
Proof.
  induction a as [|e a IH]; [reflexivity|].
  destruct e; simpl; now rewrite ?IH.
Qed.

Lemma runs_app (a b : list Event) : runs (a ++ b) = runs a ++ runs b.
Proof.
  induction a as [|e a IH]; [reflexivity|].
  destruct e; simpl; now rewrite ?IH.
Qed.

Lemma Object_eqb_eq a b : Object_eqb a b = true <-> a = b.
Proof. destruct a, b; simpl; split; congruence. Qed.

(** The destructions that close a block. *)
Lemma destroyed_closing o (declared : list Object) :
  destroyed o (map Destroy declared) = held o declared.
Proof.
  induction declared as [|d declared IH]; [reflexivity|].
  unfold destroyed, count, held in *. simpl.
  destruct (Object_eqb o d); simpl; now rewrite IH.
Qed.

Lemma count_closing p (declared : list Object) :
  (forall o, p (Destroy o) = false) -> count p (map Destroy declared) = 0.
Proof.
  intros Hp. induction declared as [|d declared IH]; [reflexivity|].
  unfold count in *. simpl. now rewrite Hp.
Qed.

Lemma loads_closing (declared : list Object) : loads (map Destroy declared) = [].
Proof. induction declared; simpl; auto. Qed.

Lemma runs_closing (declared : list Object) : runs (map Destroy declared) = [].
Proof. induction declared; simpl; auto. Qed.

(** *** Stretches of code *)

Lemma steps_bind {A B} (c : Code A) (k : A -> Code B) a n1 d1 r n2 d2 :
  steps c (Returned a) n1 d1 ->
  steps (k a) r n2 d2 ->
  steps (bind c k) r (n2 ++ n1) (d1 ++ d2).
Proof.
  intros Hc Hk f. unfold bind. rewrite Hc, Hk. cbn.
  now rewrite !app_assoc.
Qed.

Lemma steps_bind_thrown {A B} (c : Code A) (k : A -> Code B) e n d :
  steps c (Thrown e) n d -> steps (bind c k) (Thrown e) n d.
Proof. intros Hc f. unfold bind. now rewrite Hc. Qed.

Lemma steps_block {A} (c : Code A) r n d :
  steps c r n d -> steps (block c) r [] (d ++ map Destroy n).
Proof.
  intros Hc f. unfold block. rewrite Hc. cbn.
  now rewrite app_nil_r, app_assoc.
Qed.

Lemma scoped_app n1 d1 n2 d2 :
  scoped n1 d1 -> scoped n2 d2 -> scoped (n2 ++ n1) (d1 ++ d2).
Proof.
  intros (Hb1 & Hd1 & Hr1) (Hb2 & Hd2 & Hr2). repeat split.
  - intros o Ho. unfold constructed, destroyed in *.
    rewrite !count_app, held_app. specialize (Hb1 o Ho). specialize (Hb2 o Ho).
    lia.
  - intros o Ho Ho'. unfold destroyed in *.
    rewrite count_app, (Hd1 o Ho Ho'), (Hd2 o Ho Ho'). reflexivity.
  - rewrite !count_app. lia.
Qed.

(** Closing the block turns a scoped stretch into a tidy one. *)
Lemma tidy_closing n d :
  scoped n d ->
  held plugInManager n = 0 ->
  (forall o, In o result_objects -> held o n = 1) ->
  tidy (d ++ map Destroy n).
Proof.
  intros (Hb & Hd & Hr) Hmanager Hresults.
  assert (Hc : forall o, constructed o (d ++ map Destroy n) = constructed o d).
  { intros o. unfold constructed. rewrite count_app, count_closing; [lia|].
    reflexivity. }
  assert (Hd' : forall o, destroyed o (d ++ map Destroy n)
                          = destroyed o d + held o n).
  { intros o. unfold destroyed. rewrite count_app.
    now rewrite <- destroyed_closing. }
  unfold tidy. rewrite !Hc, !Hd'. repeat split.
  - rewrite Hb by discriminate. rewrite Hd by discriminate. lia.
  - rewrite Hd by discriminate. lia.
  - rewrite Hc, Hb, Hd, (Hresults o H);
      try reflexivity; intros ->; simpl in H; intuition discriminate.
  - rewrite Hd', Hd, (Hresults o H);
      try reflexivity; intros ->; simpl in H; intuition discriminate.
  - intros o Ho. rewrite Hc, Hd'. now apply Hb.
  - rewrite !count_app, !count_closing by reflexivity. lia.
Qed.

Section Environment.
Variable load_failure : string -> string -> option string.
Variable test_run : list CommandLinePlugInInfo -> string -> option bool.
Variable parse : string -> list string -> string + CommandLineParser.

Local Abbreviation load := (Tester.load load_failure).
Local Abbreviation load_plugIns := (Tester.load_plugIns load_failure).
Local Abbreviation all_load := (Tester.all_load load_failure).
Local Abbreviation run_and_report := (Tester.run_and_report test_run).
Local Abbreviation passed := (Tester.passed test_run).
Local Abbreviation inner_block := (Tester.inner_block load_failure test_run).
Local Abbreviation runTests := (Tester.runTests load_failure test_run).
Local Abbreviation main := (Tester.main load_failure test_run parse).

(** Solves [steps c r ?declared ?log] for straight-line code by running it. *)
Ltac run_code :=
  intros ?f; cbn; rewrite <- ?app_assoc; cbn; reflexivity.

(** Solves [scoped declared log] for an explicit log. *)
Ltac count_log :=
  repeat split;
  try (intros [] ? ; try reflexivity; congruence);
  try (intros [] ? ?; try reflexivity; congruence);
  try reflexivity.

(** *** The three stretches of the inner block *)

(** Setting up never throws; it declares the seven objects of
    [result_objects] and touches no plug-in. *)
Lemma set_up_steps parser :
  exists streams log,
    steps (set_up parser) (Returned streams) (rev result_objects) log
    /\ scoped (rev result_objects) log
    /\ loads log = [] /\ runs log = [].
Proof.
  unfold set_up.
  destruct (empty (getXmlFileName parser)), (useBriefTestProgress parser),
    (noTestProgress parser), (useCoutStream parser);
    do 2 eexists; (split; [run_code | count_log]).
Qed.

(** One turn of the loading loop. *)
Lemma load_steps info :
  load_failure (m_fileName info) (m_parameters info) = None ->
  steps (block (declare plugIn ;; load (m_fileName info) (m_parameters info)))
    (Returned tt) [] (loading [info]).
Proof.
  intros H f. unfold block, Tester.load. cbn. rewrite H. cbn.
  now rewrite <- ?app_assoc.
Qed.

Lemma load_steps_thrown info cause :
  load_failure (m_fileName info) (m_parameters info) = Some cause ->
  steps (block (declare plugIn ;; load (m_fileName info) (m_parameters info)))
    (Thrown (DynamicLibraryManagerException (m_fileName info) cause)) []
    (loading [info]).
Proof.
  intros H f. unfold block, Tester.load. cbn. rewrite H. cbn.
  now rewrite <- ?app_assoc.
Qed.

Lemma loading_app a b : loading (a ++ b) = loading a ++ loading b.
Proof. unfold loading. now rewrite flat_map_app. Qed.

(** The loop gets through a list of plug-ins that all load. *)
Lemma load_plugIns_steps l :
  all_load l -> steps (load_plugIns l) (Returned tt) [] (loading l).
Proof.
  induction l as [|info rest IH]; intros Hall.
  - intros [declared log]. cbn. now rewrite app_nil_r.
  - cbn [Tester.load_plugIns].
    change (loading (info :: rest)) with (loading [info] ++ loading rest).
    change (@nil Object) with (@nil Object ++ @nil Object).
    eapply steps_bind.
    + apply load_steps, Hall. now left.
    + apply IH. intros i Hi. apply Hall. now right.
Qed.

(** The loop stops at the first plug-in that does not load: it throws what
    [load] threw for it, and the plug-ins after it are not touched. *)
Lemma load_plugIns_steps_thrown before bad after cause :
  all_load before ->
  load_failure (m_fileName bad) (m_parameters bad) = Some cause ->
  steps (load_plugIns (before ++ bad :: after))
    (Thrown (DynamicLibraryManagerException (m_fileName bad) cause)) []
    (loading (before ++ [bad])).
Proof.
  intros Hall Hbad. induction before as [|info rest IH].
  - cbn [app Tester.load_plugIns]. apply steps_bind_thrown.
    now apply load_steps_thrown.
  - cbn [app Tester.load_plugIns].
    change (loading (info :: rest ++ [bad]))
      with (loading [info] ++ loading (rest ++ [bad])).
    change (@nil Object) with (@nil Object ++ @nil Object).
    eapply steps_bind.
    + apply load_steps, Hall. now left.
    + apply IH. intros i Hi. apply Hall. now right.
Qed.

Lemma loading_scoped l : scoped [] (loading l).
Proof.
  induction l as [|info rest IH].
  - count_log.
  - change (loading (info :: rest)) with (loading [info] ++ loading rest).
    change (@nil Object) with (@nil Object ++ @nil Object).
    apply scoped_app; [|exact IH]. count_log.
Qed.

Lemma loading_loads l : loads (loading l) = l.
Proof.
  induction l as [|[fileName parameters] rest IH]; [reflexivity|].
  change (loading (?i :: rest)) with (loading [i] ++ loading rest).
  now rewrite loads_app, IH.
Qed.

Lemma loading_runs l : runs (loading l) = [].
Proof.
  induction l as [|info rest IH]; [reflexivity|].
  change (loading (info :: rest)) with (loading [info] ++ loading rest).
  now rewrite runs_app, IH.
Qed.

(** Either every plug-in loads, or there is a first one that does not. *)
Lemma first_load_failure l :
  all_load l
  \/ exists before bad after cause,
       l = before ++ bad :: after
       /\ all_load before
       /\ load_failure (m_fileName bad) (m_parameters bad) = Some cause.
Proof.
  induction l as [|info rest IH].
  - left. intros i [].
  - destruct (load_failure (m_fileName info) (m_parameters info)) as [cause|] eqn:H.
    + right. exists [], info, rest, cause. repeat split; auto. intros i [].
    + destruct IH as [Hall | (before & bad & after & cause & -> & Hall & Hbad)].
      * left. intros i [<- | Hi]; auto.
      * right. exists (info :: before), bad, after, cause. repeat split; auto.
        intros i [<- | Hi]; auto.
Qed.

(** Running and reporting never throws: an unresolved path is caught on the
    spot.  It declares the runner, runs once, and unregisters what it
    registered. *)
Lemma run_and_report_steps parser stream xmlStream :
  exists log,
    steps (run_and_report parser stream xmlStream false)
      (Returned (passed parser)) [runner] log
    /\ scoped [runner] log
    /\ loads log = [] /\ runs log = [getTestPath parser].
Proof.
  unfold Tester.run_and_report, Tester.run, Tester.passed, try_catch.
  destruct (test_run (plugIns parser) (getTestPath parser)) as [[|]|],
    (useCompilerOutputter parser), (useTextOutputter parser),
    (useXmlOutputter parser), (empty (getXmlFileName parser));
    eexists; (split; [run_code | count_log]).
Qed.

(** *** The inner block *)

Lemma held_results o : In o result_objects -> held o (rev result_objects) = 1.
Proof.
  simpl. intros H.
  repeat (destruct H as [<- | H]; [reflexivity|]). destruct H.
Qed.

(** When every plug-in loads, the inner block returns what the run
    answered and leaves nothing behind. *)
Lemma inner_block_steps parser :
  all_load (plugIns parser) ->
  exists log,
    steps (inner_block parser false) (Returned (passed parser)) [] log
    /\ tidy log
    /\ loads log = plugIns parser /\ runs log = [getTestPath parser].
Proof.
  intros Hall.
  destruct (set_up_steps parser) as (streams & d1 & H1 & S1 & L1 & R1).
  destruct (run_and_report_steps parser (fst streams) (snd streams))
    as (d3 & H3 & S3 & L3 & R3).
  exists ((d1 ++ loading (plugIns parser) ++ d3)
          ++ map Destroy (([runner] ++ []) ++ rev result_objects)).
  split; [|split; [|split]].
  - apply steps_block. eapply steps_bind; [exact H1|].
    eapply steps_bind; [now apply load_plugIns_steps | exact H3].
  - apply tidy_closing.
    + apply scoped_app; [exact S1|].
      apply scoped_app; [apply loading_scoped | exact S3].
    + reflexivity.
    + intros o Ho. rewrite held_app, (held_results Ho).
      simpl in Ho. now repeat (destruct Ho as [<- | Ho]; [reflexivity|]).
  - rewrite !loads_app, loads_closing, L1, L3, loading_loads.
    now rewrite !app_nil_r.
  - rewrite !runs_app, runs_closing, R1, R3, loading_runs. reflexivity.
Qed.

(** When a plug-in does not load, the inner block lets the exception
    through after destroying what it had declared; nothing was run. *)
Lemma inner_block_steps_thrown parser before bad after cause :
  plugIns parser = before ++ bad :: after ->
  all_load before ->
  load_failure (m_fileName bad) (m_parameters bad) = Some cause ->
  exists log,
    steps (inner_block parser false)
      (Thrown (DynamicLibraryManagerException (m_fileName bad) cause)) [] log
    /\ tidy log
    /\ loads log = before ++ [bad] /\ runs log = [].
Proof.
  intros Hlist Hall Hbad.
  destruct (set_up_steps parser) as (streams & d1 & H1 & S1 & L1 & R1).
  exists ((d1 ++ loading (before ++ [bad]))
          ++ map Destroy ([] ++ rev result_objects)).
  split; [|split; [|split]].
  - apply steps_block. eapply steps_bind; [exact H1|].
    apply steps_bind_thrown. rewrite Hlist.
    now apply load_plugIns_steps_thrown.
  - apply tidy_closing.
    + apply scoped_app; [exact S1 | apply loading_scoped].
    + reflexivity.
    + intros o Ho. now rewrite held_app, (held_results Ho).
  - rewrite !loads_app, loads_closing, L1, loading_loads.
    now rewrite !app_nil_r.
  - rewrite !runs_app, runs_closing, R1, loading_runs. reflexivity.
Qed.

(** *** [runTests] *)

(** Whatever the inner block does, [runTests] constructs the manager before
    it and destroys the manager after it. *)
Lemma runTests_steps parser (r : Outcome Exception bool) log :
  steps (inner_block parser false) r [] log ->
  steps (runTests parser) r []
    (Construct plugInManager :: log ++ [Destroy plugInManager]).
Proof.
  intros Hinner f. unfold Tester.runTests, block, bind, declare, modify.
  rewrite Hinner. cbn.
  destruct r as [wasSuccessful|e]; cbn; now rewrite <- !app_assoc.
Qed.

(** One of two things happens in [runTests]. *)
Lemma runTests_cases parser :
  (all_load (plugIns parser)
   /\ exists log,
        steps (runTests parser) (Returned (passed parser)) []
          (Construct plugInManager :: log ++ [Destroy plugInManager])
        /\ tidy log
        /\ loads log = plugIns parser /\ runs log = [getTestPath parser])
  \/ (exists before bad after cause,
        plugIns parser = before ++ bad :: after
        /\ all_load before
        /\ load_failure (m_fileName bad) (m_parameters bad) = Some cause
        /\ exists log,
             steps (runTests parser)
               (Thrown (DynamicLibraryManagerException (m_fileName bad) cause))
               [] (Construct plugInManager :: log ++ [Destroy plugInManager])
             /\ tidy log
             /\ loads log = before ++ [bad] /\ runs log = []).
Proof.
  destruct (first_load_failure (plugIns parser))
    as [Hall | (before & bad & after & cause & Hlist & Hall & Hbad)].
  - left. split; [exact Hall|].
    destruct (inner_block_steps parser Hall) as (log & Hsteps & Hrest).
    exists log. split; [now apply runTests_steps | exact Hrest].
  - right. exists before, bad, after, cause. repeat split; try assumption.
    destruct (inner_block_steps_thrown parser _ _ Hlist Hall Hbad)
      as (log & Hsteps & Hrest).
    exists log. split; [now apply runTests_steps | exact Hrest].
Qed.

(** The first plug-in that does not load is the same however the list is
    cut. *)
Lemma first_load_failure_unique before bad after cause before' bad' after' cause' :
  before ++ bad :: after = before' ++ bad' :: after' ->
  all_load before ->
  load_failure (m_fileName bad) (m_parameters bad) = Some cause ->
  all_load before' ->
  load_failure (m_fileName bad') (m_parameters bad') = Some cause' ->
  before = before' /\ bad = bad' /\ cause = cause'.
Proof.
  revert before'. induction before as [|x before IH]; intros [|y before'];
    cbn; intros Heq Hall Hbad Hall' Hbad'.
  - injection Heq as -> _. repeat split. congruence.
  - injection Heq as -> _. rewrite (Hall' y (or_introl eq_refl)) in Hbad.
    discriminate.
  - injection Heq as -> _. rewrite (Hall bad' (or_introl eq_refl)) in Hbad'.
    discriminate.
  - injection Heq as -> Heq.
    destruct (IH before' Heq) as (-> & -> & ->); auto.
    + intros i Hi. apply Hall. now right.
    + intros i Hi. apply Hall'. now right.
Qed.

(** *** [main] *)

(** With a command line that parses, [main] comes down to its last three
    statements. *)
Lemma main_parsed applicationName arguments parser :
  arguments <> [] ->
  parse applicationName arguments = inr parser ->
  main applicationName arguments
  = (wasSuccessful <-
       try_catch (runTests parser)
         (fun e =>
            match e with
            | DynamicLibraryManagerException _ _ =>
                Some (emit (print cerr [text "Failed to load test plug-in:";
                                        endl; what_of e; endl]) ;;
                      ret false)
            | _ => None
            end) ;;
     when (waitBeforeExit parser)
       (emit (print cout [text "Please press <RETURN> to exit"; endl]) ;;
        emit cin_get) ;;
     ret (if wasSuccessful then successReturnCode else failureReturnCode)).
Proof.
  intros Hargs Hparse. unfold Tester.main. rewrite Hparse.
  destruct arguments; [contradiction | reflexivity].
Qed.

Lemma main_steps applicationName arguments parser wasSuccessful log :
  arguments <> [] ->
  parse applicationName arguments = inr parser ->
  steps (runTests parser) (Returned wasSuccessful) [] log ->
  exists after,
    steps (main applicationName arguments)
      (Returned (if wasSuccessful then successReturnCode else failureReturnCode))
      [] (log ++ after)
    /\ loads after = [] /\ runs after = [].
Proof.
  intros Hargs Hparse Hsteps. rewrite (main_parsed Hargs Hparse).
  unfold try_catch, bind.
  destruct (waitBeforeExit parser);
    [ exists [print cout [text "Please press <RETURN> to exit"; endl]; cin_get]
    | exists [] ];
    (split; [intros f; rewrite Hsteps; cbn;
             rewrite ?app_nil_r, <- ?app_assoc; reflexivity
            | split; reflexivity]).
Qed.

Lemma main_steps_thrown applicationName arguments parser fileName cause log :
  arguments <> [] ->
  parse applicationName arguments = inr parser ->
  steps (runTests parser)
    (Thrown (DynamicLibraryManagerException fileName cause)) [] log ->
  exists after,
    steps (main applicationName arguments) (Returned failureReturnCode) []
      (log
       ++ print cerr [text "Failed to load test plug-in:"; endl;
                      what_of (DynamicLibraryManagerException fileName cause);
                      endl]
       :: after)
    /\ loads after = [] /\ runs after = [].
Proof.
  intros Hargs Hparse Hsteps. rewrite (main_parsed Hargs Hparse).
  unfold try_catch, bind.
  destruct (waitBeforeExit parser);
    [ exists [print cout [text "Please press <RETURN> to exit"; endl]; cin_get]
    | exists [] ];
    (split; [intros f; rewrite Hsteps; cbn;
             rewrite ?app_nil_r, <- ?app_assoc; reflexivity
            | split; reflexivity]).
Qed.

Lemma steps_trace {A} (c : Code A) r log :
  steps c r [] log -> trace_of c = log /\ outcome c start = r.
Proof. intros H. unfold trace_of, state_after, outcome. now rewrite H. Qed.

(** When every plug-in loads, they were loaded in the order of the command
    line, all of them, and the tests were run once. *)
Lemma plugIns_loaded_in_order applicationName arguments parser :
  arguments <> [] ->
  parse applicationName arguments = inr parser ->
  all_load (plugIns parser) ->
  loads (trace_of (main applicationName arguments)) = plugIns parser
  /\ runs (trace_of (main applicationName arguments)) = [getTestPath parser].
Proof.
  intros Hargs Hparse Hall.
  destruct (inner_block_steps parser Hall) as (log & Hsteps & _ & Hloads & Hruns).
  destruct (main_steps Hargs Hparse (runTests_steps Hsteps))
    as (after & Hmain & Hl & Hr).
  destruct (steps_trace Hmain) as [-> _].
  rewrite loads_app, runs_app, Hl, Hr. cbn.
  rewrite !loads_app, !runs_app, Hloads, Hruns. cbn.
  now rewrite !app_nil_r.
Qed.

(** C6.  The plug-ins are loaded in the order of the command line, and the
    first that does not load ends the batch: the loads the program attempts
    are those of the plug-ins before it and its own, in order, and none
    after; no test is run; the exception thrown for that file, which
    carries its name, reaches [main], which prints it on [cerr] after
    "Failed to load test plug-in:" and exits with the failure code. *)
Theorem load_failure_aborts_batch
  applicationName arguments parser before bad after cause :
  arguments <> [] ->
  parse applicationName arguments = inr parser ->
  plugIns parser = before ++ bad :: after ->
  all_load before ->
  load_failure (m_fileName bad) (m_parameters bad) = Some cause ->
  loads (trace_of (main applicationName arguments)) = before ++ [bad]
  /\ runs (trace_of (main applicationName arguments)) = []
  /\ In (print cerr
           [text "Failed to load test plug-in:"; endl;
            what_of (DynamicLibraryManagerException (m_fileName bad) cause);
            endl])
        (trace_of (main applicationName arguments))
  /\ outcome (main applicationName arguments) start = Returned failureReturnCode.
Proof.
  intros Hargs Hparse Hlist Hall Hbad.
  destruct (inner_block_steps_thrown parser _ _ Hlist Hall Hbad)
    as (log & Hsteps & _ & Hloads & Hruns).
  destruct (main_steps_thrown Hargs Hparse (runTests_steps Hsteps))
    as (rest & Hmain & Hl & Hr).
  destruct (steps_trace Hmain) as [-> ->].
  repeat split.
  - rewrite loads_app. cbn. rewrite loads_app, Hloads, Hl. cbn.
    now rewrite !app_nil_r.
  - rewrite runs_app. cbn. rewrite runs_app, Hruns, Hr. reflexivity.
  - apply in_or_app. right. now left.
Qed.

(** C7.  [main] always exits with one of three codes.  It exits with 2
    exactly when there is no argument or the command line does not parse;
    with 0 exactly when the command line parses, every plug-in loads, the
    test path resolves and the collector reports success; and with 1
    exactly when the command line parses and a plug-in fails to load, or the
    path does not resolve, or the collector reports a failure or an
    error. *)
Theorem exit_code applicationName arguments :
  exists code,
    outcome (main applicationName arguments) start = Returned code
    /\ (code = badCommadLineReturnCode
        <-> arguments = []
            \/ exists message, parse applicationName arguments = inl message)
    /\ (code = successReturnCode
        <-> arguments <> []
            /\ exists parser,
                 parse applicationName arguments = inr parser
                 /\ all_load (plugIns parser)
                 /\ test_run (plugIns parser) (getTestPath parser) = Some true)
    /\ (code = failureReturnCode
        <-> arguments <> []
            /\ exists parser,
                 parse applicationName arguments = inr parser
                 /\ (~ all_load (plugIns parser)
                     \/ test_run (plugIns parser) (getTestPath parser) = None
                     \/ test_run (plugIns parser) (getTestPath parser)
                        = Some false)).
Proof.
  destruct arguments as [|argument arguments].
  { (* argc < 2 *)
    exists badCommadLineReturnCode. unfold outcome, Tester.main. cbn.
    repeat split; auto; try discriminate;
      intros (H & _); now elim H. }
  assert (Hargs : argument :: arguments <> []) by discriminate.
  destruct (parse applicationName (argument :: arguments))
    as [message | parser] eqn:Hparse.
  { (* parser.parse() throws *)
    exists badCommadLineReturnCode. unfold outcome, Tester.main.
    rewrite Hparse. cbn.
    repeat split; eauto; try discriminate;
      intros (_ & p & Hp & _); discriminate Hp. }
  assert (Hparsed : forall p, @inr string _ parser = inr p -> p = parser)
    by (intros p Hp; now injection Hp).
  unfold successReturnCode, failureReturnCode, badCommadLineReturnCode.
  destruct (runTests_cases parser)
    as [(Hall & log & Hsteps & _)
       | (before & bad & after & cause & Hlist & _ & Hbad & log & Hsteps & _)].
  - (* the tests were run *)
    destruct (main_steps Hargs Hparse Hsteps) as (rest & Hmain & _).
    destruct (steps_trace Hmain) as [_ Hcode].
    eexists. split; [exact Hcode|]. unfold Tester.passed.
    unfold successReturnCode, failureReturnCode.
    destruct (test_run (plugIns parser) (getTestPath parser)) as [[|]|] eqn:Hrun.
    + (* the collector reports success *)
      split; [|split]; split; try discriminate; try (intros _; reflexivity).
      * intros [H | (m & H)]; discriminate H.
      * intros _. split; [exact Hargs|]. exists parser.
        split; [reflexivity | split; [exact Hall | exact Hrun]].
      * intros (_ & p & Hp & H). apply Hparsed in Hp. subst p.
        rewrite Hrun in H. destruct H as [H | [H | H]];
          [now elim H | discriminate H | discriminate H].
    + (* the collector reports a failure or an error *)
      split; [|split]; split; try discriminate; try (intros _; reflexivity).
      * intros [H | (m & H)]; discriminate H.
      * intros (_ & p & Hp & _ & H). apply Hparsed in Hp. subst p.
        rewrite Hrun in H. discriminate H.
      * intros _. split; [exact Hargs|]. exists parser. split; [reflexivity|].
        right. right. exact Hrun.
    + (* the test path did not resolve *)
      split; [|split]; split; try discriminate; try (intros _; reflexivity).
      * intros [H | (m & H)]; discriminate H.
      * intros (_ & p & Hp & _ & H). apply Hparsed in Hp. subst p.
        rewrite Hrun in H. discriminate H.
      * intros _. split; [exact Hargs|]. exists parser. split; [reflexivity|].
        right. left. exact Hrun.
  - (* a plug-in did not load *)
    destruct (main_steps_thrown Hargs Hparse Hsteps) as (rest & Hmain & _).
    destruct (steps_trace Hmain) as [_ Hcode].
    assert (Hnot : ~ all_load (plugIns parser)).
    { intros Hall. rewrite Hlist in Hall.
      rewrite (Hall bad) in Hbad; [discriminate|].
      apply in_or_app. right. now left. }
    eexists. split; [exact Hcode|]. unfold failureReturnCode.
    split; [|split]; split; try discriminate; try (intros _; reflexivity).
    + intros [H | (m & H)]; discriminate H.
    + intros (_ & p & Hp & Hall & _). apply Hparsed in Hp. subst p.
      now elim Hnot.
    + intros _. split; [exact Hargs|]. exists parser. split; [reflexivity|].
      now left.
Qed.

End Environment.

(** *** The theorems at work on a command line *)

(** Three plug-ins on the command line, the second of which does not load:
    two loads are attempted, the third plug-in is left alone, no test is
    run. *)
Lemma load_failure_aborts_batch_witness :
  let main :=
    Tester.main sample_load_failure sample_test_run sample_parse
      "DllPlugInTester" sample_arguments in
  loads (trace_of main)
  = [ {| m_fileName := "simple_plugin.so"; m_parameters := "" |};
      {| m_fileName := "missing.so"; m_parameters := "flat" |} ]
  /\ runs (trace_of main) = []
  /\ In (print cerr
           [text "Failed to load test plug-in:"; endl;
            what_of (DynamicLibraryManagerException "missing.so"
                       "cannot open shared object file");
            endl])
        (trace_of main)
  /\ outcome main start = Returned failureReturnCode.
Proof.
  apply (@load_failure_aborts_batch sample_load_failure sample_test_run
           sample_parse "DllPlugInTester" sample_arguments sample_parser
           [ {| m_fileName := "simple_plugin.so"; m_parameters := "" |} ]
           {| m_fileName := "missing.so"; m_parameters := "flat" |}
           [ {| m_fileName := "clocker.so"; m_parameters := "" |} ]
           "cannot open shared object file").
  - discriminate.
  - reflexivity.
  - reflexivity.
  - intros info [<- | []]. reflexivity.
  - reflexivity.
Defined.

(** *** The log of [runTests], piece by piece *)

Section Observations.
Variable load_failure : string -> string -> option string.
Variable test_run : list CommandLinePlugInInfo -> string -> option bool.
Variable parse : string -> list string -> string + CommandLineParser.

Local Abbreviation load_plugIns := (Tester.load_plugIns load_failure).
Local Abbreviation all_load := (Tester.all_load load_failure).
Local Abbreviation all_loadb := (Tester.all_loadb load_failure).
Local Abbreviation run_and_report := (Tester.run_and_report test_run).
Local Abbreviation passed := (Tester.passed test_run).
Local Abbreviation inner_block := (Tester.inner_block load_failure test_run).
Local Abbreviation runTests := (Tester.runTests load_failure test_run).
Local Abbreviation main := (Tester.main load_failure test_run parse).
Local Abbreviation leaked := (Tester.leaked load_failure).

Lemma all_loadb_true l : all_loadb l = true <-> all_load l.
Proof.
  unfold Tester.all_loadb, Tester.all_load. rewrite forallb_forall.
  split; intros H info Hin; specialize (H info Hin);
    now destruct (load_failure (m_fileName info) (m_parameters info)).
Qed.

Lemma streams_of_spec parser :
  streams_of parser
  = let stream := if useCoutStream parser then cout else cerr in
    (stream,
     if empty (getXmlFileName parser) then stream
     else ofstream (getXmlFileName parser)).
Proof.
  unfold streams_of, outcome, set_up.
  now destruct (empty (getXmlFileName parser)), (useBriefTestProgress parser),
    (noTestProgress parser), (useCoutStream parser).
Qed.

(** Setting up does the same from any frame: what it logs is what it logs
    from scratch. *)
Lemma set_up_uniform parser :
  steps (set_up parser) (Returned (streams_of parser)) (rev result_objects)
    (trace_of (set_up parser)).
Proof.
  unfold streams_of, trace_of, state_after, outcome, set_up.
  destruct (empty (getXmlFileName parser)), (useBriefTestProgress parser),
    (noTestProgress parser), (useCoutStream parser);
    intros f; cbn; rewrite <- ?app_assoc; reflexivity.
Qed.

Lemma run_and_report_uniform parser stream xmlStream :
  steps (run_and_report parser stream xmlStream false)
    (Returned (passed parser)) [runner]
    (trace_of (run_and_report parser stream xmlStream false)).
Proof.
  unfold trace_of, state_after, Tester.run_and_report, Tester.run,
    Tester.passed, try_catch.
  destruct (test_run (plugIns parser) (getTestPath parser)) as [[|]|],
    (useCompilerOutputter parser), (useTextOutputter parser),
    (useXmlOutputter parser), (empty (getXmlFileName parser));
    intros f; cbn; rewrite <- ?app_assoc; reflexivity.
Qed.

(** The log of [runTests] in full: the manager, the setting up, the loading
    as far as it gets, the run and the reports if it gets through, the
    destructions that close the inner block, the manager. *)
Lemma runTests_log parser :
  exists r body declared,
    steps (runTests parser) r []
      (Construct plugInManager
       :: ((trace_of (set_up parser) ++ body)
           ++ map Destroy (declared ++ rev result_objects))
       ++ [Destroy plugInManager])
    /\ ((all_loadb (plugIns parser) = true
         /\ r = Returned (passed parser)
         /\ body = loading (plugIns parser)
                   ++ trace_of (run_and_report parser (fst (streams_of parser))
                                  (snd (streams_of parser)) false)
         /\ declared = [runner])
        \/ (all_loadb (plugIns parser) = false
            /\ exists before bad after cause,
                 plugIns parser = before ++ bad :: after
                 /\ all_load before
                 /\ load_failure (m_fileName bad) (m_parameters bad) = Some cause
                 /\ r = Thrown (DynamicLibraryManagerException
                                  (m_fileName bad) cause)
                 /\ body = loading (before ++ [bad])
                 /\ declared = [])).
Proof.
  destruct (first_load_failure load_failure (plugIns parser))
    as [Hall | (before & bad & after & cause & Hlist & Hall & Hbad)].
  - exists (Returned (passed parser)),
      (loading (plugIns parser)
       ++ trace_of (run_and_report parser (fst (streams_of parser))
                      (snd (streams_of parser)) false)),
      [runner].
    split.
    + apply runTests_steps. unfold Tester.inner_block.
      apply steps_block.
      eapply steps_bind; [apply set_up_uniform|].
      change [runner] with ([runner] ++ @nil Object).
      eapply steps_bind; [now apply load_plugIns_steps|].
      apply run_and_report_uniform.
    + left. repeat split. now apply all_loadb_true.
  - exists (Thrown (DynamicLibraryManagerException (m_fileName bad) cause)),
      (loading (before ++ [bad])), [].
    split.
    + apply runTests_steps. unfold Tester.inner_block.
      apply steps_block.
      eapply steps_bind; [apply set_up_uniform|].
      apply steps_bind_thrown. rewrite Hlist.
      now apply load_plugIns_steps_thrown.
    + right. split.
      * destruct (all_loadb (plugIns parser)) eqn:Hb; [|reflexivity].
        apply all_loadb_true in Hb. rewrite Hlist in Hb.
        rewrite (Hb bad) in Hbad; [discriminate|].
        apply in_or_app. right. now left.
      * exists before, bad, after, cause. now repeat split.
Qed.

(** *** Lifetimes *)

Lemma lifetimes_app live a b :
  lifetimes live (a ++ b)
  = match lifetimes live a with
    | Some live' => lifetimes live' b
    | None => None
    end.
Proof.
  revert live. induction a as [|e a IH]; intros live; [reflexivity|].
  cbn [app lifetimes]. destruct (lifetime_step live e); auto.
Qed.

(** What [lifetimes] refuses: hooks left on an outputter that is destroyed,
    listeners taken back before they were registered, a manager destroyed
    before the [TestResult], a run without the listeners of the plug-ins. *)
Lemma lifetimes_out_of_turn :
  lifetimes [] [Construct plugInManager; Construct xmlOutputter;
                plugInManager_addXmlOutputterHooks;
                Destroy xmlOutputter; Destroy plugInManager] = None
  /\ lifetimes [] [Construct plugInManager; Construct controller;
                   plugInManager_removeListener; plugInManager_addListener;
                   Destroy controller; Destroy plugInManager] = None
  /\ lifetimes [] [Construct plugInManager; Construct controller;
                   Destroy plugInManager; Destroy controller] = None
  /\ lifetimes [] [Construct plugInManager; Construct controller;
                   Construct runner; runner_run "";
                   Destroy runner; Destroy controller;
                   Destroy plugInManager] = None
  /\ lifetimes [] [Construct plugInManager; Construct controller;
                   plugInManager_addListener; plugInManager_removeListener;
                   plugInManager_removeListener;
                   Destroy controller; Destroy plugInManager] = None.
Proof. repeat apply conj; reflexivity. Qed.

Lemma set_up_lifetimes parser :
  lifetimes [object plugInManager] (trace_of (set_up parser))
  = Some (set_up_lives (negb (empty (getXmlFileName parser)))).
Proof.
  unfold trace_of, state_after, set_up.
  now destruct (empty (getXmlFileName parser)), (useBriefTestProgress parser),
    (noTestProgress parser), (useCoutStream parser).
Qed.

(** The loading loop leaves nothing live, as far as it gets. *)
Lemma loading_lifetimes l withStream :
  lifetimes (set_up_lives withStream) (loading l)
  = Some (set_up_lives withStream).
Proof.
  induction l as [|info l IH]; [reflexivity|].
  change (loading (info :: l)) with (loading [info] ++ loading l).
  rewrite lifetimes_app.
  replace (lifetimes (set_up_lives withStream) (loading [info]))
    with (Some (set_up_lives withStream))
    by (now destruct withStream).
  exact IH.
Qed.

(** The run and the reports: the listeners of the plug-ins are there for
    the run and gone after it, their hooks are there for the XML report and
    gone after it, and the stream of the XML file is deleted. *)
Lemma run_and_report_lifetimes parser stream xmlStream :
  lifetimes (set_up_lives (negb (empty (getXmlFileName parser))))
    (trace_of (run_and_report parser stream xmlStream false))
  = Some (set_up_lives false ++ [object runner]).
Proof.
  unfold trace_of, state_after, Tester.run_and_report, Tester.run, try_catch.
  now destruct (test_run (plugIns parser) (getTestPath parser)) as [[|]|],
    (useCompilerOutputter parser), (useTextOutputter parser),
    (useXmlOutputter parser), (empty (getXmlFileName parser)).
Qed.

(** C3.  In [runTests] the [PlugInManager] is the first object constructed
    and the last destroyed, whatever the command line, whether or not the
    plug-ins load and whether or not the test path resolves, and when it is
    destroyed nothing that holds what the plug-ins allocated is left: the
    [TestResult], the collector, the three outputters, the two progress
    listeners and the runner have been destroyed, the listeners the
    plug-ins registered on the [TestResult] have been taken off it before
    it was destroyed, and their hooks off the XML outputter.  All along,
    nothing begins twice or without what it needs, nothing ends that does
    not live or that is still needed, nothing is worked on that does not
    live: the listeners of the plug-ins are on the [TestResult] during the
    run, their hooks on the outputter while the XML report is written.
    What is left live in the end is nothing, or the stream of the XML file
    when a plug-in did not load, an object of the executable.  Between the
    construction and the destruction of the manager, the manager is not
    touched; the [TestResult], the collector, the outputters and the
    progress listeners are each constructed once and destroyed once; every
    automatic object that was constructed is destroyed; and as many
    registrations are made as are removed. *)
Theorem manager_destroyed_last parser :
  exists inner,
    trace_of (runTests parser)
    = Construct plugInManager :: inner ++ [Destroy plugInManager]
    /\ tidy inner
    /\ lifetimes [] (Construct plugInManager :: inner)
       = Some (object plugInManager :: leaked parser)
    /\ lifetimes [] (trace_of (runTests parser)) = Some (leaked parser).
Proof.
  destruct (runTests_log parser) as (r & body & declared & Hsteps & Hcase).
  destruct (steps_trace Hsteps) as [Htrace _].
  exists ((trace_of (set_up parser) ++ body)
          ++ map Destroy (declared ++ rev result_objects)).
  assert (Hlive : lifetimes []
                    (Construct plugInManager
                     :: (trace_of (set_up parser) ++ body)
                        ++ map Destroy (declared ++ rev result_objects))
                  = Some (object plugInManager :: leaked parser)).
  { cbn [lifetimes].
    change (lifetime_step [] (Construct plugInManager))
      with (Some [object plugInManager]).
    cbn iota. rewrite !lifetimes_app, set_up_lifetimes.
    unfold Tester.leaked.
    destruct Hcase
      as [(Hb & _ & -> & ->)
         | (Hb & before & bad & after & cause & _ & _ & _ & _ & -> & ->)];
      rewrite Hb.
    - rewrite lifetimes_app, loading_lifetimes, run_and_report_lifetimes.
      rewrite andb_false_r. reflexivity.
    - rewrite loading_lifetimes.
      now destruct (empty (getXmlFileName parser)). }
  split; [exact Htrace|].
  split; [|split; [exact Hlive|]].
  - destruct (runTests_cases load_failure test_run parser)
      as [(_ & log & Hsteps' & Htidy & _)
         | (before & bad & after & cause & _ & _ & _ & log & Hsteps' & Htidy & _)];
      destruct (steps_trace Hsteps') as [Htrace' _];
      rewrite Htrace in Htrace'; injection Htrace' as Heq;
      apply app_inj_tail in Heq as [<- _]; exact Htidy.
  - rewrite Htrace.
    change (Construct plugInManager
            :: ((trace_of (set_up parser) ++ body)
                ++ map Destroy (declared ++ rev result_objects))
               ++ [Destroy plugInManager])
      with ((Construct plugInManager
             :: (trace_of (set_up parser) ++ body)
                ++ map Destroy (declared ++ rev result_objects))
            ++ [Destroy plugInManager]).
    rewrite lifetimes_app, Hlive. unfold Tester.leaked.
    now destruct (negb (empty (getXmlFileName parser))
                  && negb (all_loadb (plugIns parser))).
Qed.

(** *** What each piece shows *)

Lemma listeners_app a b : listeners (a ++ b) = listeners a ++ listeners b.
Proof. apply flat_map_app. Qed.

Lemma writes_app a b : writes (a ++ b) = writes a ++ writes b.
Proof. apply flat_map_app. Qed.

Lemma prints_app a b : prints (a ++ b) = prints a ++ prints b.
Proof. apply flat_map_app. Qed.

Lemma plugIn_dealings_app a b :
  plugIn_dealings (a ++ b) = plugIn_dealings a ++ plugIn_dealings b.
Proof. apply filter_app. Qed.

(** The seven things read off a log in what follows. *)
Ltac split_log :=
  unfold constructed, destroyed;
  rewrite ?listeners_app, ?writes_app, ?prints_app, ?plugIn_dealings_app,
    ?count_app.

Lemma closing_observed (declared : list Object) :
  listeners (map Destroy declared) = []
  /\ writes (map Destroy declared) = []
  /\ prints (map Destroy declared) = []
  /\ plugIn_dealings (map Destroy declared) = []
  /\ count is_cin_get (map Destroy declared) = 0
  /\ constructed xmlStream (map Destroy declared) = 0.
Proof.
  induction declared as [|o declared (H1 & H2 & H3 & H4 & H5 & H6)];
    repeat split; cbn; auto.
Qed.

Lemma loading_observed l :
  listeners (loading l) = []
  /\ writes (loading l) = []
  /\ prints (loading l) = []
  /\ plugIn_dealings (loading l) = map load_of l
  /\ count is_cin_get (loading l) = 0
  /\ constructed xmlStream (loading l) = 0
  /\ destroyed xmlStream (loading l) = 0.
Proof.
  induction l as [|info l (H1 & H2 & H3 & H4 & H5 & H6 & H7)];
    repeat split; cbn; auto.
  now rewrite <- H4.
Qed.

Lemma set_up_observed parser :
  listeners (trace_of (set_up parser))
  = result :: (if useBriefTestProgress parser then [briefListener]
               else if noTestProgress parser then [] else [dotListener])
  /\ writes (trace_of (set_up parser)) = []
  /\ prints (trace_of (set_up parser)) = []
  /\ plugIn_dealings (trace_of (set_up parser)) = []
  /\ count is_cin_get (trace_of (set_up parser)) = 0
  /\ constructed xmlStream (trace_of (set_up parser))
     = (if empty (getXmlFileName parser) then 0 else 1)
  /\ destroyed xmlStream (trace_of (set_up parser)) = 0.
Proof.
  unfold trace_of, state_after, set_up.
  destruct (empty (getXmlFileName parser)), (useBriefTestProgress parser),
    (noTestProgress parser), (useCoutStream parser);
    repeat split.
Qed.

Lemma run_and_report_observed parser stream xmlStream :
  let log := trace_of (run_and_report parser stream xmlStream false) in
  listeners log = []
  /\ writes log
     = (if useCompilerOutputter parser then [(compilerOutputter, stream)] else [])
       ++ (if useTextOutputter parser then [(textOutputter, stream)] else [])
       ++ (if useXmlOutputter parser then [(xmlOutputter, xmlStream)] else [])
  /\ prints log
     = match test_run (plugIns parser) (getTestPath parser) with
       | Some _ => []
       | None => [(cerr, [text "Failed to resolve test path: ";
                          text (getTestPath parser); endl])]
       end
  /\ plugIn_dealings log
     = [plugInManager_addListener; runner_run (getTestPath parser);
        plugInManager_removeListener]
       ++ (if useXmlOutputter parser
           then [plugInManager_addXmlOutputterHooks;
                 write xmlOutputter xmlStream;
                 plugInManager_removeXmlOutputterHooks]
           else [])
  /\ count is_cin_get log = 0
  /\ constructed Tester.xmlStream log = 0
  /\ destroyed Tester.xmlStream log
     = (if empty (getXmlFileName parser) then 0 else 1).
Proof.
  unfold trace_of, state_after, Tester.run_and_report, Tester.run, try_catch.
  destruct (test_run (plugIns parser) (getTestPath parser)) as [[|]|],
    (useCompilerOutputter parser), (useTextOutputter parser),
    (useXmlOutputter parser), (empty (getXmlFileName parser));
    repeat split.
Qed.

Lemma attempted_all l : all_load l -> attempted load_failure l = l.
Proof.
  induction l as [|info l IH]; intros Hall; [reflexivity|].
  cbn. rewrite (Hall info (or_introl eq_refl)), IH; [reflexivity|].
  intros i Hi. apply Hall. now right.
Qed.

Lemma attempted_first_failure before bad after cause :
  all_load before ->
  load_failure (m_fileName bad) (m_parameters bad) = Some cause ->
  attempted load_failure (before ++ bad :: after) = before ++ [bad].
Proof.
  intros Hall Hbad. induction before as [|info before IH]; cbn.
  - now rewrite Hbad.
  - rewrite (Hall info (or_introl eq_refl)), IH; [reflexivity|].
    intros i Hi. apply Hall. now right.
Qed.

(** Brings the log of [runTests] and what its pieces show into the goal. *)
Ltac open_log parser :=
  let Hsteps := fresh "Hsteps" in
  let Hcase := fresh "Hcase" in
  destruct (runTests_log parser) as (?r & ?body & ?declared & Hsteps & Hcase);
  destruct (steps_trace Hsteps) as [-> ?Houtcome]; rewrite ?Houtcome;
  match goal with
  | |- context [Construct plugInManager :: ?log] =>
      change (Construct plugInManager :: log)
        with ([Construct plugInManager] ++ log)
  end;
  split_log;
  match goal with
  | |- context [map Destroy ?declared] =>
      destruct (closing_observed declared) as (? & ? & ? & ? & ? & ?)
  end;
  destruct (set_up_observed parser) as (? & ? & ? & ? & ? & ? & ?);
  destruct (run_and_report_observed parser (fst (streams_of parser))
              (snd (streams_of parser))) as (? & ? & ? & ? & ? & ? & ?);
  destruct Hcase
    as [(?Hb & ? & -> & ->)
       | (?Hb & ?before & ?bad & ?after & ?cause & ?Hlist & ?Hall & ?Hbad
          & ? & -> & ->)];
  split_log;
  match goal with
  | |- context [loading ?l] =>
      destruct (loading_observed l) as (? & ? & ? & ? & ? & ? & ?)
  end.

(** *** What [runTests] does around the run *)

(** X14.  The reports are written once the plug-ins are loaded, whether or
    not the test path resolved and whatever the tests did: the compiler
    report, the text report and the XML report, in this order, each if its
    option is set; the first two on [cout] if asked and on [cerr] otherwise,
    the third in the XML file if one was named and on that same stream
    otherwise.  When a plug-in does not load, no report is written. *)
Theorem reports_are_written_after_the_run parser :
  writes (trace_of (runTests parser))
  = if all_loadb (plugIns parser) then
      let stream := if useCoutStream parser then cout else cerr in
      let xmlStream := if empty (getXmlFileName parser) then stream
                       else ofstream (getXmlFileName parser) in
      (if useCompilerOutputter parser then [(compilerOutputter, stream)] else [])
      ++ (if useTextOutputter parser then [(textOutputter, stream)] else [])
      ++ (if useXmlOutputter parser then [(xmlOutputter, xmlStream)] else [])
    else [].
Proof.
  open_log parser; rewrite Hb;
    repeat match goal with H : writes _ = _ |- _ => rewrite H; clear H end.
  - rewrite streams_of_spec. cbn. now rewrite !app_nil_r.
  - reflexivity.
Qed.

(** X15.  The collector is the first listener of the controller, and at
    most one progress listener follows it: the brief one if it was asked
    for, even if no progress was asked for too; otherwise the dotted one,
    unless no progress was asked for.  This holds however [runTests]
    ends. *)
Theorem one_progress_listener_at_most parser :
  listeners (trace_of (runTests parser))
  = result :: (if useBriefTestProgress parser then [briefListener]
               else if noTestProgress parser then [] else [dotListener]).
Proof.
  open_log parser;
    repeat match goal with H : listeners _ = _ |- _ => rewrite H; clear H end;
    cbn; now rewrite !app_nil_r.
Qed.

(** X16.  The stream of the XML file is allocated once when a file name
    was given and never otherwise, whether or not the plug-ins load.  It is
    deleted, once, only when every plug-in loads: when one does not, the
    stream that was allocated is not deleted. *)
Theorem xml_stream_is_not_deleted_when_loading_fails parser :
  constructed xmlStream (trace_of (runTests parser))
  = (if empty (getXmlFileName parser) then 0 else 1)
  /\ destroyed xmlStream (trace_of (runTests parser))
     = (if empty (getXmlFileName parser) then 0
        else if all_loadb (plugIns parser) then 1 else 0).
Proof.
  split.
  - open_log parser; unfold constructed in *;
      repeat match goal with
             | H : count (is_Construct xmlStream) _ = _ |- _ =>
                 rewrite H; clear H
             end;
      cbn; lia.
  - open_log parser; rewrite Hb; unfold destroyed in *;
      repeat match goal with
             | H : count (is_Destroy xmlStream) _ = _ |- _ =>
                 rewrite H; clear H
             end;
      cbn; destruct (empty (getXmlFileName parser)); reflexivity.
Qed.

(** X17.  The dealings with the plug-ins follow one order.  The plug-ins
    are loaded in the order of the command line, up to and with the first
    that does not load.  If they all load, their listeners are registered,
    the tests are run once on the path of the command line, and the
    listeners are removed, whether or not the path resolved; then, if the
    XML report was asked for, their hooks are added, the XML report is
    written, and the hooks are removed.  If one does not load, nothing
    follows its loading. *)
Theorem plugIns_are_dealt_with_in_order parser :
  plugIn_dealings (trace_of (runTests parser))
  = map load_of (attempted load_failure (plugIns parser))
    ++ (if all_loadb (plugIns parser) then
          [plugInManager_addListener; runner_run (getTestPath parser);
           plugInManager_removeListener]
          ++ (if useXmlOutputter parser
              then [plugInManager_addXmlOutputterHooks;
                    write xmlOutputter
                      (if empty (getXmlFileName parser)
                       then if useCoutStream parser then cout else cerr
                       else ofstream (getXmlFileName parser));
                    plugInManager_removeXmlOutputterHooks]
              else [])
        else []).
Proof.
  open_log parser; rewrite Hb;
    repeat match goal with
           | H : plugIn_dealings _ = _ |- _ => rewrite H; clear H
           end.
  - rewrite attempted_all by now apply all_loadb_true.
    rewrite streams_of_spec. cbn. now rewrite !app_nil_r.
  - rewrite Hlist, (attempted_first_failure _ _ Hall Hbad). cbn.
    now rewrite !app_nil_r.
Qed.

(** X18.  [runTests] prints one thing itself, and only when the plug-ins
    loaded and the test path did not resolve: "Failed to resolve test
    path: " and the path, on [cerr]. *)
Theorem unresolved_path_is_reported parser :
  prints (trace_of (runTests parser))
  = if all_loadb (plugIns parser) then
      match test_run (plugIns parser) (getTestPath parser) with
      | Some _ => []
      | None => [(cerr, [text "Failed to resolve test path: ";
                         text (getTestPath parser); endl])]
      end
    else [].
Proof.
  open_log parser; rewrite Hb;
    repeat match goal with H : prints _ = _ |- _ => rewrite H; clear H end;
    cbn; now rewrite ?app_nil_r.
Qed.

(** X19.  [runTests] either returns or throws the exception of a plug-in
    that did not load.  It returns exactly when every plug-in loads, and
    then what it returns is what the collector answered, or [false] when the
    path did not resolve: the exception of an unresolved path does not leave
    it.  The exception it throws names a plug-in of the command line. *)
Theorem only_a_load_failure_leaves_runTests parser :
  match outcome (runTests parser) start with
  | Returned wasSuccessful =>
      all_loadb (plugIns parser) = true /\ wasSuccessful = passed parser
  | Thrown (DynamicLibraryManagerException fileName cause) =>
      all_loadb (plugIns parser) = false
      /\ exists info,
           In info (plugIns parser)
           /\ fileName = m_fileName info
           /\ load_failure fileName (m_parameters info) = Some cause
  | Thrown _ => False
  end.
Proof.
  destruct (runTests_log parser)
    as (r & body & declared & Hsteps
        & [(Hb & -> & _) | (Hb & before & bad & after & cause & Hlist & _
                            & Hbad & -> & _)]);
    destruct (steps_trace Hsteps) as [_ ->].
  - now split.
  - split; [exact Hb|]. exists bad. repeat split; [|exact Hbad].
    rewrite Hlist. apply in_or_app. right. now left.
Qed.

(** [runTests] reads nothing from the standard input. *)
Lemma runTests_reads_nothing parser :
  count is_cin_get (trace_of (runTests parser)) = 0.
Proof.
  open_log parser;
    repeat match goal with
           | H : count is_cin_get _ = _ |- _ => rewrite H; clear H
           end;
    reflexivity.
Qed.

(** X20.  [main] prompts for a key and reads the standard input at one
    place only: as the last thing before it exits, when the command line
    parsed and asked for it, and then whether the tests passed, failed, or
    the plug-ins did not load.  With no argument or a command line that
    does not parse it exits without waiting. *)
Theorem main_waits_only_when_asked applicationName arguments :
  let waits :=
    match arguments with
    | [] => false
    | _ :: _ =>
        match parse applicationName arguments with
        | inr parser => waitBeforeExit parser
        | inl _ => false
        end
    end in
  exists before,
    trace_of (main applicationName arguments)
    = before ++ (if waits then waiting else [])
    /\ count is_cin_get before = 0.
Proof.
  cbn zeta.
  destruct arguments as [|argument arguments].
  { exists [printUsage applicationName]. split; reflexivity. }
  assert (Hargs : argument :: arguments <> []) by discriminate.
  destruct (parse applicationName (argument :: arguments))
    as [message | parser] eqn:Hparse.
  { eexists. unfold trace_of, state_after, Tester.main. rewrite Hparse. cbn.
    split; [symmetry; apply app_nil_r | reflexivity]. }
  pose proof (runTests_reads_nothing parser) as Hnothing.
  unfold trace_of, state_after in *.
  rewrite (@main_parsed load_failure test_run parse applicationName
             (argument :: arguments) parser Hargs Hparse).
  assert (Houtcome : forall e, fst (runTests parser start) = Thrown e ->
                     exists fileName cause,
                       e = DynamicLibraryManagerException fileName cause).
  { intros e He.
    destruct (runTests_log parser)
      as (r & body & declared & Hsteps
          & [(_ & -> & _) | (_ & _ & bad & _ & cause & _ & _ & _ & -> & _)]);
      rewrite Hsteps in He; cbn in He; [discriminate|].
    injection He as <-. now exists (m_fileName bad), cause. }
  unfold try_catch, bind in *.
  destruct (runTests parser start) as [[wasSuccessful | e] [declared log]];
    cbn [fst snd events] in *.
  - exists log. destruct (waitBeforeExit parser); cbn.
    + split; [|exact Hnothing]. now rewrite <- app_assoc.
    + split; [now rewrite app_nil_r | exact Hnothing].
  - destruct (Houtcome e eq_refl) as (fileName & cause & ->).
    exists (log ++ [print cerr [text "Failed to load test plug-in:"; endl;
                                what_of (DynamicLibraryManagerException
                                           fileName cause);
                                endl]]).
    destruct (waitBeforeExit parser); cbn.
    + split; [now rewrite <- !app_assoc|].
      rewrite count_app, Hnothing. reflexivity.
    + split; [now rewrite app_nil_r|].
      rewrite count_app, Hnothing. reflexivity.
Qed.

End Observations.

(** The theorem at work on two command lines: one whose second plug-in does
    not load, with an XML file named, and one whose plug-ins load and whose
    test path does not resolve. *)
Lemma manager_destroyed_last_witness :
  lifetimes []
    (trace_of (Tester.runTests sample_load_failure sample_test_run
                 sample_parser))
  = Some [object xmlStream]
  /\ lifetimes []
       (trace_of (Tester.runTests sample_load_failure sample_test_run
                    loading_parser))
     = Some [].
Proof.
  split.
  - destruct (@manager_destroyed_last sample_load_failure sample_test_run
                sample_parser) as (inner & _ & _ & _ & Hlives).
    exact Hlives.
  - destruct (@manager_destroyed_last sample_load_failure sample_test_run
                loading_parser) as (inner & _ & _ & _ & Hlives).
    exact Hlives.
Defined.

End TesterFacts.
